(** * llamactl: the instance supervisor of [server/pkg/instance.go]

    A shallow embedding of the [Instance] type and of its methods, and the
    properties of the restart policy, of option handling, of the reverse
    proxy cache and of log retrieval that the design document states.

    The methods of [Instance] run under the instance mutex.  Each critical
    section is one function of the state monad [M] below; the goroutines
    the code starts ([monitorProcess], the restart delay of
    [handleRestart]) are separate steps of the transition system [exec]
    at the end of the model. *)

From Stdlib Require Import ZArith String Ascii List Bool Lia DecimalString.
From stdpp Require Import base option gmap strings list.

Local Open Scope string_scope.
Local Open Scope Z_scope.

#[local] Set Warnings "-clear-no-such-hyp".

(** ** Go's [int] on a 64-bit platform *)

Definition min_int : Z := - 2 ^ 63.
Definition max_int : Z := 2 ^ 63 - 1.

Definition is_int (z : Z) : Prop := min_int ≤ z ≤ max_int.

(** Two's complement wrap-around of an arithmetic result. *)
Definition int_wrap (z : Z) : Z := (z - min_int) `mod` 2 ^ 64 + min_int.

(** [%d] of [fmt.Sprintf]. *)
Definition fmt_d (z : Z) : string := NilZero.string_of_int (Z.to_int z).

Definition nl : string := String "010"%char EmptyString.
Definition cr : ascii := "013"%char.

(** ** What [instance.go] uses and does not declare

    [LlamaServerOptions] (embedded in [CreateInstanceOptions], with its
    [Host] and [Port] fields and its [BuildCommandArgs] method) is declared
    in another file of the package; [url.Parse] and [runtime.GOOS] belong
    to Go.  They are parameters of the development, as is
    [json.Unmarshal], a variable of the section next to [UnmarshalJSON]. *)
Class Deps := {
  LlamaServerOptions : Type;
  zero_LlamaServerOptions : LlamaServerOptions;
  Host : LlamaServerOptions → string;
  Port : LlamaServerOptions → Z;
  BuildCommandArgs : LlamaServerOptions → list string;
  URL : Type;
  url_Parse : string → option URL;
  GOOS : string;
}.

(** Modelled from the spec: the declaration of [InstancesConfig] is not in
    [instance.go]; these are the fields that [NewInstance] and
    [createLogFile] read ([default_auto_restart], [default_max_restarts],
    [default_restart_delay_seconds] and [log_dir] of the configuration). *)
Record InstancesConfig := {
  DefaultAutoRestart : bool;
  DefaultMaxRestarts : Z;
  DefaultRestartDelay : Z;
  LogDirectory : string;
}.

(** Go [error] values: one constructor per [fmt.Errorf] of the file, [%w]
    keeping the wrapped error, and [ExtErr] for errors of the runtime. *)
Inductive error :=
| ExtErr (msg : string)
| ErrTooLong
| EAlreadyRunning (name : string)
| ENoOptions (name : string)
| ECreateStdoutLog (w : error)
| ECreateLogFiles (w : error)
| EStdoutPipe (w : error)
| EStderrPipe (w : error)
| EStartInstance (name : string) (w : error)
| ENotRunning (name : string)
| ELogNotCreated (name : string)
| EOpenLog (w : error)
| EReadLog (w : error)
| EReadingFile (w : error)
| EParseTarget (name : string) (w : error).

(** The error a wrapping error was built from, as [errors.Unwrap]. *)
Definition unwrap (e : error) : option error :=
  match e with
  | ECreateStdoutLog w | ECreateLogFiles w | EStdoutPipe w | EStderrPipe w
  | EStartInstance _ w | EOpenLog w | EReadLog w | EReadingFile w
  | EParseTarget _ w => Some w
  | _ => None
  end.

(** One constructor per [log.Printf] / [log.Println] of the file. *)
Inductive LogMsg :=
| LogMaxRestartsLimited (name : string) (v : Z)
| LogMaxRestartsNegative (name : string) (v : Z)
| LogRestartDelayTooLow (name : string) (v : Z)
| LogRestartDelayTooHigh (name : string) (v : Z)
| LogRestartDelayNegative (name : string) (v : Z)
| LogSetNilOptions (name : string)
| LogCancelledPending (name : string)
| LogCrashed (name : string) (e : error)
| LogExitedCleanly (name : string)
| LogAutoRestarting (name : string) (attempt maxRestarts delay_ns : Z)
| LogRestartCancelled (name : string)
| LogRestartFailed (name : string) (e : error)
| LogRestartOK (name : string)
| LogOptionsNil (name : string)
| LogAutoRestartDisabled (name : string)
| LogMaxRestartsNil (name : string)
| LogRestartDelayNil (name : string)
| LogExceededMax (name : string) (maxRestarts : Z).

(** ** The monad of the methods

    A method either returns a value in a new state or panics (a nil
    dereference or a call of a nil function). *)
Inductive Outcome (S A : Type) :=
| Done (a : A) (s : S)
| Panic.
Arguments Done {S A} a s.
Arguments Panic {S A}.

Definition ret {S A} (a : A) : S → Outcome S A := λ s, Done a s.

Definition bind {S A B} (m : S → Outcome S A) (k : A → S → Outcome S B)
    : S → Outcome S B :=
  λ s, match m s with
       | Done a s' => k a s'
       | Panic => Panic
       end.

Definition panic {S A} : S → Outcome S A := λ _, Panic.

Notation "x <- m ;; k" := (bind m (λ x, k))
  (at level 100, m at next level, right associativity).
Notation "m ;; k" := (bind m (λ _, k))
  (at level 100, right associativity).

Section Model.
Context `{D : Deps}.

Record CreateInstanceOptions := {
  AutoRestart : option bool;
  MaxRestarts : option Z;
  RestartDelay : option Z;
  embedded : LlamaServerOptions;
}.

(** [&CreateInstanceOptions{}] *)
Definition zero_options : CreateInstanceOptions :=
  {| AutoRestart := None; MaxRestarts := None; RestartDelay := None;
     embedded := zero_LlamaServerOptions |}.

(** An open [*os.File]: its descriptor and the name it was opened with. *)
Record File := { fd : nat; file_name : string }.

(** An [*exec.Cmd] made by [exec.CommandContext]: the context that kills it,
    its arguments, [SysProcAttr.Setpgid], and whether [Process] is set. *)
Record Cmd := {
  cmd_ctx : nat;
  cmd_args : list string;
  cmd_setpgid : bool;
  cmd_process : bool;
}.

Record ReverseProxy := { target : URL }.

Record Instance := {
  Name : string;
  options : option CreateInstanceOptions;
  globalSettings : option InstancesConfig;
  Running : bool;
  logFile : option File;
  cmd : option Cmd;
  ctx : option nat;
  cancel : option nat;
  stdout : option nat;
  stderr : option nat;
  restarts : Z;
  proxy : option ReverseProxy;
  restartCancel : option nat;
}.

(** What a method does outside the instance: lines of the server log, and
    the child processes started and killed. *)
Inductive Event :=
| Log (m : LogMsg)
| Spawn (c : Cmd)
| Kill (c : Cmd).

(** The instance together with the part of the world its methods touch:
    the files by name, the open descriptors, the contexts whose cancel
    function was called, the next fresh identifier (contexts and
    descriptors), the events so far (oldest first), and the goroutines of
    [handleRestart]: those waiting in its [select] (by context, with the
    delay in nanoseconds), those that left it through the timer and are
    about to call [Start], and those whose [Start] succeeded and that are
    about to clear [restartCancel]. *)
Record St := {
  inst : Instance;
  files : gmap string string;
  open_fds : gset nat;
  cancelled : gset nat;
  next_id : nat;
  out : list Event;
  parked : gmap nat Z;
  starting : nat;
  clearing : nat;
}.

(** *** Field updates *)

Definition with_options (v : option CreateInstanceOptions) (i : Instance) : Instance :=
  {| Name := Name i; options := v; globalSettings := globalSettings i;
     Running := Running i; logFile := logFile i; cmd := cmd i; ctx := ctx i;
     cancel := cancel i; stdout := stdout i; stderr := stderr i;
     restarts := restarts i; proxy := proxy i; restartCancel := restartCancel i |}.

Definition with_Name (v : string) (i : Instance) : Instance :=
  {| Name := v; options := options i; globalSettings := globalSettings i;
     Running := Running i; logFile := logFile i; cmd := cmd i; ctx := ctx i;
     cancel := cancel i; stdout := stdout i; stderr := stderr i;
     restarts := restarts i; proxy := proxy i; restartCancel := restartCancel i |}.

Definition with_Running (v : bool) (i : Instance) : Instance :=
  {| Name := Name i; options := options i; globalSettings := globalSettings i;
     Running := v; logFile := logFile i; cmd := cmd i; ctx := ctx i;
     cancel := cancel i; stdout := stdout i; stderr := stderr i;
     restarts := restarts i; proxy := proxy i; restartCancel := restartCancel i |}.

Definition with_logFile (v : option File) (i : Instance) : Instance :=
  {| Name := Name i; options := options i; globalSettings := globalSettings i;
     Running := Running i; logFile := v; cmd := cmd i; ctx := ctx i;
     cancel := cancel i; stdout := stdout i; stderr := stderr i;
     restarts := restarts i; proxy := proxy i; restartCancel := restartCancel i |}.

Definition with_cmd (v : option Cmd) (i : Instance) : Instance :=
  {| Name := Name i; options := options i; globalSettings := globalSettings i;
     Running := Running i; logFile := logFile i; cmd := v; ctx := ctx i;
     cancel := cancel i; stdout := stdout i; stderr := stderr i;
     restarts := restarts i; proxy := proxy i; restartCancel := restartCancel i |}.

Definition with_ctx (v : option nat) (i : Instance) : Instance :=
  {| Name := Name i; options := options i; globalSettings := globalSettings i;
     Running := Running i; logFile := logFile i; cmd := cmd i; ctx := v;
     cancel := v; stdout := stdout i; stderr := stderr i;
     restarts := restarts i; proxy := proxy i; restartCancel := restartCancel i |}.

Definition with_stdout (v : option nat) (i : Instance) : Instance :=
  {| Name := Name i; options := options i; globalSettings := globalSettings i;
     Running := Running i; logFile := logFile i; cmd := cmd i; ctx := ctx i;
     cancel := cancel i; stdout := v; stderr := stderr i;
     restarts := restarts i; proxy := proxy i; restartCancel := restartCancel i |}.

Definition with_stderr (v : option nat) (i : Instance) : Instance :=
  {| Name := Name i; options := options i; globalSettings := globalSettings i;
     Running := Running i; logFile := logFile i; cmd := cmd i; ctx := ctx i;
     cancel := cancel i; stdout := stdout i; stderr := v;
     restarts := restarts i; proxy := proxy i; restartCancel := restartCancel i |}.

Definition with_restarts (v : Z) (i : Instance) : Instance :=
  {| Name := Name i; options := options i; globalSettings := globalSettings i;
     Running := Running i; logFile := logFile i; cmd := cmd i; ctx := ctx i;
     cancel := cancel i; stdout := stdout i; stderr := stderr i;
     restarts := v; proxy := proxy i; restartCancel := restartCancel i |}.

Definition with_proxy (v : option ReverseProxy) (i : Instance) : Instance :=
  {| Name := Name i; options := options i; globalSettings := globalSettings i;
     Running := Running i; logFile := logFile i; cmd := cmd i; ctx := ctx i;
     cancel := cancel i; stdout := stdout i; stderr := stderr i;
     restarts := restarts i; proxy := v; restartCancel := restartCancel i |}.

Definition with_restartCancel (v : option nat) (i : Instance) : Instance :=
  {| Name := Name i; options := options i; globalSettings := globalSettings i;
     Running := Running i; logFile := logFile i; cmd := cmd i; ctx := ctx i;
     cancel := cancel i; stdout := stdout i; stderr := stderr i;
     restarts := restarts i; proxy := proxy i; restartCancel := v |}.

Definition with_inst (v : Instance) (s : St) : St :=
  {| inst := v; files := files s; open_fds := open_fds s;
     cancelled := cancelled s; next_id := next_id s; out := out s;
     parked := parked s; starting := starting s; clearing := clearing s |}.

Definition with_files (v : gmap string string) (s : St) : St :=
  {| inst := inst s; files := v; open_fds := open_fds s;
     cancelled := cancelled s; next_id := next_id s; out := out s;
     parked := parked s; starting := starting s; clearing := clearing s |}.

Definition with_open_fds (v : gset nat) (s : St) : St :=
  {| inst := inst s; files := files s; open_fds := v;
     cancelled := cancelled s; next_id := next_id s; out := out s;
     parked := parked s; starting := starting s; clearing := clearing s |}.

Definition with_cancelled (v : gset nat) (s : St) : St :=
  {| inst := inst s; files := files s; open_fds := open_fds s;
     cancelled := v; next_id := next_id s; out := out s;
     parked := parked s; starting := starting s; clearing := clearing s |}.

Definition with_next_id (v : nat) (s : St) : St :=
  {| inst := inst s; files := files s; open_fds := open_fds s;
     cancelled := cancelled s; next_id := v; out := out s;
     parked := parked s; starting := starting s; clearing := clearing s |}.

Definition with_out (v : list Event) (s : St) : St :=
  {| inst := inst s; files := files s; open_fds := open_fds s;
     cancelled := cancelled s; next_id := next_id s; out := v;
     parked := parked s; starting := starting s; clearing := clearing s |}.

Definition with_parked (v : gmap nat Z) (s : St) : St :=
  {| inst := inst s; files := files s; open_fds := open_fds s;
     cancelled := cancelled s; next_id := next_id s; out := out s;
     parked := v; starting := starting s; clearing := clearing s |}.

Definition with_starting (v : nat) (s : St) : St :=
  {| inst := inst s; files := files s; open_fds := open_fds s;
     cancelled := cancelled s; next_id := next_id s; out := out s;
     parked := parked s; starting := v; clearing := clearing s |}.

Definition with_clearing (v : nat) (s : St) : St :=
  {| inst := inst s; files := files s; open_fds := open_fds s;
     cancelled := cancelled s; next_id := next_id s; out := out s;
     parked := parked s; starting := starting s; clearing := v |}.

(** The methods are computations over [St]. *)
Definition M (A : Type) : Type := St → Outcome St A.

Definition this : M Instance := λ s, Done (inst s) s.
Definition update (f : Instance → Instance) : M unit :=
  λ s, Done tt (with_inst (f (inst s)) s).
Definition emit (e : Event) : M unit :=
  λ s, Done tt (with_out (out s ++ [e])%list s).
Definition log_Printf (m : LogMsg) : M unit := emit (Log m).

(** [context.WithCancel(context.Background())]: a fresh context. *)
Definition context_WithCancel : M nat :=
  λ s, Done (next_id s) (with_next_id (S (next_id s)) s).

(** Calling the cancel function of context [c]. *)
Definition call_cancel (c : nat) : M unit :=
  λ s, Done tt (with_cancelled ({[c]} ∪ cancelled s) s).

(** [os.OpenFile(path, O_CREATE|O_WRONLY|O_APPEND, 0644)] when it succeeds:
    the file exists afterwards and a new descriptor is open on it. *)
Definition os_OpenFile (path : string) : M File :=
  λ s, let n := next_id s in
       Done {| fd := n; file_name := path |}
            (with_next_id (S n)
              (with_open_fds ({[n]} ∪ open_fds s)
                (with_files (<[path := default "" (files s !! path)]> (files s)) s))).

(** A write on a descriptor opened in append mode; on a closed descriptor
    the write fails, and the code ignores that. *)
Definition Fprintf (f : File) (text : string) : M unit :=
  λ s, if decide (fd f ∈ open_fds s)
       then Done tt (with_files
              (<[file_name f := default "" (files s !! file_name f) +:+ text]> (files s)) s)
       else Done tt s.

Definition Close (n : nat) : M unit :=
  λ s, Done tt (with_open_fds (open_fds s ∖ {[n]}) s).

(** A pipe of the child made by [StdoutPipe] / [StderrPipe]. *)
Definition new_pipe : M nat :=
  λ s, let n := next_id s in
       Done n (with_next_id (S n) (with_open_fds ({[n]} ∪ open_fds s) s)).

(** ** Construction and options *)

(** [NewInstance]: the copy of the options with the restart fields
    validated, then the defaults of the configuration for the fields the
    caller left out.  The second component is what it logs.  The function
    reads the defaults through the pointer [globalSettings], which is
    taken to be non-nil. *)
Definition NewInstance (name : string) (globalSettings : InstancesConfig)
    (options : option CreateInstanceOptions) : Instance * list LogMsg :=
  let '(optionsCopy, logs) :=
    match options with
    | Some o =>
      let autoRestart := match AutoRestart o with Some b => Some b | None => None end in
      let '(maxRestarts, l1) :=
        match MaxRestarts o with
        | Some maxRestarts =>
          if 100 <? maxRestarts
          then (Some 100, [LogMaxRestartsLimited name maxRestarts])
          else if maxRestarts <? 0
          then (Some 0, [LogMaxRestartsNegative name maxRestarts])
          else (Some maxRestarts, [])
        | None => (None, [])
        end in
      let '(restartDelay, l2) :=
        match RestartDelay o with
        | Some restartDelay =>
          if restartDelay <? 1
          then (Some 5, [LogRestartDelayTooLow name restartDelay])
          else if 300 <? restartDelay
          then (Some 300, [LogRestartDelayTooHigh name restartDelay])
          else (Some restartDelay, [])
        | None => (None, [])
        end in
      ({| AutoRestart := autoRestart; MaxRestarts := maxRestarts;
          RestartDelay := restartDelay; embedded := embedded o |}, (l1 ++ l2)%list)
    | None => (zero_options, [])
    end in
  let optionsCopy :=
    {| AutoRestart := match AutoRestart optionsCopy with
                      | None => Some (DefaultAutoRestart globalSettings)
                      | a => a
                      end;
       MaxRestarts := match MaxRestarts optionsCopy with
                      | None => Some (DefaultMaxRestarts globalSettings)
                      | m => m
                      end;
       RestartDelay := match RestartDelay optionsCopy with
                       | None => Some (DefaultRestartDelay globalSettings)
                       | d => d
                       end;
       embedded := embedded optionsCopy |} in
  ({| Name := name; options := Some optionsCopy;
      globalSettings := Some globalSettings; Running := false;
      logFile := None; cmd := None; ctx := None; cancel := None;
      stdout := None; stderr := None; restarts := 0; proxy := None;
      restartCancel := None |}, logs).

Definition GetOptions : M (option CreateInstanceOptions) :=
  i <- this ;; ret (options i).

(** [SetOptions]: nil is refused with a warning; otherwise the fields are
    copied one by one, as they are, and the cached proxy is dropped. *)
Definition SetOptions (options : option CreateInstanceOptions) : M unit :=
  i <- this ;;
  match options with
  | None => log_Printf (LogSetNilOptions (Name i))
  | Some o =>
    let optionsCopy :=
      {| AutoRestart := match AutoRestart o with Some b => Some b | None => None end;
         MaxRestarts := match MaxRestarts o with Some m => Some m | None => None end;
         RestartDelay := match RestartDelay o with Some d => Some d | None => None end;
         embedded := embedded o |} in
    update (with_options (Some optionsCopy)) ;;
    update (with_proxy None)
  end.

(** *** The copy of [SetOptions], with the pointers

    [AutoRestart], [MaxRestarts] and [RestartDelay] are pointers.  Above,
    an options value stands for what the pointers hold; here the cells
    they point to are explicit, to say what the copy shares with the
    argument. *)
Record Heap := {
  bools : gmap nat bool;
  ints : gmap nat Z;
}.

Record OptionsRef := {
  AutoRestart_ref : option nat;
  MaxRestarts_ref : option nat;
  RestartDelay_ref : option nat;
  embedded_val : LlamaServerOptions;
}.

(** What a pointer field holds: [Some None] for nil, [None] when the cell
    does not exist. *)
Definition load_field {A} (cells : gmap nat A) (p : option nat) : option (option A) :=
  match p with
  | None => Some None
  | Some q => match cells !! q with Some v => Some (Some v) | None => None end
  end.

(** The options a reference stands for. *)
Definition load (h : Heap) (r : OptionsRef) : option CreateInstanceOptions :=
  match load_field (bools h) (AutoRestart_ref r),
        load_field (ints h) (MaxRestarts_ref r),
        load_field (ints h) (RestartDelay_ref r) with
  | Some a, Some m, Some d =>
    Some {| AutoRestart := a; MaxRestarts := m; RestartDelay := d;
            embedded := embedded_val r |}
  | _, _, _ => None
  end.

(** [if p != nil { v := *p; copy = &v }]: a new cell with the value. *)
Definition copy_field {A} (cells : gmap nat A) (p : option nat)
    : option nat * gmap nat A :=
  match p with
  | None => (None, cells)
  | Some q =>
    match cells !! q with
    | Some v => let q' := fresh (dom cells) in (Some q', <[q' := v]> cells)
    | None => (None, cells)
    end
  end.

(** The body of [SetOptions] between the nil test and the assignment to
    [i.options]: the reference it stores and the heap with the new cells. *)
Definition copy_options (r : OptionsRef) (h : Heap) : OptionsRef * Heap :=
  let '(a, bs) := copy_field (bools h) (AutoRestart_ref r) in
  let '(m, is1) := copy_field (ints h) (MaxRestarts_ref r) in
  let '(d, is2) := copy_field is1 (RestartDelay_ref r) in
  ({| AutoRestart_ref := a; MaxRestarts_ref := m; RestartDelay_ref := d;
      embedded_val := embedded_val r |},
   {| bools := bs; ints := is2 |}).

(** The heap [h'] has the cells that did not exist in [h] as [h1] has
    them: whatever was written since [h1], it was written to cells of [h]. *)
Definition same_new_cells (h h1 h' : Heap) : Prop :=
  (∀ q, q ∉ dom (bools h) → bools h' !! q = bools h1 !! q) ∧
  (∀ q, q ∉ dom (ints h) → ints h' !! q = ints h1 !! q).

(** [fmt.Sprintf("http://%s:%d", i.options.Host, i.options.Port)] *)
Definition target_of (o : CreateInstanceOptions) : string :=
  "http://" +:+ Host (embedded o) +:+ ":" +:+ fmt_d (Port (embedded o)).

(** The error of a failed [url.Parse]. *)
Definition url_error (raw : string) : error := ExtErr ("parse " +:+ raw).

Definition GetProxy : M (option ReverseProxy * option error) :=
  i <- this ;;
  match proxy i with
  | Some p => ret (Some p, None)
  | None =>
    match options i with
    | None => ret (None, Some (ENoOptions (Name i)))
    | Some o =>
      match url_Parse (target_of o) with
      | None => ret (None, Some (EParseTarget (Name i) (url_error (target_of o))))
      | Some targetURL =>
        let p := {| target := targetURL |} in
        update (with_proxy (Some p)) ;;
        ret (Some p, None)
      end
    end
  end.

(** ** The log file *)

(** What the runtime answers during one [Start]: the error of each call
    that can fail ([None] when it succeeds) and the two readings of the
    clock, already formatted. *)
Record StartEnv := {
  open_err : option error;
  start_now : string;
  stdout_err : option error;
  stderr_err : option error;
  spawn_err : option error;
  close_now : string;
}.

Definition started_marker (name timestamp : string) : string :=
  nl +:+ "=== Instance " +:+ name +:+ " started at " +:+ timestamp +:+ " ===" +:+ nl.

Definition stopped_marker (name timestamp : string) : string :=
  "=== Instance " +:+ name +:+ " stopped at " +:+ timestamp +:+ " ===" +:+ nl +:+ nl.

Definition createLogFile (e : StartEnv) : M (option error) :=
  i <- this ;;
  match globalSettings i with
  | None => panic
  | Some gs =>
    let logPath := LogDirectory gs +:+ "/" +:+ Name i +:+ ".log" in
    match open_err e with
    | Some err => ret (Some (ECreateStdoutLog err))
    | None =>
      logFile <- os_OpenFile logPath ;;
      update (with_logFile (Some logFile)) ;;
      Fprintf logFile (started_marker (Name i) (start_now e)) ;;
      ret None
    end
  end.

Definition closeLogFile (timestamp : string) : M unit :=
  i <- this ;;
  match logFile i with
  | Some f =>
    Fprintf f (stopped_marker (Name i) timestamp) ;;
    Close (fd f) ;;
    update (with_logFile None)
  | None => ret tt
  end.

(** ** Start and Stop *)

(** [cmd.Start()] of [os/exec]: when it fails it closes the pipes it was
    given; when it succeeds the process exists. *)
Definition cmd_Start (c : Cmd) (e : StartEnv) : M (option error) :=
  match spawn_err e with
  | Some err =>
    i <- this ;;
    (match stdout i with Some p => Close p | None => ret tt end) ;;
    (match stderr i with Some p => Close p | None => ret tt end) ;;
    ret (Some err)
  | None =>
    let c' := {| cmd_ctx := cmd_ctx c; cmd_args := cmd_args c;
                 cmd_setpgid := cmd_setpgid c; cmd_process := true |} in
    update (with_cmd (Some c')) ;;
    emit (Spawn c') ;;
    ret None
  end.

Definition Start (e : StartEnv) : M (option error) :=
  i <- this ;;
  if Running i then ret (Some (EAlreadyRunning (Name i))) else
  match options i with
  | None => ret (Some (ENoOptions (Name i)))
  | Some o =>
    r <- createLogFile e ;;
    match r with
    | Some err => ret (Some (ECreateLogFiles err))
    | None =>
      let args := BuildCommandArgs (embedded o) in
      c <- context_WithCancel ;;
      update (with_ctx (Some c)) ;;
      let command := {| cmd_ctx := c; cmd_args := args;
                        cmd_setpgid := negb (String.eqb GOOS "windows");
                        cmd_process := false |} in
      update (with_cmd (Some command)) ;;
      match stdout_err e with
      | Some err =>
        update (with_stdout None) ;;
        closeLogFile (close_now e) ;;
        ret (Some (EStdoutPipe err))
      | None =>
        p1 <- new_pipe ;;
        update (with_stdout (Some p1)) ;;
        match stderr_err e with
        | Some err =>
          update (with_stderr None) ;;
          Close p1 ;;
          closeLogFile (close_now e) ;;
          ret (Some (EStderrPipe err))
        | None =>
          p2 <- new_pipe ;;
          update (with_stderr (Some p2)) ;;
          r <- cmd_Start command e ;;
          match r with
          | Some err => ret (Some (EStartInstance (Name i) err))
          | None =>
            update (with_Running true) ;;
            ret None
          end
        end
      end
    end
  end.

(** What happens during one [Stop]: whether the child exits within the
    five seconds, and the clock. *)
Record StopEnv := {
  exits_in_time : bool;
  stop_now : string;
}.

(** [cmd.Wait()] of [os/exec] once the child has exited: it closes the
    pipes that [StdoutPipe] and [StderrPipe] made for the command (those
    that [Start] put in [stdout] and [stderr]); on a command that was not
    started it returns an error at once. *)
Definition cmd_Wait : M unit :=
  i <- this ;;
  match cmd i with
  | Some c =>
    if cmd_process c then
      (match stdout i with Some p => Close p | None => ret tt end) ;;
      (match stderr i with Some p => Close p | None => ret tt end)
    else ret tt
  | None => ret tt
  end.

(** [Stop].  The goroutine that [Stop] starts for [i.cmd.Wait()] runs
    beside it: when the child exits within the five seconds, [Wait] has
    returned, and closed the pipes, by the time [Stop] returns.  The model
    writes this at the end of [Stop]; the pipes and the log file are
    different files, so that the order of closing them makes no
    difference. *)
Definition Stop (e : StopEnv) : M (option error) :=
  i <- this ;;
  if negb (Running i) then
    (match restartCancel i with
     | Some c =>
       call_cancel c ;;
       update (with_restartCancel None) ;;
       log_Printf (LogCancelledPending (Name i))
     | None => ret tt
     end) ;;
    ret (Some (ENotRunning (Name i)))
  else
    (match restartCancel i with
     | Some c => call_cancel c ;; update (with_restartCancel None)
     | None => ret tt
     end) ;;
    (match cancel i with
     | Some c => call_cancel c
     | None => panic
     end) ;;
    update (with_proxy None) ;;
    (match cmd i with
     | None => panic
     | Some c =>
       if exits_in_time e then ret tt
       else if cmd_process c then emit (Kill c) else ret tt
     end) ;;
    update (with_Running false) ;;
    closeLogFile (stop_now e) ;;
    (if exits_in_time e then cmd_Wait else ret tt) ;;
    ret None.

(** ** Reading the log *)

(** The pieces of a content between its newlines (at least one piece). *)
Fixpoint segments (s : string) : list string :=
  match s with
  | EmptyString => [""]
  | String c s' =>
    match segments s' with
    | seg :: rest =>
      if Ascii.eqb c "010" then "" :: seg :: rest else String c seg :: rest
    | [] => []
    end
  end.

(** [dropCR] of [bufio]: a trailing carriage return is removed. *)
Fixpoint dropCR (s : string) : string :=
  match s with
  | EmptyString => ""
  | String c s' =>
    match s' with
    | EmptyString => if Ascii.eqb c cr then "" else s
    | _ => String c (dropCR s')
    end
  end.

(** [bufio.MaxScanTokenSize] *)
Definition MaxScanTokenSize : Z := 64 * 1024.

(** The tokens of a [bufio.Scanner] with the default split function
    [ScanLines] over a whole content: the lines without their end-of-line
    marker; the last line counts without a newline unless it is empty. *)
Definition scan_lines (content : string) : list string :=
  let segs := segments content in
  map dropCR (if String.eqb (List.last segs "") "" then removelast segs else segs).

(** A line that does not fit the buffer of the scanner stops it with
    [ErrTooLong]. *)
Definition token_too_long (content : string) : bool :=
  existsb (λ seg, MaxScanTokenSize <=? Z.of_nat (String.length seg)) (segments content).

(** What the runtime answers during one [GetLogs]. *)
Record ReadEnv := {
  os_Open_err : option error;
  read_err : option error;
}.

Definition os_Open (name : string) (e : ReadEnv) : M (error + string) :=
  λ s, match os_Open_err e with
       | Some err => Done (inl err) s
       | None =>
         match files s !! name with
         | Some content => Done (inr content) s
         | None => Done (inl (ExtErr "no such file or directory")) s
         end
       end.

(** [scanner.Scan()] until it returns false, then [scanner.Err()]. *)
Definition scan_all (content : string) (e : ReadEnv) : error + list string :=
  match read_err e with
  | Some err => inl err
  | None => if token_too_long content then inl ErrTooLong else inr (scan_lines content)
  end.

Definition GetLogs (num_lines : Z) (e : ReadEnv) : M (string * option error) :=
  i <- this ;;
  let logFileName := match logFile i with Some f => file_name f | None => "" end in
  if String.eqb logFileName "" then ret ("", Some (ELogNotCreated (Name i))) else
  r <- os_Open logFileName e ;;
  match r with
  | inl err => ret ("", Some (EOpenLog err))
  | inr content =>
    if num_lines <=? 0 then
      match read_err e with
      | Some err => ret ("", Some (EReadLog err))
      | None => ret (content, None)
      end
    else
      match scan_all content e with
      | inl err => ret ("", Some (EReadingFile err))
      | inr lines =>
        let start := Z.max (int_wrap (Z.of_nat (length lines) - num_lines)) 0 in
        ret (String.concat nl (drop (Z.to_nat start) lines), None)
      end
  end.

(** One turn of the loop of [readOutput]: a line of the child goes to the
    log file the goroutine was given. *)
Definition readOutput_line (logFile : option File) (line : string) : M unit :=
  match logFile with
  | Some f => Fprintf f (line +:+ nl)
  | None => ret tt
  end.

(** The end of [readOutput]: the scanner is done and the deferred
    [reader.Close()] runs. *)
Definition readOutput_eof (reader : nat) : M unit := Close reader.

(** ** The monitor and the automatic restart *)

Definition validateRestartConditions : M (bool * Z * Z) :=
  i <- this ;;
  match options i with
  | None => log_Printf (LogOptionsNil (Name i)) ;; ret (false, 0, 0)
  | Some o =>
    match AutoRestart o with
    | None | Some false =>
      log_Printf (LogAutoRestartDisabled (Name i)) ;; ret (false, 0, 0)
    | Some true =>
      match MaxRestarts o with
      | None => log_Printf (LogMaxRestartsNil (Name i)) ;; ret (false, 0, 0)
      | Some maxRestarts =>
        match RestartDelay o with
        | None => log_Printf (LogRestartDelayNil (Name i)) ;; ret (false, 0, 0)
        | Some restartDelay =>
          if maxRestarts <=? restarts i
          then log_Printf (LogExceededMax (Name i) maxRestarts) ;; ret (false, 0, 0)
          else ret (true, maxRestarts, restartDelay)
        end
      end
    end
  end.

(** [time.Duration(restartDelay) * time.Second], in nanoseconds. *)
Definition delay_ns (restartDelay : Z) : Z := int_wrap (restartDelay * 1000000000).

(** The goroutine goes to sleep in the [select] of [handleRestart]. *)
Definition park (c : nat) (d : Z) : M unit :=
  λ s, Done tt (with_parked (<[c := d]> (parked s)) s).

(** [handleRestart] up to the release of the lock: the decision, the
    counter, the cancellable context of the delay. *)
Definition handleRestart : M unit :=
  r <- validateRestartConditions ;;
  let '(shouldRestart, maxRestarts, restartDelay) := r in
  if negb shouldRestart then ret tt else
  update (λ i, with_restarts (int_wrap (restarts i + 1)) i) ;;
  i <- this ;;
  log_Printf (LogAutoRestarting (Name i) (restarts i) maxRestarts (delay_ns restartDelay)) ;;
  c <- context_WithCancel ;;
  update (with_restartCancel (Some c)) ;;
  park c (delay_ns restartDelay).

(** [monitorProcess] after [cmd.Wait()] returned [err]. *)
Definition monitorProcess (err : option error) (timestamp : string) : M unit :=
  i <- this ;;
  if negb (Running i) then ret tt else
  update (with_Running false) ;;
  closeLogFile timestamp ;;
  (match restartCancel i with
   | Some c => call_cancel c ;; update (with_restartCancel None)
   | None => ret tt
   end) ;;
  match err with
  | Some e => log_Printf (LogCrashed (Name i) e) ;; handleRestart
  | None => log_Printf (LogExitedCleanly (Name i))
  end.

(** The [select] of [handleRestart], timer branch.  A goroutine blocked in
    a [select] is woken by the first of its channels that becomes ready:
    the timer wakes the goroutine of context [c] only while [c] is not
    cancelled, and the goroutine goes on to call [Start]. *)
Definition select_timer (c : nat) : M unit :=
  λ s, match parked s !! c with
       | Some _ =>
         if decide (c ∈ cancelled s) then Done tt s
         else Done tt (with_starting (S (starting s)) (with_parked (delete c (parked s)) s))
       | None => Done tt s
       end.

(** The [select] of [handleRestart], [restartCtx.Done()] branch: it is
    there once the context is cancelled, and the goroutine returns. *)
Definition select_done (c : nat) : M unit :=
  s <- (λ s, Done s s) ;;
  match parked s !! c with
  | Some _ =>
    if decide (c ∈ cancelled s) then
      (λ s, Done tt (with_parked (delete c (parked s)) s)) ;;
      log_Printf (LogRestartCancelled (Name (inst s)))
    else ret tt
  | None => ret tt
  end.

(** After the delay: [Start], and its result logged. *)
Definition restart_Start (e : StartEnv) : M unit :=
  s <- (λ s, Done s s) ;;
  match starting s with
  | O => ret tt
  | S n =>
    (λ s, Done tt (with_starting n s)) ;;
    r <- Start e ;;
    match r with
    | Some err => log_Printf (LogRestartFailed (Name (inst s)) err)
    | None =>
      log_Printf (LogRestartOK (Name (inst s))) ;;
      (λ s, Done tt (with_clearing (S (clearing s)) s))
    end
  end.

(** The last critical section of [handleRestart]. *)
Definition restart_clear : M unit :=
  s <- (λ s, Done s s) ;;
  match clearing s with
  | O => ret tt
  | S n =>
    (λ s, Done tt (with_clearing n s)) ;;
    update (with_restartCancel None)
  end.

(** ** Persistence *)

(** The anonymous struct that [UnmarshalJSON] decodes into. *)
Record Temp := {
  temp_Name : string;
  temp_Options : option CreateInstanceOptions;
  temp_Running : bool;
}.

(** [json.Unmarshal(data, &temp)] *)
Variable json_Unmarshal : string → error + Temp.

Definition UnmarshalJSON (data : string) : M (option error) :=
  match json_Unmarshal data with
  | inl err => ret (Some err)
  | inr temp =>
    update (with_Name (temp_Name temp)) ;;
    update (with_Running (temp_Running temp)) ;;
    match temp_Options temp with
    | Some o =>
      maxRestarts <-
        match MaxRestarts o with
        | Some m =>
          if m <? 0
          then log_Printf (LogMaxRestartsNegative (temp_Name temp) m) ;; ret (Some 0)
          else ret (Some m)
        | None => ret None
        end ;;
      restartDelay <-
        match RestartDelay o with
        | Some d =>
          if d <? 0
          then log_Printf (LogRestartDelayNegative (temp_Name temp) d) ;; ret (Some 5)
          else ret (Some d)
        | None => ret None
        end ;;
      update (with_options
        (Some {| AutoRestart := AutoRestart o; MaxRestarts := maxRestarts;
                 RestartDelay := restartDelay; embedded := embedded o |})) ;;
      ret None
    | None => ret None
    end
  end.

(** ** The instance as a transition system

    The operator calls [Start] and [Stop]; a monitor sees its child exit;
    the goroutines of [readOutput] and of [handleRestart] take their
    steps.  Every step is one critical section or one wake-up. *)
Inductive Op :=
| OpStart (e : StartEnv)
| OpStop (e : StopEnv)
| OpChildExit (err : option error) (timestamp : string)
| OpOutput (f : option File) (line : string)
| OpOutputEnd (reader : nat)
| OpTimer (c : nat)
| OpCtxDone (c : nat)
| OpRestart (e : StartEnv)
| OpClear.

Definition exec (op : Op) : M unit :=
  match op with
  | OpStart e => _ <- Start e ;; ret tt
  | OpStop e => _ <- Stop e ;; ret tt
  | OpChildExit err timestamp => monitorProcess err timestamp
  | OpOutput f line => readOutput_line f line
  | OpOutputEnd reader => readOutput_eof reader
  | OpTimer c => select_timer c
  | OpCtxDone c => select_done c
  | OpRestart e => restart_Start e
  | OpClear => restart_clear
  end.

Fixpoint run (ops : list Op) : M unit :=
  match ops with
  | [] => ret tt
  | op :: ops' => exec op ;; run ops'
  end.

End Model.

(** ** The properties, as predicates on the model *)

Section Predicates.
Context `{D : Deps}.

(** The state of a program that holds instance [i] and has done nothing
    yet. *)
Definition init (i : Instance) : St :=
  {| inst := i; files := ∅; open_fds := ∅; cancelled := ∅; next_id := 0%nat;
     out := []; parked := ∅; starting := 0%nat; clearing := 0%nat |}.

(** [max_restarts] of the instance, when its options have one. *)
Definition restart_bound (i : Instance) : option Z :=
  match options i with
  | Some o => MaxRestarts o
  | None => None
  end.

(** [restarts ≤ max_restarts] *)
Definition bounded (i : Instance) : Prop :=
  ∀ m, restart_bound i = Some m → restarts i ≤ m.

(** The counter and the bound are values of Go's [int]. *)
Definition ints_ok (i : Instance) : Prop :=
  is_int (restarts i) ∧ ∀ m, restart_bound i = Some m → is_int m.

(** The ranges of the restart policy in the data model. *)
Definition policy_in_range (o : CreateInstanceOptions) : Prop :=
  (∀ m, MaxRestarts o = Some m → 0 ≤ m ≤ 100) ∧
  (∀ d, RestartDelay o = Some d → 1 ≤ d ≤ 300).

(** An instance that [NewInstance] made and that the methods of this file
    changed: it has its configuration, and while it runs it has its
    command and the cancel function of its context. *)
Definition wf (i : Instance) : Prop :=
  is_Some (globalSettings i) ∧
  (Running i = true → is_Some (cancel i) ∧ is_Some (cmd i)).

Definition is_spawn (e : Event) : bool :=
  match e with Spawn _ => true | _ => false end.

(** The number of child processes started so far. *)
Definition spawns (s : St) : nat := length (List.filter is_spawn (out s)).

(** The automatic restarts on their way: goroutines sleeping in the
    [select] of [handleRestart] or about to call [Start]. *)
Definition in_flight (s : St) : nat := (size (parked s) + starting s)%nat.

Definition operator_Start (op : Op) : bool :=
  match op with OpStart _ => true | _ => false end.

(** The steps the operator takes. *)
Definition operator_op (op : Op) : bool :=
  match op with OpStart _ | OpStop _ => true | _ => false end.

(** A stopped instance with no restart on its way: it is not running, no
    restart goroutine is about to call [Start], and every one that sleeps
    has its context cancelled. *)
Definition quiet (s : St) : Prop :=
  Running (inst s) = false ∧ starting s = 0%nat ∧
  ∀ c, is_Some (parked s !! c) → c ∈ cancelled s.

(** The room left under the cap: [max_restarts - restarts > 0]. *)
Definition under_cap (i : Instance) : Prop :=
  ∃ m, restart_bound i = Some m ∧ restarts i < m.



(** The conditions under which [validateRestartConditions] lets
    [handleRestart] go on. *)
Definition restart_wanted (i : Instance) : Prop :=
  ∃ o m d, options i = Some o ∧ AutoRestart o = Some true ∧
           MaxRestarts o = Some m ∧ RestartDelay o = Some d ∧ restarts i < m.


(** The fields [NewInstance] stores for the fields the caller supplied. *)
Definition clamp_max_restarts (m : Z) : Z := Z.max 0 (Z.min 100 m).
Definition fix_restart_delay (d : Z) : Z := if d <? 1 then 5 else Z.min 300 d.

(** The last [n] elements of a list. *)
Definition last_n {A} (n : Z) (l : list A) : list A :=
  drop (length l - Z.to_nat n) l.

End Predicates.

(** ** A concrete instance, for examples

    The backend options are a host and a port, the command line names
    them, and every target parses. *)

Definition demo : Deps :=
  {| LlamaServerOptions := string * Z;
     zero_LlamaServerOptions := ("", 0);
     Host := fst;
     Port := snd;
     BuildCommandArgs := λ o, ["--host"; fst o; "--port"; fmt_d (snd o)];
     URL := string;
     url_Parse := λ raw, Some raw;
     GOOS := "linux" |}.

Definition demo_config : InstancesConfig :=
  {| DefaultAutoRestart := true; DefaultMaxRestarts := 3;
     DefaultRestartDelay := 5; LogDirectory := "/var/log/llamactl" |}.

Definition demo_options : @CreateInstanceOptions demo :=
  {| AutoRestart := Some true; MaxRestarts := Some 2; RestartDelay := Some 1;
     embedded := (("127.0.0.1", 18001) : @LlamaServerOptions demo) |}.

Definition demo_instance : @Instance demo :=
  (NewInstance "small" demo_config (Some demo_options)).1.

Definition demo_init : @St demo := init demo_instance.

Definition env_ok : StartEnv :=
  {| open_err := None; start_now := "2025-01-01 10:00:00"; stdout_err := None;
     stderr_err := None; spawn_err := None; close_now := "2025-01-01 10:00:01" |}.

Definition env_no_binary : StartEnv :=
  {| open_err := None; start_now := "2025-01-01 10:00:00"; stdout_err := None;
     stderr_err := None;
     spawn_err := Some (ExtErr "exec: llama-server: executable file not found in $PATH");
     close_now := "2025-01-01 10:00:01" |}.

Definition env_stop : StopEnv :=
  {| exits_in_time := true; stop_now := "2025-01-01 10:05:00" |}.

Definition env_read : ReadEnv := {| os_Open_err := None; read_err := None |}.

Definition crash : option error := Some (ExtErr "exit status 1").

(** The state an outcome ends in ([s] when it panicked). *)
Definition state_of {S A} (s : S) (o : Outcome S A) : S :=
  match o with Done _ s' => s' | Panic => s end.

(** The demo instance started by the operator. *)
Definition demo_running : @St demo := state_of demo_init (Start env_ok demo_init).

(** The demo instance after its child crashed once: a restart is pending. *)
Definition demo_crashed : @St demo :=
  state_of demo_running (monitorProcess crash "2025-01-01 10:01:00" demo_running).

(** Options outside the ranges of the data model. *)
Definition wild_options : @CreateInstanceOptions demo :=
  {| AutoRestart := Some true; MaxRestarts := Some 500; RestartDelay := Some 0;
     embedded := (("127.0.0.1", 18001) : @LlamaServerOptions demo) |}.

(** Options that ask for restarts and give no delay. *)
Definition no_delay_options : @CreateInstanceOptions demo :=
  {| AutoRestart := Some true; MaxRestarts := Some 3; RestartDelay := None;
     embedded := (("127.0.0.1", 18001) : @LlamaServerOptions demo) |}.


(** The crashed demo instance after the operator called [Stop], which
    cancelled the pending restart. *)
Definition demo_cancelled : @St demo :=
  state_of demo_crashed (Stop env_stop demo_crashed).

(** The running demo instance stopped by the operator. *)
Definition demo_stopped : @St demo :=
  state_of demo_running (Stop env_stop demo_running).

(** The cancelled demo instance started again by the operator. *)
Definition demo_restarted : @St demo :=
  state_of demo_cancelled (Start env_ok demo_cancelled).

(** The demo instance, running, after [SetOptions] gave it a new port. *)
Definition moved_options : @CreateInstanceOptions demo :=
  {| AutoRestart := Some true; MaxRestarts := Some 2; RestartDelay := Some 1;
     embedded := (("127.0.0.1", 18002) : @LlamaServerOptions demo) |}.

(** Scenario S3 of the design: the child crashes three times in a row.
    The contexts of the two restart delays are 4 and 9. *)
Definition crash_three_times : list Op :=
  [OpStart env_ok;
   OpChildExit crash "2025-01-01 10:01:00"; OpTimer 4; OpRestart env_ok; OpClear;
   OpChildExit crash "2025-01-01 10:02:00"; OpTimer 9; OpRestart env_ok; OpClear;
   OpChildExit crash "2025-01-01 10:03:00"].

(** Scenario S4 of the design: the operator stops the instance while the
    restart delay runs. *)
Definition stop_during_delay : list Op :=
  [OpStart env_ok; OpChildExit crash "2025-01-01 10:01:00"; OpStop env_stop;
   OpTimer 4; OpCtxDone 4; OpRestart env_ok].

(** What is left to run once the operator has stopped a running instance:
    the monitor of the child, the output readers, the restart goroutines. *)
Definition after_stop : list Op :=
  [OpChildExit crash "2025-01-01 10:05:01"; OpOutput None "bye"; OpOutputEnd 2;
   OpOutputEnd 3; OpTimer 4; OpCtxDone 4; OpRestart env_ok; OpClear].

Definition is_exceeded (e : Event) : bool :=
  match e with Log (LogExceededMax _ _) => true | _ => false end.

Definition is_restart_cancelled (e : Event) : bool :=
  match e with Log (LogRestartCancelled _) => true | _ => false end.

(** The log file of the demo instance once started. *)
Definition demo_log : string :=
  nl +:+ "=== Instance small started at 2025-01-01 10:00:00 ===" +:+ nl.

(** The proxy for [moved_options]. *)
Definition moved_proxy : @ReverseProxy demo :=
  {| target := ("http://127.0.0.1:18002" : @URL demo) |}.

(** A decoder that answers with [wild_options] for a stopped instance. *)
Definition decode_wild (data : string) : error + @Temp demo :=
  inr {| temp_Name := "small"; temp_Options := Some wild_options;
         temp_Running := false |}.

(** The demo instance at its cap, after scenario S3. *)
Definition demo_capped : @St demo :=
  state_of demo_init (run crash_three_times demo_init).

(** The operator starts the capped instance again, by hand, and the child
    crashes once more. *)
Definition crash_at_cap : list Op :=
  [OpStop env_stop; OpChildExit crash "2025-01-01 10:04:00"; OpTimer 14;
   OpRestart env_ok; OpClear; OpCtxDone 14].

(** ** The rest of the file: encoding, and all the calls together *)

Section Calls.
Context `{D : Deps}.

(** The struct that [MarshalJSON] encodes. *)
Definition temp_of (i : Instance) : Temp :=
  {| temp_Name := Name i; temp_Options := options i; temp_Running := Running i |}.

(** [json.Marshal(temp)] *)
Variable json_Marshal : Temp → error + string.

Definition MarshalJSON : M (string * option error) :=
  i <- this ;;
  match json_Marshal (temp_of i) with
  | inl err => ret ("", Some err)
  | inr data => ret (data, None)
  end.

(** The path that [createLogFile] opens. *)
Definition log_path (gs : InstancesConfig) (name : string) : string :=
  LogDirectory gs +:+ "/" +:+ name +:+ ".log".

(** The lines that [readOutput] writes for the lines of the child. *)
Definition written (lines : list string) : string :=
  String.concat "" (map (λ line, line +:+ nl) lines).

(** The steps of the transition system and the calls of the methods that
    are no steps of it. *)
Inductive Call :=
| CallStep (op : Op)
| CallSetOptions (options : option CreateInstanceOptions)
| CallGetOptions
| CallGetProxy
| CallGetLogs (num_lines : Z) (e : ReadEnv).

Definition call (c : Call) : M unit :=
  match c with
  | CallStep op => exec op
  | CallSetOptions options => SetOptions options
  | CallGetOptions => _ <- GetOptions ;; ret tt
  | CallGetProxy => _ <- GetProxy ;; ret tt
  | CallGetLogs num_lines e => _ <- GetLogs num_lines e ;; ret tt
  end.

Fixpoint calls (cs : list Call) : M unit :=
  match cs with
  | [] => ret tt
  | c :: cs' => call c ;; calls cs'
  end.

(** The cached proxy, when there is one, is the proxy of the options. *)
Definition proxy_matches (i : Instance) : Prop :=
  ∀ p, proxy i = Some p →
       ∃ o, options i = Some o ∧ url_Parse (target_of o) = Some (target p).

(** Every file of [m] is in [m'] with its content and possibly more at
    its end. *)
Definition grows (m m' : gmap string string) : Prop :=
  ∀ path content, m !! path = Some content →
                  ∃ more, m' !! path = Some (content +:+ more).

(** A running instance has its log file, its started command and the
    cancel function of the context of the command. *)
Definition running_ok (i : Instance) : Prop :=
  Running i = true →
  ∃ f c, logFile i = Some f ∧ cmd i = Some c ∧ cmd_process c = true ∧
         cancel i = Some (cmd_ctx c) ∧ ctx i = Some (cmd_ctx c).

(** The attempt number and the maximum that an announcement of an
    automatic restart states. *)
Definition attempt_of (e : Event) : option (Z * Z) :=
  match e with
  | Log (LogAutoRestarting _ attempt maxRestarts _) => Some (attempt, maxRestarts)
  | _ => None
  end.

(** The automatic restarts announced in the server log, in order. *)
Definition attempts (s : St) : list (Z * Z) := omap attempt_of (out s).

(** A line is a text without a newline in it. *)
Definition no_newline (line : string) : Prop := ∀ a b, line ≠ a +:+ nl +:+ b.

(** A text that does not end with a carriage return. *)
Definition no_final_cr (line : string) : Prop := ∀ a, line ≠ a +:+ String cr "".

(** The contexts that the instance holds and those that were cancelled
    were all made by [context.WithCancel]: their numbers are below the
    next one. *)
Definition contexts_made (s : St) : Prop :=
  (∀ c, c ∈ cancelled s → (c < next_id s)%nat) ∧
  (∀ c, cancel (inst s) = Some c → (c < next_id s)%nat) ∧
  (∀ c, restartCancel (inst s) = Some c → (c < next_id s)%nat).

End Calls.

(** ** More of the demo instance *)

(** A [Stop] during which the child does not exit in time. *)
Definition env_kill : StopEnv :=
  {| exits_in_time := false; stop_now := "2025-01-01 10:05:00" |}.

(** The zero value of [Instance], as a decoder starts from. *)
Definition blank_instance : @Instance demo :=
  {| Name := ""; options := None; globalSettings := None; Running := false;
     logFile := None; cmd := None; ctx := None; cancel := None;
     stdout := None; stderr := None; restarts := 0; proxy := None;
     restartCancel := None |}.

(** A decoder that answers with the demo instance, running. *)
Definition decode_running (data : string) : error + @Temp demo :=
  inr {| temp_Name := "small"; temp_Options := Some demo_options;
         temp_Running := true |}.

(** A decoder that answers with [moved_options] for a stopped instance. *)
Definition decode_moved (data : string) : error + @Temp demo :=
  inr {| temp_Name := "small"; temp_Options := Some moved_options;
         temp_Running := false |}.

(** An encoder and the decoder that gives back the running demo
    instance. *)
Definition encode_demo (temp : @Temp demo) : error + string := inr "{}".
Definition decode_demo (data : string) : error + @Temp demo :=
  inr (temp_of (inst demo_running)).

(** The running demo instance once its proxy was asked for. *)
Definition demo_proxied : @St demo :=
  state_of demo_running (GetProxy demo_running).

(** The log file of the demo instance, as its readers hold it. *)
Definition demo_file : File :=
  {| fd := 0; file_name := "/var/log/llamactl/small.log" |}.

Definition demo_lines : list string := ["loading model"; "listening"].

(** The child of the demo instance crashes, is restarted, and crashes
    again before the restart goroutine has cleared [restartCancel]. *)
Definition crash_before_clear : list Op :=
  [OpStart env_ok;
   OpChildExit crash "2025-01-01 10:01:00"; OpTimer 4; OpRestart env_ok;
   OpChildExit crash "2025-01-01 10:02:00"].

Definition demo_racing : @St demo :=
  state_of demo_init (run crash_before_clear demo_init).

(** A line of [k] bytes. *)
Fixpoint line_of (k : nat) : string :=
  match k with
  | O => ""
  | S k' => String "x" (line_of k')
  end.

(** A line of 65536 bytes, the size of the buffer of the scanner, and the
    running demo instance with a log file that holds this line. *)
Definition long_line : string := line_of (Z.to_nat 65536).

Definition demo_long : @St demo :=
  with_files (<[file_name demo_file := long_line +:+ nl]> (files demo_running))
    demo_running.

(** A line one byte shorter, in the same place. *)
Definition short_line : string := line_of (Z.to_nat 65535).

Definition demo_short : @St demo :=
  with_files (<[file_name demo_file := short_line +:+ nl]> (files demo_running))
    demo_running.

(** * Properties *)

Section Proofs.
Context `{D : Deps}.

(** Unfolding of the primitives of the monad. *)
Ltac prim :=
  cbv [bind ret panic this update emit log_Printf context_WithCancel call_cancel
       os_OpenFile Fprintf Close new_pipe park] in *.

(** Case analysis on whatever the goal matches on. *)
Ltac cases := repeat (case_match; simplify_eq/=; try done).

(** ** SetOptions *)

Lemma SetOptions_Some (o : CreateInstanceOptions) (s : St) :
  SetOptions (Some o) s =
  Done tt (with_inst (with_proxy None (with_options (Some o) (inst s))) s).
Proof.
  unfold SetOptions. prim. simpl.
  destruct o as [[a|] [m|] [d|] l]; reflexivity.
Qed.

(** *** The copy is deep *)

Lemma copy_field_spec {A} (cells : gmap nat A) (p : option nat) (v : option A) :
  load_field cells p = Some v →
  ∃ p' cells', copy_field cells p = (p', cells') ∧
    load_field cells' p' = Some v ∧
    cells ⊆ cells' ∧
    (∀ q, p' = Some q → q ∉ dom cells) ∧
    (∀ q, q ∈ dom cells' → q ∈ dom cells ∨ p' = Some q).
Proof.
  unfold load_field, copy_field. destruct p as [q|]; simpl.
  - destruct (cells !! q) as [x|] eqn:Hq; [|done]. intros [= <-].
    pose proof (is_fresh (dom cells)) as Hfresh.
    eexists _, _. split; [done|]. simpl. rewrite lookup_insert_eq.
    split; [done|]. split; [|split].
    + apply insert_subseteq. by apply not_elem_of_dom.
    + by intros ? [= <-].
    + intros q' Hq'. rewrite dom_insert_L in Hq'. set_solver.
  - intros [= <-]. eexists _, _. split; [done|]. repeat split; try done.
    intros q Hq. by left.
Qed.

Lemma load_field_agree {A} (cells cells' : gmap nat A) (p : option nat) :
  (∀ q, p = Some q → cells' !! q = cells !! q) →
  load_field cells' p = load_field cells p.
Proof.
  unfold load_field. destruct p as [q|]; [|done]. intros H. by rewrite (H q).
Qed.

Lemma load_field_weaken {A} (cells cells' : gmap nat A) (p : option nat) v :
  load_field cells p = Some v → cells ⊆ cells' → load_field cells' p = Some v.
Proof.
  unfold load_field. destruct p as [q|]; [|done].
  destruct (cells !! q) as [x|] eqn:Hq; [|done]. intros [= <-] Hsub.
  by rewrite (lookup_weaken _ _ _ _ Hq Hsub).
Qed.

(** The reference that [SetOptions] stores stands for the same options as
    its argument, through cells that did not exist before the call: what
    the caller or anyone else writes afterwards to the cells of the
    argument, or to any cell that existed, does not reach the stored
    options. *)
Lemma copy_options_deep (r : OptionsRef) (h : Heap) (o : CreateInstanceOptions) :
  load h r = Some o →
  ∃ r' h1, copy_options r h = (r', h1) ∧
    load h1 r' = Some o ∧
    (∀ q, AutoRestart_ref r' = Some q → q ∉ dom (bools h)) ∧
    (∀ q, MaxRestarts_ref r' = Some q ∨ RestartDelay_ref r' = Some q →
          q ∉ dom (ints h)) ∧
    ∀ h', same_new_cells h h1 h' → load h' r' = Some o.
Proof.
  unfold load, copy_options. intros Hl.
  destruct (load_field (bools h) (AutoRestart_ref r)) as [a|] eqn:Ha; [|done].
  destruct (load_field (ints h) (MaxRestarts_ref r)) as [m|] eqn:Hm; [|done].
  destruct (load_field (ints h) (RestartDelay_ref r)) as [d|] eqn:Hd; [|done].
  simplify_eq.
  destruct (copy_field_spec _ _ _ Ha) as (a' & bs & -> & Ha' & Hbs & Hfa & _).
  destruct (copy_field_spec _ _ _ Hm) as (m' & is1 & -> & Hm' & His1 & Hfm & Hd1).
  pose proof (load_field_weaken _ _ _ _ Hd His1) as Hd'.
  destruct (copy_field_spec _ _ _ Hd') as (d' & is2 & -> & Hd'' & His2 & Hfd & _).
  eexists _, _. split; [done|]. simpl.
  rewrite Ha', (load_field_weaken _ _ _ _ Hm' His2), Hd''.
  split; [done|]. split; [done|].
  assert (∀ q, d' = Some q → q ∉ dom (ints h)) as Hfd'.
  { intros q Hq Hin. apply (Hfd q Hq).
    apply elem_of_dom. apply elem_of_dom in Hin as [x Hx].
    exists x. by eapply lookup_weaken. }
  split; [intros q [?|?]; eauto|].
  intros h' [Hb Hi].
  rewrite (load_field_agree bs (bools h') a'), Ha'
    by (intros q Hq; by apply Hb, Hfa).
  rewrite (load_field_agree is2 (ints h') m'),
    (load_field_weaken _ _ _ _ Hm' His2) by (intros q Hq; by apply Hi, Hfm).
  rewrite (load_field_agree is2 (ints h') d'), Hd''
    by (intros q Hq; by apply Hi, Hfd').
  done.
Qed.

(** C10. [SetOptions(nil)] changes nothing in the instance: the options and
    the cached proxy stay as they were, and the only effect is the
    warning in the server log. *)
Theorem SetOptions_nil_is_noop (s : St) :
  ∃ s', SetOptions None s = Done tt s' ∧
        inst s' = inst s ∧
        options (inst s') = options (inst s) ∧
        proxy (inst s') = proxy (inst s) ∧
        files s' = files s ∧ open_fds s' = open_fds s ∧
        cancelled s' = cancelled s ∧ parked s' = parked s ∧
        out s' = (out s ++ [Log (LogSetNilOptions (Name (inst s)))])%list.
Proof.
  eexists. split; [reflexivity|]. simpl. repeat split.
Qed.

Lemma NewInstance_options name gs (o : CreateInstanceOptions) :
  options (NewInstance name gs (Some o)).1 =
  Some {| AutoRestart := Some (default (DefaultAutoRestart gs) (AutoRestart o));
          MaxRestarts := Some (default (DefaultMaxRestarts gs)
                                 (clamp_max_restarts <$> MaxRestarts o));
          RestartDelay := Some (default (DefaultRestartDelay gs)
                                 (fix_restart_delay <$> RestartDelay o));
          embedded := embedded o |}.
Proof.
  unfold NewInstance, clamp_max_restarts, fix_restart_delay.
  destruct o as [[a|] [m|] [d|] l]; simpl;
    repeat match goal with
    | |- context [?a <? ?b] => destruct (Z.ltb_spec a b)
    end; simpl; repeat f_equal; lia.
Qed.

(** C3, as the code has it. [SetOptions] stores a copy of its argument with
    the restart fields as they are, without clamping, and drops the cached
    proxy; so the stored fields are in range when those of the argument
    are.  The copy is deep: its pointers are to new cells, which later
    writes to the cells of the argument do not reach.  The clamping is
    that of [NewInstance]: a supplied [max_restarts] is brought into
    [0,100], a supplied [restart_delay_seconds] below 1 becomes 5 and one
    above 300 becomes 300, and both end in range. *)
Theorem SetOptions_copies_NewInstance_clamps
    (s : St) (o : CreateInstanceOptions) (name : string) (gs : InstancesConfig) :
  (∃ s', SetOptions (Some o) s = Done tt s' ∧
         options (inst s') = Some o ∧ proxy (inst s') = None ∧
         restarts (inst s') = restarts (inst s) ∧
         Running (inst s') = Running (inst s) ∧
         (policy_in_range o →
          ∃ o', options (inst s') = Some o' ∧ policy_in_range o')) ∧
  (∀ h r, load h r = Some o →
     ∃ r' h1, copy_options r h = (r', h1) ∧ load h1 r' = Some o ∧
              ∀ h', same_new_cells h h1 h' → load h' r' = Some o) ∧
  (∃ o', options (NewInstance name gs (Some o)).1 = Some o' ∧
         embedded o' = embedded o ∧
         (∀ m, MaxRestarts o = Some m →
               MaxRestarts o' = Some (clamp_max_restarts m) ∧
               0 ≤ clamp_max_restarts m ≤ 100 ∧
               (0 ≤ m ≤ 100 → clamp_max_restarts m = m)) ∧
         (∀ d, RestartDelay o = Some d →
               RestartDelay o' = Some (fix_restart_delay d) ∧
               1 ≤ fix_restart_delay d ≤ 300 ∧
               (1 ≤ d ≤ 300 → fix_restart_delay d = d))).
Proof.
  split; [|split].
  - eexists. split; [apply SetOptions_Some|]. simpl.
    repeat split; auto. intros Hin. by exists o.
  - intros h r Hl.
    destruct (copy_options_deep r h o Hl) as (r' & h1 & Hc & Hl1 & _ & _ & Hdeep).
    by exists r', h1.
  - eexists. split; [apply NewInstance_options|]. simpl.
    split; [done|]. split.
    + intros m ->. simpl. unfold clamp_max_restarts. repeat split; lia.
    + intros d ->. simpl. unfold fix_restart_delay.
      destruct (Z.ltb_spec d 1); repeat split; lia.
Qed.

(** What [UnmarshalJSON] stores: of the restart fields it changes the
    negative ones only. *)
Lemma UnmarshalJSON_options
    (json_Unmarshal : string → error + Temp) (data : string) (s : St)
    (temp : Temp) (o : CreateInstanceOptions) :
  json_Unmarshal data = inr temp → temp_Options temp = Some o →
  ∃ s', UnmarshalJSON json_Unmarshal data s = Done None s' ∧
        Name (inst s') = temp_Name temp ∧
        Running (inst s') = temp_Running temp ∧
        options (inst s') =
          Some {| AutoRestart := AutoRestart o;
                  MaxRestarts := Z.max 0 <$> MaxRestarts o;
                  RestartDelay := (λ d, if d <? 0 then 5 else d) <$> RestartDelay o;
                  embedded := embedded o |}.
Proof.
  intros Hj Ho. unfold UnmarshalJSON. prim. rewrite Hj, Ho.
  destruct o as [a [m|] [d|] l]; simpl;
    repeat match goal with
    | |- context [?a <? ?b] => destruct (Z.ltb_spec a b)
    end; simpl; eexists; (split; [reflexivity|]); simpl;
    repeat split; repeat f_equal; lia.
Qed.

(** ** Start *)

(** What [Start] leaves alone, whatever it returns. *)
Lemma Start_frame (e : StartEnv) (s s' : St) r :
  Start e s = Done r s' →
  options (inst s') = options (inst s) ∧
  restarts (inst s') = restarts (inst s) ∧
  restartCancel (inst s') = restartCancel (inst s) ∧
  globalSettings (inst s') = globalSettings (inst s) ∧
  Name (inst s') = Name (inst s) ∧
  proxy (inst s') = proxy (inst s) ∧
  parked s' = parked s ∧ starting s' = starting s ∧
  clearing s' = clearing s ∧ cancelled s' = cancelled s.
Proof.
  unfold Start, createLogFile, closeLogFile, cmd_Start. prim.
  intros H. cases.
Qed.


(** [Start] starts at most one child, and none when it returns an error;
    it marks the instance running exactly when it succeeds. *)
Lemma Start_spawns (e : StartEnv) (s s' : St) r :
  Start e s = Done r s' →
  match r with
  | None => spawns s' = S (spawns s) ∧ Running (inst s') = true
  | Some _ => spawns s' = spawns s ∧ Running (inst s') = Running (inst s)
  end.
Proof.
  unfold Start, createLogFile, closeLogFile, cmd_Start, spawns. prim.
  intros H. cases; rewrite ?List.filter_app, ?length_app; simpl; try lia; auto with lia.
Qed.

(** [Start] does not panic on an instance that has its configuration, and
    keeps it well formed. *)
Lemma Start_wf (e : StartEnv) (s : St) :
  wf (inst s) → ∃ r s', Start e s = Done r s' ∧ wf (inst s').
Proof.
  intros [[g Hg] Hrun].
  destruct (Start e s) as [r s'|] eqn:HS; revert HS;
    unfold Start, createLogFile, closeLogFile, cmd_Start, wf; prim; intros HS.
  - exists r, s'. split; [done|].
    cases; (split; [by eexists|]); try done;
      intros HR'; first [by auto | congruence | split; by eexists].
  - cases.
Qed.

(** C2, as the code has it. [Start] leaves [restarts] as it was, whether it
    succeeds or fails: no operator [Start] resets the counter, which
    counts the automatic restarts since the instance was made. *)
Theorem Start_keeps_restarts (e : StartEnv) (s s' : St) (r : option error) :
  Start e s = Done r s' → restarts (inst s') = restarts (inst s).
Proof. intros H. by destruct (Start_frame _ _ _ _ H) as (_ & ? & _). Qed.

(** C5, on the code. When [cmd.Start()] fails, [Start] returns the error
    wrapped, the instance is not running and no restart is scheduled, the
    pipes are closed (by [os/exec]), but the log file stays open and
    [logFile] still holds it: [closeLogFile] is not called on this path,
    and the log has no stopped marker. *)
Theorem Start_spawn_failure_keeps_log_open
    (e : StartEnv) (s : St) (o : CreateInstanceOptions) (g : InstancesConfig)
    (err : error) :
  Running (inst s) = false →
  options (inst s) = Some o →
  globalSettings (inst s) = Some g →
  open_err e = None → stdout_err e = None → stderr_err e = None →
  spawn_err e = Some err →
  ∃ s' f,
    Start e s = Done (Some (EStartInstance (Name (inst s)) err)) s' ∧
    unwrap (EStartInstance (Name (inst s)) err) = Some err ∧
    Running (inst s') = false ∧
    restarts (inst s') = restarts (inst s) ∧ parked s' = parked s ∧
    starting s' = starting s ∧ spawns s' = spawns s ∧
    (∀ p, stdout (inst s') = Some p ∨ stderr (inst s') = Some p → p ∉ open_fds s') ∧
    logFile (inst s') = Some f ∧ fd f ∈ open_fds s' ∧
    file_name f = LogDirectory g +:+ "/" +:+ Name (inst s) +:+ ".log" ∧
    files s' !! file_name f =
      Some (default "" (files s !! file_name f)
            +:+ started_marker (Name (inst s)) (start_now e)).
Proof.
  intros HR Ho Hg H1 H2 H3 H4.
  destruct (Start e s) as [r s'|] eqn:HS; revert HS;
    unfold Start, createLogFile, cmd_Start, spawns; prim; intros HS; cases.
  all: try by (exfalso; match goal with Hn : _ ∉ _ |- _ => apply Hn; set_solver end).
  eexists _, _. split; [reflexivity|]. simpl.
  repeat split; auto.
  - intros p [Hp|Hp]; simplify_eq; set_solver.
  - set_solver by lia.
  - rewrite lookup_insert_eq. by rewrite lookup_insert_eq.
Qed.

(** The other two failures after the log file is open do close it. *)
Lemma Start_pipe_failure_closes_log
    (e : StartEnv) (s s' : St) (o : CreateInstanceOptions) (g : InstancesConfig) r :
  Running (inst s) = false →
  options (inst s) = Some o →
  globalSettings (inst s) = Some g →
  open_err e = None →
  is_Some (stdout_err e) ∨ is_Some (stderr_err e) →
  Start e s = Done r s' →
  is_Some r ∧ logFile (inst s') = None ∧ (next_id s ∉ open_fds s') ∧
  Running (inst s') = false.
Proof.
  intros HR Ho Hg H1 H2.
  unfold Start, createLogFile, closeLogFile, cmd_Start. prim.
  rewrite HR, Ho, Hg, H1. simpl.
  destruct H2 as [[x Hx]|[x Hx]]; intros H; cases;
    (split; [by eexists|]); (split; [done|]); (split; [|done]); set_solver by lia.
Qed.


(** ** Stop *)

(** What [Stop] leaves alone, whatever it returns. *)
Lemma Stop_frame (e : StopEnv) (s s' : St) r :
  Stop e s = Done r s' →
  options (inst s') = options (inst s) ∧
  restarts (inst s') = restarts (inst s) ∧
  globalSettings (inst s') = globalSettings (inst s) ∧
  Name (inst s') = Name (inst s) ∧
  cancel (inst s') = cancel (inst s) ∧ cmd (inst s') = cmd (inst s) ∧
  Running (inst s') = false ∧ restartCancel (inst s') = None ∧
  parked s' = parked s ∧ starting s' = starting s ∧
  clearing s' = clearing s ∧ spawns s' = spawns s ∧
  cancelled s ⊆ cancelled s' ∧
  (∀ c, restartCancel (inst s) = Some c → c ∈ cancelled s') ∧
  (r = None ↔ Running (inst s) = true).
Proof.
  unfold Stop, cmd_Wait, closeLogFile, spawns. prim.
  destruct (Running (inst s)) eqn:HR; simpl; intros H; cases;
    rewrite ?List.filter_app, ?length_app; simpl;
    repeat split; try done; try lia; try set_solver.
Qed.

(** [Stop] does not panic on a well-formed instance. *)
Lemma Stop_wf (e : StopEnv) (s : St) :
  wf (inst s) → ∃ r s', Stop e s = Done r s' ∧ wf (inst s').
Proof.
  intros [[g Hg] Hrun].
  destruct (Stop e s) as [r s'|] eqn:HS.
  - exists r, s'. split; [done|].
    destruct (Stop_frame _ _ _ _ HS) as (_ & _ & Hgs & _ & _ & _ & HR & _).
    split; [rewrite Hgs; by eexists|]. rewrite HR. done.
  - revert HS. unfold Stop, cmd_Wait, closeLogFile. prim. intros HS.
    destruct (Running (inst s)) eqn:HR; simpl in HS; [|cases].
    destruct Hrun as [[c Hc] [k Hk]]; [done|]. rewrite Hc, Hk in HS. cases.
Qed.



(** ** The monitor *)

Lemma int_wrap_id (z : Z) : is_int z → int_wrap z = z.
Proof.
  unfold is_int, int_wrap, min_int, max_int. intros H.
  rewrite Z.mod_small; lia.
Qed.

(** The monitor that finds the instance already stopped does nothing. *)
Lemma monitorProcess_stopped (err : option error) (ts : string) (s : St) :
  Running (inst s) = false → monitorProcess err ts s = Done tt s.
Proof. intros HR. unfold monitorProcess. prim. by rewrite HR. Qed.

(** What the monitor leaves alone, and the two ways it changes the
    counter: not at all, or by one under the guard of
    [validateRestartConditions]. *)
Lemma monitorProcess_frame (err : option error) (ts : string) (s s' : St) :
  monitorProcess err ts s = Done tt s' →
  options (inst s') = options (inst s) ∧
  globalSettings (inst s') = globalSettings (inst s) ∧
  Name (inst s') = Name (inst s) ∧
  cancel (inst s') = cancel (inst s) ∧ cmd (inst s') = cmd (inst s) ∧
  Running (inst s') = false ∧
  starting s' = starting s ∧ clearing s' = clearing s ∧
  spawns s' = spawns s ∧
  ((restarts (inst s') = restarts (inst s) ∧ parked s' = parked s) ∨
   (∃ m, restart_bound (inst s) = Some m ∧ restarts (inst s) < m ∧
         restarts (inst s') = int_wrap (restarts (inst s) + 1))).
Proof.
  unfold monitorProcess, handleRestart, validateRestartConditions, closeLogFile,
    spawns, restart_bound. prim.
  destruct (Running (inst s)) eqn:HR; simpl; intros H; cases;
    rewrite ?List.filter_app, ?length_app; simpl;
    repeat split; try done; try lia; auto;
    right; eexists; (split; [done|]); (split; [lia|done]).
Qed.

Lemma monitorProcess_total (err : option error) (ts : string) (s : St) :
  ∃ s', monitorProcess err ts s = Done tt s'.
Proof.
  destruct (monitorProcess err ts s) as [[] s'|] eqn:HS; [by eexists|].
  revert HS.
  unfold monitorProcess, handleRestart, validateRestartConditions, closeLogFile.
  prim. intros H. cases.
Qed.






(** ** The steps of the transition system *)

(** Every step runs, without panic, on a well-formed instance. *)
Lemma exec_wf (op : Op) (s : St) :
  wf (inst s) → ∃ s', exec op s = Done tt s' ∧ wf (inst s').
Proof.
  intros Hwf. destruct op as [e|e|err ts|f line|p|c|c|e|]; simpl.
  - destruct (Start_wf e s Hwf) as (r & s' & HS & Hwf').
    exists s'. unfold bind, ret. by rewrite HS.
  - destruct (Stop_wf e s Hwf) as (r & s' & HS & Hwf').
    exists s'. unfold bind, ret. by rewrite HS.
  - destruct (monitorProcess_total err ts s) as [s' HS].
    exists s'. split; [done|].
    destruct (monitorProcess_frame _ _ _ _ HS) as (_ & Hg & _ & _ & _ & HR & _).
    destruct Hwf as [Hgs _]. split; [by rewrite Hg|by rewrite HR].
  - unfold readOutput_line. prim. cases; by eexists.
  - by eexists.
  - unfold select_timer. cases; by eexists.
  - unfold select_done. prim. cases; by eexists.
  - unfold restart_Start. prim. destruct (starting s) as [|n]; [by eexists|].
    destruct (Start_wf e (with_starting n s) Hwf) as (r & s' & HS & Hwf').
    rewrite HS. destruct r; by eexists.
  - unfold restart_clear. prim. destruct (clearing s); by eexists.
Qed.

(** What a step does to the restart machinery: either the counter stays,
    no goroutine goes to sleep and, unless the operator starts the
    instance, every child started was a restart on its way; or the
    counter was under the cap and goes up by one. *)
Lemma exec_step (op : Op) (s s' : St) :
  exec op s = Done tt s' →
  options (inst s') = options (inst s) ∧
  globalSettings (inst s') = globalSettings (inst s) ∧
  ((restarts (inst s') = restarts (inst s) ∧ parked s' ⊆ parked s ∧
    (operator_Start op = false →
     (spawns s' + in_flight s' ≤ spawns s + in_flight s)%nat)) ∨
   (under_cap (inst s) ∧
    restarts (inst s') = int_wrap (restarts (inst s) + 1))).
Proof.
  destruct op as [e|e|err ts|f line|p|c|c|e|]; simpl.
  - unfold bind, ret. destruct (Start e s) as [r s1|] eqn:HS; [|done].
    intros [= <-]. destruct (Start_frame _ _ _ _ HS) as (? & ? & _ & ? & _ & _ & Hp & _).
    repeat split; try done. left. rewrite Hp. done.
  - unfold bind, ret. destruct (Stop e s) as [r s1|] eqn:HS; [|done].
    intros [= <-].
    destruct (Stop_frame _ _ _ _ HS)
      as (? & ? & ? & _ & _ & _ & _ & _ & Hp & Hst & _ & Hsp & _).
    repeat split; try done. left. unfold in_flight. rewrite Hp, Hst, Hsp. done.
  - intros HS.
    destruct (monitorProcess_frame _ _ _ _ HS)
      as (? & ? & _ & _ & _ & _ & Hst & _ & Hsp & [[Hr Hp]|(m & ? & ? & ?)]).
    + repeat split; try done. left. unfold in_flight. rewrite Hp, Hst, Hsp. done.
    + repeat split; try done. right. split; [by exists m|done].
  - unfold readOutput_line, in_flight, spawns. prim. intros H.
    cases; repeat split; try done; left; done.
  - intros [= <-]. repeat split; try done. left. done.
  - unfold select_timer, in_flight, spawns. intros H.
    cases; repeat split; try done; left; repeat split; try done.
    + apply delete_subseteq.
    + intros _. rewrite map_size_delete_Some by by eexists.
      assert (size (parked s) ≠ 0%nat) by (eapply map_size_ne_0_lookup_2; by eexists).
      lia.
  - unfold select_done, in_flight, spawns. prim. intros H.
    cases; repeat split; try done; left; repeat split; try done.
    + apply delete_subseteq.
    + intros _. rewrite List.filter_app, length_app. simpl.
      rewrite map_size_delete_Some by by eexists. lia.
  - unfold restart_Start. prim. destruct (starting s) as [|n] eqn:Hn; simpl.
    { intros [= <-]. repeat split; try done. left. done. }
    destruct (Start e (with_starting n s)) as [r s1|] eqn:HS; [|done].
    destruct (Start_frame _ _ _ _ HS)
      as (Ho & Hr & _ & Hg & _ & _ & Hp & Hst & _).
    pose proof (Start_spawns _ _ _ _ HS) as Hsp.
    unfold in_flight, spawns in *. simpl in *.
    destruct r; destruct Hsp as [Hsp _]; intros [= <-]; simpl;
      repeat split; try done; left;
      rewrite ?List.filter_app, ?length_app; simpl; rewrite Hp, Hn, Hst;
      (repeat split; [done..|]); intros _; lia.
  - unfold restart_clear, in_flight, spawns. prim. intros H.
    cases; repeat split; try done; left; done.
Qed.


Lemma restart_bound_eq (i i' : Instance) :
  options i' = options i → restart_bound i' = restart_bound i.
Proof. unfold restart_bound. by intros ->. Qed.

(** One step keeps the counter a Go [int] under the bound. *)
Lemma exec_bounded (op : Op) (s s' : St) :
  exec op s = Done tt s' →
  ints_ok (inst s) → bounded (inst s) →
  restart_bound (inst s') = restart_bound (inst s) ∧
  ints_ok (inst s') ∧ bounded (inst s') ∧
  restarts (inst s) ≤ restarts (inst s').
Proof.
  intros HS [Hr Hm] Hb.
  destruct (exec_step _ _ _ HS) as (Ho & _ & [(Hr' & _)|[(m & Hbm & Hlt) Hr']]).
  - pose proof (restart_bound_eq _ _ Ho) as Hrb.
    unfold ints_ok, bounded. rewrite Hrb, Hr'.
    split; [done|]. split; [by split|]. split; [done|lia].
  - pose proof (restart_bound_eq _ _ Ho) as Hrb.
    pose proof (Hm m Hbm) as Him.
    rewrite int_wrap_id in Hr' by (unfold is_int in *; lia).
    unfold ints_ok, bounded. rewrite Hrb, Hr'.
    split; [done|]. split; [split; [unfold is_int in *; lia|done]|].
    split; [|lia]. intros m' Hm'. simplify_eq. lia.
Qed.

(** An instance made by [NewInstance] is well formed, stopped, with its
    counter at zero; it is within its bound when the caller supplies
    [max_restarts], which is then clamped, or when the default of the
    configuration is a non-negative [int]. *)
Lemma NewInstance_ready (name : string) (gs : InstancesConfig)
    (opts : option CreateInstanceOptions) :
  0 ≤ DefaultMaxRestarts gs ≤ max_int ∨
    (∃ o m, opts = Some o ∧ MaxRestarts o = Some m) →
  let i := (NewInstance name gs opts).1 in
  wf i ∧ ints_ok i ∧ bounded i ∧ restarts i = 0 ∧ Running i = false ∧
  ∃ m, restart_bound i = Some m ∧ 0 ≤ m.
Proof.
  intros Hdef i.
  assert (∃ m, restart_bound i = Some m ∧ 0 ≤ m ∧ is_int m) as (m & Hm & Hm0 & Hmi).
  { subst i. unfold restart_bound. destruct opts as [o|].
    - rewrite NewInstance_options. simpl. eexists. split; [done|].
      destruct (MaxRestarts o) as [x|] eqn:Hx; simpl.
      + unfold clamp_max_restarts, is_int, min_int, max_int. lia.
      + destruct Hdef as [?|(o' & m' & ? & ?)]; [|by simplify_eq].
        unfold is_int, min_int, max_int in *. lia.
    - simpl. eexists. split; [done|].
      destruct Hdef as [?|(o' & m' & ? & ?)]; [|done].
      unfold is_int, min_int, max_int in *. lia. }
  assert (restarts i = 0) as Hr by (subst i; unfold NewInstance; by cases).
  assert (Running i = false) as HR by (subst i; unfold NewInstance; by cases).
  assert (is_Some (globalSettings i)) as Hg
    by (subst i; unfold NewInstance; cases; by eexists).
  split; [split; [done|by rewrite HR]|].
  split; [split; [rewrite Hr; unfold is_int, min_int, max_int; lia
                 |intros m' Hm'; by simplify_eq]|].
  split; [intros m' Hm'; simplify_eq; lia|].
  split; [done|]. split; [done|]. by exists m.
Qed.

(** C1. Along every sequence of steps from a well-formed instance whose
    counter is within its bound: the steps run, [max_restarts] stays what
    it was and [restarts] never exceeds it (nor ever goes down).  Once
    [restarts] has reached [max_restarts], the counter stays there, no
    step puts a restart goroutine to sleep, and as long as the operator
    does not call [Start] the only children started are the restarts that
    were already on their way.  An instance that [NewInstance] made is
    such an instance when [max_restarts] was supplied to it or the
    default of the configuration is a non-negative [int]. *)
Theorem restarts_never_exceed_max (ops : list Op) :
  (∀ s, wf (inst s) → ints_ok (inst s) → bounded (inst s) →
   ∃ s', run ops s = Done tt s' ∧
     wf (inst s') ∧ ints_ok (inst s') ∧
     restart_bound (inst s') = restart_bound (inst s) ∧
     bounded (inst s') ∧
     restarts (inst s) ≤ restarts (inst s') ∧
     (∀ m, restart_bound (inst s) = Some m → m ≤ restarts (inst s) →
        restarts (inst s') = restarts (inst s) ∧
        parked s' ⊆ parked s ∧
        (forallb (λ op, negb (operator_Start op)) ops = true →
         (spawns s' + in_flight s' ≤ spawns s + in_flight s)%nat))) ∧
  (∀ name gs opts,
     0 ≤ DefaultMaxRestarts gs ≤ max_int ∨
       (∃ o m, opts = Some o ∧ MaxRestarts o = Some m) →
     ∃ s' m, run ops (init (NewInstance name gs opts).1) = Done tt s' ∧
             restart_bound (inst s') = Some m ∧
             0 ≤ restarts (inst s') ≤ m).
Proof.
  assert (∀ s, wf (inst s) → ints_ok (inst s) → bounded (inst s) →
   ∃ s', run ops s = Done tt s' ∧
     wf (inst s') ∧ ints_ok (inst s') ∧
     restart_bound (inst s') = restart_bound (inst s) ∧
     bounded (inst s') ∧
     restarts (inst s) ≤ restarts (inst s') ∧
     (∀ m, restart_bound (inst s) = Some m → m ≤ restarts (inst s) →
        restarts (inst s') = restarts (inst s) ∧
        parked s' ⊆ parked s ∧
        (forallb (λ op, negb (operator_Start op)) ops = true →
         (spawns s' + in_flight s' ≤ spawns s + in_flight s)%nat))) as Hgen.
  { induction ops as [|op ops IH]; intros s Hwf Hi Hb.
    - exists s. simpl. unfold ret.
      do 6 (split; [done || lia|]). intros m _ _. by repeat split.
    - destruct (exec_wf op s Hwf) as (s1 & HS & Hwf1).
      destruct (exec_bounded _ _ _ HS Hi Hb) as (Hrb1 & Hi1 & Hb1 & Hle1).
      destruct (IH s1 Hwf1 Hi1 Hb1)
        as (s' & HR & Hwf' & Hi' & Hrb' & Hb' & Hle' & Hcap).
      exists s'. simpl. unfold bind. rewrite HS.
      split; [done|]. split; [done|]. split; [done|].
      split; [congruence|]. split; [done|]. split; [lia|].
      intros m Hm Hge.
      destruct (exec_step _ _ _ HS)
        as (_ & _ & [(Hr1 & Hp1 & Hpot1)|[(m' & Hm' & Hlt) _]]);
        [|simplify_eq; lia].
      destruct (Hcap m) as (Hr' & Hp' & Hpot'); [congruence|lia|].
      split; [congruence|]. split; [by etrans|].
      intros [Hop Hops]%andb_prop. apply negb_true_iff in Hop.
      specialize (Hpot1 Hop). specialize (Hpot' Hops). lia. }
  split; [exact Hgen|].
  intros name gs opts Hdef.
  destruct (NewInstance_ready name gs opts Hdef)
    as (Hwf & Hi & Hb & Hr0 & _ & m & Hm & Hm0).
  destruct (Hgen (init (NewInstance name gs opts).1) Hwf Hi Hb)
    as (s' & HR & _ & _ & Hrb & Hb' & Hle & _).
  exists s', m. split; [done|]. simpl in *.
  split; [congruence|]. split; [lia|]. apply Hb'. congruence.
Qed.

(** ** Stop and the pending restart *)

(** On a quiet instance, the steps that are not the operator's start no
    child and leave the instance quiet. *)
Lemma exec_quiet (op : Op) (s : St) :
  quiet s → operator_op op = false →
  ∃ s', exec op s = Done tt s' ∧ quiet s' ∧
        spawns s' = spawns s ∧ restarts (inst s') = restarts (inst s).
Proof.
  intros (HR & Hst & Hp) Hop.
  destruct op as [e|e|err ts|f line|p|c|c|e|]; simpl in *; try done.
  - exists s. by rewrite monitorProcess_stopped.
  - unfold readOutput_line, quiet, spawns. prim. cases; by eexists.
  - by eexists.
  - unfold select_timer, quiet, spawns. cases; try by eexists.
    exfalso. match goal with Hn : _ ∉ _ |- _ => apply Hn end.
    apply Hp. by eexists.
  - unfold select_done, quiet, spawns. prim. cases; try by eexists.
    eexists. split; [done|]. simpl. rewrite List.filter_app, length_app. simpl.
    repeat split; try done; try lia.
    intros c' [x Hx]. apply Hp. exists x.
    by eapply lookup_weaken; [|apply delete_subseteq].
  - unfold restart_Start. prim. rewrite Hst. by eexists.
  - unfold restart_clear, quiet, spawns. prim. cases; by eexists.
Qed.

Lemma run_quiet (ops : list Op) (s : St) :
  quiet s → forallb (λ op, negb (operator_op op)) ops = true →
  ∃ s', run ops s = Done tt s' ∧ quiet s' ∧
        spawns s' = spawns s ∧ restarts (inst s') = restarts (inst s).
Proof.
  revert s. induction ops as [|op ops IH]; intros s Hq Hops; simpl in *.
  - by exists s.
  - apply andb_prop in Hops as [Hop Hops]. apply negb_true_iff in Hop.
    destruct (exec_quiet op s Hq Hop) as (s1 & HS & Hq1 & Hsp1 & Hr1).
    destruct (IH s1 Hq1 Hops) as (s' & HR & Hq' & Hsp' & Hr').
    exists s'. unfold bind. rewrite HS.
    split; [done|]. split; [done|]. split; congruence.
Qed.

(** What does hold after a [Stop].  Whatever it returns, it leaves
    [restarts] as it was, also when it cancels a pending restart, and the
    instance stopped with no cancel handle; it returns nil exactly when
    the instance was running.  Right after it, the monitor that sees the
    child exit finds [Running] false and does nothing; if a restart was
    pending, its context is cancelled, so its timer cannot wake the
    goroutine any more, and the goroutine returns through the cancelled
    branch without calling [Start].  When no restart goroutine had left
    its [select] already, and those asleep are cancelled or the pending
    one, no step other than the operator's starts a child afterwards;
    once the operator starts the instance again, this is lost. *)
Lemma Stop_then_quiet (s s' : St) (e : StopEnv) (r : option error) :
  Stop e s = Done r s' →
  restarts (inst s') = restarts (inst s) ∧
  Running (inst s') = false ∧ restartCancel (inst s') = None ∧
  (r = None ↔ Running (inst s) = true) ∧
  (∀ err ts, monitorProcess err ts s' = Done tt s') ∧
  (∀ c, restartCancel (inst s) = Some c →
     c ∈ cancelled s' ∧ select_timer c s' = Done tt s' ∧
     ∃ s'', select_done c s' = Done tt s'' ∧ inst s'' = inst s' ∧
            spawns s'' = spawns s' ∧ starting s'' = starting s' ∧
            parked s'' = delete c (parked s')) ∧
  (starting s = 0%nat →
   (∀ c, is_Some (parked s !! c) →
         c ∈ cancelled s ∨ restartCancel (inst s) = Some c) →
   ∀ ops, forallb (λ op, negb (operator_op op)) ops = true →
     ∃ s'', run ops s' = Done tt s'' ∧ spawns s'' = spawns s' ∧
            restarts (inst s'') = restarts (inst s) ∧
            Running (inst s'') = false).
Proof.
  intros HS.
  destruct (Stop_frame _ _ _ _ HS)
    as (_ & Hr & _ & _ & _ & _ & HR & Hrc & Hp & Hst & _ & _ & Hsub & Hc & Hiff).
  split; [done|]. split; [done|]. split; [done|]. split; [done|].
  split; [intros; by apply monitorProcess_stopped|]. split.
  - intros c Hcs. specialize (Hc c Hcs). split; [done|]. split.
    + unfold select_timer. destruct (parked s' !! c); [|done].
      by rewrite decide_True.
    + unfold select_done, spawns. prim.
      destruct (parked s' !! c) eqn:Hpc.
      * rewrite decide_True by done. eexists. split; [done|]. simpl.
        rewrite List.filter_app, length_app. simpl. repeat split; lia.
      * eexists. split; [done|]. repeat split. by rewrite delete_id.
  - intros Hst0 Hpk ops Hops.
    assert (quiet s') as Hq.
    { split; [done|]. split; [congruence|].
      intros c Hpc. rewrite Hp in Hpc.
      destruct (Hpk c Hpc) as [?|?]; [set_solver|by apply Hc]. }
    destruct (run_quiet ops s' Hq Hops) as (s'' & HRun & (HR'' & _) & Hsp & Hr'').
    exists s''. repeat split; try done. congruence.
Qed.

(** ** The reverse proxy *)

(** C8. [GetProxy] returns the cached proxy when there is one; without one
    it fails when the options are nil, and otherwise builds, stores and
    returns the proxy of the URL [http://Host:Port] of the options, so
    that the next call returns the same proxy.  [SetOptions] drops the
    cached proxy, and the [GetProxy] that follows is bound to the host and
    port of the new options. *)
Theorem GetProxy_binds_to_options (s : St) :
  (∀ p, proxy (inst s) = Some p → GetProxy s = Done (Some p, None) s) ∧
  (proxy (inst s) = None → options (inst s) = None →
   GetProxy s = Done (None, Some (ENoOptions (Name (inst s)))) s) ∧
  (∀ o u, proxy (inst s) = None → options (inst s) = Some o →
     target_of o = "http://" +:+ Host (embedded o) +:+ ":" +:+ fmt_d (Port (embedded o)) ∧
     (url_Parse (target_of o) = Some u →
      ∃ s', GetProxy s = Done (Some {| target := u |}, None) s' ∧
            s' = with_inst (with_proxy (Some {| target := u |}) (inst s)) s ∧
            GetProxy s' = Done (Some {| target := u |}, None) s')) ∧
  (∀ o' u', url_Parse (target_of o') = Some u' →
     ∃ s1 s2, SetOptions (Some o') s = Done tt s1 ∧ proxy (inst s1) = None ∧
              GetProxy s1 = Done (Some {| target := u' |}, None) s2 ∧
              options (inst s2) = Some o' ∧
              proxy (inst s2) = Some {| target := u' |} ∧
              GetProxy s2 = Done (Some {| target := u' |}, None) s2).
Proof.
  split; [|split; [|split]].
  - intros p Hp. unfold GetProxy. prim. by rewrite Hp.
  - intros Hp Ho. unfold GetProxy. prim. by rewrite Hp, Ho.
  - intros o u Hp Ho. split; [done|]. intros Hu.
    eexists. split; [|split; [reflexivity|]].
    + unfold GetProxy. prim. by rewrite Hp, Ho, Hu.
    + unfold GetProxy. prim. done.
  - intros o' u' Hu. eexists _, _. split; [apply SetOptions_Some|].
    split; [done|]. split; [|split; [|split]].
    + unfold GetProxy. prim. simpl. rewrite Hu. reflexivity.
    + done.
    + done.
    + unfold GetProxy. prim. done.
Qed.

(** ** Reading the log *)

(** The pieces of a content, joined by newlines, are the content. *)
Lemma concat_segments (s : string) : String.concat nl (segments s) = s.
Proof.
  induction s as [|c s IH]; [done|]. simpl.
  destruct (segments s) as [|seg rest] eqn:Hs; [by destruct s; simpl in Hs; cases|].
  destruct (Ascii.eqb_spec c "010"%char) as [->|Hc].
  - change (String.concat nl ("" :: seg :: rest)) with (nl +:+ String.concat nl (seg :: rest)).
    by rewrite IH.
  - destruct rest as [|seg' rest]; simpl in *; by rewrite <- IH.
Qed.

Lemma segments_length (s : string) :
  (1 ≤ length (segments s) ≤ S (String.length s))%nat.
Proof.
  induction s as [|c s IH]; simpl; [lia|].
  destruct (segments s) as [|seg rest]; simpl in *; [lia|].
  destruct (Ascii.eqb c "010"); simpl; lia.
Qed.

Lemma scan_lines_length (s : string) :
  (length (scan_lines s) ≤ S (String.length s))%nat.
Proof.
  unfold scan_lines. rewrite length_map.
  pose proof (segments_length s).
  destruct (String.eqb _ _); [|lia].
  rewrite removelast_firstn_len, length_firstn. lia.
Qed.

Lemma last_n_length {A} (n : Z) (l : list A) :
  length (last_n n l) = Nat.min (Z.to_nat n) (length l).
Proof. unfold last_n. rewrite length_drop. lia. Qed.

Lemma last_n_suffix {A} (n : Z) (l : list A) : last_n n l `suffix_of` l.
Proof. apply suffix_drop. Qed.

Lemma last_n_all {A} (n : Z) (l : list A) :
  Z.of_nat (length l) ≤ n → last_n n l = l.
Proof.
  intros H. unfold last_n.
  replace (length l - Z.to_nat n)%nat with 0%nat by lia. done.
Qed.

Lemma append_empty_r (s : string) : s +:+ "" = s.
Proof.
  induction s as [|c s IH]; [done|].
  change (String c (s +:+ "") = String c s). by rewrite IH.
Qed.

Lemma append_assoc (a b c : string) : (a +:+ b) +:+ c = a +:+ b +:+ c.
Proof.
  induction a as [|x a IH]; [done|].
  change (String x ((a +:+ b) +:+ c) = String x (a +:+ b +:+ c)). by rewrite IH.
Qed.

Lemma concat_snoc_empty (l : list string) :
  l ≠ [] → String.concat nl (l ++ [""]) = String.concat nl l +:+ nl.
Proof.
  induction l as [|x l IH]; [done|]. intros _.
  destruct l as [|y l].
  - simpl. by rewrite append_empty_r.
  - change (String.concat nl ((x :: y :: l) ++ [""]))
      with (x +:+ nl +:+ String.concat nl ((y :: l) ++ [""])).
    rewrite IH by done.
    change (String.concat nl (x :: y :: l))
      with (x +:+ nl +:+ String.concat nl (y :: l)).
    by rewrite !append_assoc.
Qed.

Lemma map_dropCR_id (l : list string) :
  Forall (λ seg, dropCR seg = seg) l → map dropCR l = l.
Proof. induction 1 as [|x l Hx _ IH]; simpl; congruence. Qed.

(** When no line ends with a carriage return, the lines of the scanner
    joined by newlines are the content, up to its last newline. *)
Lemma scan_lines_join (content : string) :
  Forall (λ seg, dropCR seg = seg) (segments content) →
  content = String.concat nl (scan_lines content) ∨
  content = String.concat nl (scan_lines content) +:+ nl.
Proof.
  intros Hcr. unfold scan_lines.
  pose proof (concat_segments content) as Hjoin.
  pose proof (segments_length content) as Hlen.
  destruct (String.eqb_spec (List.last (segments content) "") "") as [Hlast|_].
  - assert (segments content ≠ []) as Hne by (intros E; rewrite E in Hlen; simpl in Hlen; lia).
    pose proof (app_removelast_last "" Hne) as Hsplit. rewrite Hlast in Hsplit.
    assert (Forall (λ seg, dropCR seg = seg) (removelast (segments content))) as Hcr'.
    { rewrite Hsplit in Hcr. by apply Forall_app in Hcr as [? _]. }
    rewrite map_dropCR_id by done.
    destruct (removelast (segments content)) as [|x l] eqn:Hrl.
    + left. rewrite <- Hjoin, Hsplit. done.
    + right. rewrite <- Hjoin at 1. rewrite Hsplit. by apply concat_snoc_empty.
  - left. by rewrite map_dropCR_id.
Qed.

End Proofs.

(** ** Options out of range *)

(** C3 fails as stated: [SetOptions] with [max_restarts = 500] and
    [restart_delay_seconds = 0] stores 500 and 0. *)
Lemma SetOptions_stores_out_of_range :
  ∃ s' o', SetOptions (Some wild_options) demo_init = Done tt s' ∧
           options (inst s') = Some o' ∧
           MaxRestarts o' = Some 500 ∧ RestartDelay o' = Some 0 ∧
           ¬ policy_in_range o'.
Proof.
  eexists _, _. split; [apply SetOptions_Some|].
  split; [reflexivity|]. split; [reflexivity|]. split; [reflexivity|].
  intros [Hm _]. specialize (Hm 500 eq_refl). lia.
Qed.

(** [UnmarshalJSON] keeps [max_restarts = 500] and
    [restart_delay_seconds = 0] as they are. *)
Example UnmarshalJSON_keeps_out_of_range :
  ∃ s' o', UnmarshalJSON decode_wild "{}" demo_init = Done None s' ∧
           options (inst s') = Some o' ∧
           MaxRestarts o' = Some 500 ∧ RestartDelay o' = Some 0.
Proof. eexists _, _. split; [vm_compute; reflexivity|]. by vm_compute. Qed.

(** ** The scanner on small contents *)

Example scan_lines_plain :
  scan_lines ("a" +:+ nl +:+ "b" +:+ nl) = ["a"; "b"].
Proof. reflexivity. Qed.

Example scan_lines_no_final_newline :
  scan_lines ("a" +:+ nl +:+ nl +:+ "b") = ["a"; ""; "b"].
Proof. reflexivity. Qed.

Example scan_lines_carriage_return :
  scan_lines ("a" +:+ String cr nl +:+ "b" +:+ String cr "") = ["a"; "b"].
Proof. reflexivity. Qed.

Example scan_lines_empty : scan_lines "" = [] ∧ scan_lines nl = [""].
Proof. split; reflexivity. Qed.

(** ** The scenarios of the design, run on the demo instance *)

(** S3: three crashes in a row with [max_restarts = 2] give two automatic
    restarts; then the instance stays stopped with [restarts = 2] and one
    line about the exceeded maximum in the log. *)
Example scenario_crash_three_times :
  ∃ s', run crash_three_times demo_init = Done tt s' ∧
        restarts (inst s') = 2 ∧ Running (inst s') = false ∧
        spawns s' = 3%nat ∧ in_flight s' = 0%nat ∧
        restartCancel (inst s') = None ∧
        length (List.filter is_exceeded (out s')) = 1%nat.
Proof. eexists. split; [vm_compute; reflexivity|]. by vm_compute. Qed.

(** S4: the operator stops the instance during the restart delay; no new
    child is started, [restarts] stays at 1 and the log says that the
    restart was cancelled. *)
Example scenario_stop_during_delay :
  ∃ s', run stop_during_delay demo_init = Done tt s' ∧
        restarts (inst s') = 1 ∧ Running (inst s') = false ∧
        spawns s' = 1%nat ∧ in_flight s' = 0%nat ∧
        length (List.filter is_restart_cancelled (out s')) = 1%nat.
Proof. eexists. split; [vm_compute; reflexivity|]. by vm_compute. Qed.

Example target_of_demo : target_of demo_options = "http://127.0.0.1:18001".
Proof. reflexivity. Qed.

(** ** The statements above at the demo instance

    Each general statement with hypotheses is applied once to the demo
    instance, where the hypotheses hold by computation; where the design
    document says more than the code does, the demo instance shows the
    difference. *)

Lemma demo_init_wf : wf (inst demo_init).
Proof. split; [by eexists|discriminate]. Defined.

Lemma demo_init_ints_ok : ints_ok (inst demo_init).
Proof.
  split; [by vm_compute|].
  intros m [= <-]. by vm_compute.
Defined.

Lemma demo_init_bounded : bounded (inst demo_init).
Proof. intros m [= <-]. by vm_compute. Defined.

Lemma demo_capped_wf : wf (inst demo_capped).
Proof.
  split; [vm_compute; eexists; reflexivity|].
  intros HR. vm_compute in HR. discriminate HR.
Defined.

Lemma demo_capped_ints_ok : ints_ok (inst demo_capped).
Proof.
  split; [by vm_compute|].
  intros m Hm. vm_compute in Hm. injection Hm as <-. by vm_compute.
Defined.

Lemma demo_capped_bounded : bounded (inst demo_capped).
Proof.
  intros m Hm. vm_compute in Hm. injection Hm as <-. by vm_compute.
Defined.

(** C1 on the demo instance: along scenario S3 from the new instance, and
    from the instance at its cap, where nothing starts a child any more. *)
Lemma restarts_never_exceed_max_witness :
  (∃ s', run crash_three_times demo_init = Done tt s' ∧
         restart_bound (inst s') = Some 2 ∧ bounded (inst s')) ∧
  (∃ s', run crash_at_cap demo_capped = Done tt s' ∧
         restarts (inst s') = 2 ∧
         (spawns s' + in_flight s' ≤ spawns demo_capped + in_flight demo_capped)%nat) ∧
  (∃ s' m, run crash_three_times demo_init = Done tt s' ∧
           restart_bound (inst s') = Some m ∧ 0 ≤ restarts (inst s') ≤ m).
Proof.
  split; [|split].
  - destruct (proj1 (restarts_never_exceed_max crash_three_times) demo_init
                demo_init_wf demo_init_ints_ok demo_init_bounded)
      as (s' & HR & _ & _ & Hb & Hbd & _).
    exists s'. split; [exact HR|]. split; [exact Hb|exact Hbd].
  - destruct (proj1 (restarts_never_exceed_max crash_at_cap) demo_capped
                demo_capped_wf demo_capped_ints_ok demo_capped_bounded)
      as (s' & HR & _ & _ & _ & _ & _ & Hcap).
    destruct (Hcap 2 ltac:(vm_compute; reflexivity) ltac:(by vm_compute))
      as (Hr & _ & Hsp).
    exists s'. split; [exact HR|]. split; [exact Hr|exact (Hsp eq_refl)].
  - exact (proj2 (restarts_never_exceed_max crash_three_times)
             "small" demo_config (Some demo_options)
             (or_intror (ex_intro _ demo_options (ex_intro _ 2 (conj eq_refl eq_refl))))).
Defined.

Lemma Start_keeps_restarts_witness :
  Start env_ok demo_cancelled = Done None demo_restarted ∧
  restarts (inst demo_restarted) = restarts (inst demo_cancelled).
Proof.
  assert (Start env_ok demo_cancelled = Done None demo_restarted) as HS
    by (vm_compute; reflexivity).
  split; [exact HS|exact (Start_keeps_restarts _ _ _ _ HS)].
Defined.

(** C2 fails as stated: the operator starts the demo instance after one
    automatic restart was scheduled and then cancelled; [Start] returns
    nil and [restarts] is still 1. *)
Lemma Start_does_not_reset_restarts :
  Start env_ok demo_cancelled = Done None demo_restarted ∧
  restarts (inst demo_cancelled) = 1 ∧
  restarts (inst demo_restarted) = 1 ∧
  restarts (inst demo_restarted) ≠ 0.
Proof. split; [vm_compute; reflexivity|]. by vm_compute. Qed.



Lemma Start_spawn_failure_keeps_log_open_witness :
  ∃ s' f,
    Start env_no_binary demo_init =
      Done (Some (EStartInstance "small"
        (ExtErr "exec: llama-server: executable file not found in $PATH"))) s' ∧
    logFile (inst s') = Some f ∧ fd f ∈ open_fds s' ∧
    Running (inst s') = false.
Proof.
  destruct (Start_spawn_failure_keeps_log_open env_no_binary demo_init
              demo_options demo_config
              (ExtErr "exec: llama-server: executable file not found in $PATH")
              eq_refl eq_refl eq_refl eq_refl eq_refl eq_refl eq_refl)
    as (s' & f & HS & _ & HR & _ & _ & _ & _ & _ & Hf & Hfd & _).
  exists s', f. repeat split; assumption.
Defined.

(** After the failed [Start], a [Start] that succeeds opens the log file
    again and a [Stop] closes that one: the descriptor of the first
    attempt, 0, is still open and no field of the instance holds it. *)
Example failed_Start_leaks_descriptor :
  ∃ s', run [OpStart env_no_binary; OpStart env_ok; OpStop env_stop] demo_init
          = Done tt s' ∧
        logFile (inst s') = None ∧ Running (inst s') = false ∧
        0%nat ∈ open_fds s'.
Proof.
  eexists. split; [vm_compute; reflexivity|].
  split; [reflexivity|]. split; [reflexivity|]. by vm_compute.
Qed.


(** The operator stops the demo instance while it runs, and then the
    monitor, the readers and the restart goroutines take their steps. *)
Example Stop_then_quiet_demo :
  Stop env_stop demo_running = Done None demo_stopped ∧
  restarts (inst demo_stopped) = restarts (inst demo_running) ∧
  ∃ s'', run after_stop demo_stopped = Done tt s'' ∧
         spawns s'' = spawns demo_stopped.
Proof.
  assert (Stop env_stop demo_running = Done None demo_stopped) as HS
    by (vm_compute; reflexivity).
  destruct (Stop_then_quiet _ _ _ _ HS) as (Hr & _ & _ & _ & _ & _ & Hq).
  destruct (Hq eq_refl) with (ops := after_stop) as (s'' & HRun & Hsp & _).
  - intros c [x Hx]. vm_compute in Hx. discriminate Hx.
  - reflexivity.
  - split; [exact HS|]. split; [exact Hr|]. exists s''. split; assumption.
Qed.

(** The hypothesis on [starting] is needed: a restart goroutine that left
    its [select] before the operator started and stopped the instance
    still starts a child. *)
Example restart_past_select_survives_stop :
  ∃ s1 s2 s3,
    run [OpStart env_ok; OpChildExit crash "2025-01-01 10:01:00"; OpTimer 4;
         OpStart env_ok] demo_init = Done tt s1 ∧
    starting s1 = 1%nat ∧
    Stop env_stop s1 = Done None s2 ∧
    restart_Start env_ok s2 = Done tt s3 ∧
    spawns s3 = S (spawns s2) ∧ Running (inst s3) = true.
Proof.
  eexists _, _, _. split; [vm_compute; reflexivity|].
  split; [reflexivity|]. split; [vm_compute; reflexivity|].
  split; [vm_compute; reflexivity|]. by vm_compute.
Qed.

Lemma GetProxy_binds_to_options_witness :
  ∃ s1 s2, SetOptions (Some moved_options) demo_running = Done tt s1 ∧
           proxy (inst s1) = None ∧
           GetProxy s1 = Done (Some moved_proxy, None) s2 ∧
           options (inst s2) = Some moved_options ∧
           proxy (inst s2) = Some moved_proxy ∧
           GetProxy s2 = Done (Some moved_proxy, None) s2.
Proof.
  exact (proj2 (proj2 (proj2 (GetProxy_binds_to_options demo_running)))
           moved_options ("http://127.0.0.1:18002" : @URL demo) eq_refl).
Defined.

Lemma SetOptions_copies_NewInstance_clamps_witness :
  (∃ s' o', SetOptions (Some demo_options) demo_running = Done tt s' ∧
            options (inst s') = Some o' ∧ policy_in_range o') ∧
  (∃ o', options (NewInstance "wild" demo_config (Some wild_options)).1 = Some o' ∧
         MaxRestarts o' = Some 100 ∧ RestartDelay o' = Some 5).
Proof.
  destruct (SetOptions_copies_NewInstance_clamps demo_running demo_options
              "wild" demo_config) as [(s' & HS & _ & _ & _ & _ & Hin) _].
  destruct (SetOptions_copies_NewInstance_clamps demo_running wild_options
              "wild" demo_config) as [_ [_ (o' & Ho & _ & Hm & Hd)]].
  split.
  - destruct Hin as (o1 & Ho1 & Hin1).
    + split; intros x [= <-]; by vm_compute.
    + by exists s', o1.
  - exists o'. split; [exact Ho|].
    split; [exact (proj1 (Hm 500 eq_refl))|exact (proj1 (Hd 0 eq_refl))].
Defined.

(** * More of the code *)

Section MoreProofs.
Context `{D : Deps}.

Ltac prim :=
  cbv [bind ret panic this update emit log_Printf context_WithCancel call_cancel
       os_OpenFile Fprintf Close new_pipe park] in *.
Ltac cases := repeat (case_match; simplify_eq/=; try done).
Ltac ltb_cases :=
  repeat match goal with
  | |- context [?a <? ?b] => destruct (Z.ltb_spec a b)
  | H : context [?a <? ?b] |- _ => destruct (Z.ltb_spec a b)
  end.

(** ** NewInstance *)

(** X1. [NewInstance] always gives a stopped instance whose options are
    there with the three restart fields present, also for nil options;
    and making an instance again from the options of a new instance
    changes nothing but the name and logs no warning, once each restart
    field was supplied or has a default in range. *)
Theorem NewInstance_complete_idempotent
    (name name' : string) (gs : InstancesConfig)
    (opts : option CreateInstanceOptions) :
  let i := (NewInstance name gs opts).1 in
  (∃ o a m d, options i = Some o ∧ AutoRestart o = Some a ∧
              MaxRestarts o = Some m ∧ RestartDelay o = Some d) ∧
  Name i = name ∧ Running i = false ∧ restarts i = 0 ∧ proxy i = None ∧
  logFile i = None ∧ cmd i = None ∧ restartCancel i = None ∧
  (is_Some (opts ≫= MaxRestarts) ∨ 0 ≤ DefaultMaxRestarts gs ≤ 100 →
   is_Some (opts ≫= RestartDelay) ∨ 1 ≤ DefaultRestartDelay gs ≤ 300 →
   NewInstance name' gs (options i) = (with_Name name' i, [])).
Proof.
  intros i. subst i. split.
  { destruct opts as [o|]; [rewrite NewInstance_options|]; simpl;
      eexists _, _, _, _; repeat split. }
  do 7 (split; [unfold NewInstance; by cases|]).
  intros Hm Hd.
  destruct opts as [[a m d l]|]; simpl in Hm, Hd.
  - destruct Hm as [[x Hx]|Hm], Hd as [[y Hy]|Hd]; simplify_eq/=;
      destruct a as [a|]; try destruct m as [m|]; try destruct d as [d|];
      unfold NewInstance; simpl; ltb_cases; simpl; ltb_cases; simpl;
      try reflexivity; try lia.
  - destruct Hm as [[x Hx]|Hm]; [done|]. destruct Hd as [[y Hy]|Hd]; [done|].
    unfold NewInstance; simpl; ltb_cases; simpl; try reflexivity; lia.
Qed.

(** X2. [NewInstance] logs a warning exactly when it changes a restart
    field that was supplied: it is silent if and only if the supplied
    [max_restarts] is within 0..100 and the supplied
    [restart_delay_seconds] within 1..300, and then it stores them as
    they are. *)
Theorem NewInstance_warns_iff_changed
    (name : string) (gs : InstancesConfig) (o : CreateInstanceOptions) :
  ((NewInstance name gs (Some o)).2 = [] ↔ policy_in_range o) ∧
  ((NewInstance name gs (Some o)).2 = [] →
   ∃ o', options (NewInstance name gs (Some o)).1 = Some o' ∧
         (∀ m, MaxRestarts o = Some m → MaxRestarts o' = Some m) ∧
         (∀ d, RestartDelay o = Some d → RestartDelay o' = Some d)).
Proof.
  unfold policy_in_range. destruct o as [a [m|] [d|] l];
    unfold NewInstance; simpl; ltb_cases; simpl; (split; [split|]).
  all: first
    [ by intros [=]
    | intros Hprem; first
      [ done
      | split; intros ? [=]; subst; lia
      | eexists; split; [reflexivity|]; simpl; split; intros ? [=]; by subst
      | destruct Hprem as [Hm Hd]; try specialize (Hm _ eq_refl);
        try specialize (Hd _ eq_refl); lia ] ].
Qed.

(** ** Start, in full *)

(** The state after a [Start] in which every call of the runtime
    succeeds. *)
Lemma Start_ok (e : StartEnv) (s : St) (o : CreateInstanceOptions)
    (g : InstancesConfig) :
  Running (inst s) = false → options (inst s) = Some o →
  globalSettings (inst s) = Some g →
  open_err e = None → stdout_err e = None → stderr_err e = None →
  spawn_err e = None →
  let n := next_id s in
  let path := log_path g (Name (inst s)) in
  let f := {| fd := n; file_name := path |} in
  let c := {| cmd_ctx := S n; cmd_args := BuildCommandArgs (embedded o);
              cmd_setpgid := negb (String.eqb GOOS "windows");
              cmd_process := true |} in
  Start e s =
  Done None
    (with_out (out s ++ [Spawn c])%list
      (with_inst
        (with_Running true (with_cmd (Some c) (with_stderr (Some (S (S (S n))))
          (with_stdout (Some (S (S n))) (with_ctx (Some (S n))
            (with_logFile (Some f) (inst s)))))))
        (with_next_id (S (S (S (S n))))
          (with_open_fds ({[S (S (S n))]} ∪ ({[S (S n)]} ∪ ({[n]} ∪ open_fds s)))
            (with_files
              (<[path := default "" (files s !! path)
                         +:+ started_marker (Name (inst s)) (start_now e)]> (files s))
              s))))).
Proof.
  intros HR Ho Hg H1 H2 H3 H4 n path f c.
  unfold Start, createLogFile, cmd_Start. prim.
  rewrite HR, Ho. simpl. rewrite Hg, H1. simpl.
  rewrite decide_True by set_solver. simpl.
  rewrite H2. simpl. rewrite H3. simpl. rewrite H4. simpl.
  subst n path f c. unfold log_path.
  rewrite lookup_insert_eq, insert_insert_eq. reflexivity.
Qed.

(** X3. The three refusals of [Start] leave the instance and the world
    exactly as they were: on a running instance (already running), on an
    instance without options, and when the log file cannot be opened (the
    error comes back wrapped twice). *)
Theorem Start_refusals_change_nothing (e : StartEnv) (s : St) :
  (Running (inst s) = true →
   Start e s = Done (Some (EAlreadyRunning (Name (inst s)))) s) ∧
  (Running (inst s) = false → options (inst s) = None →
   Start e s = Done (Some (ENoOptions (Name (inst s)))) s) ∧
  (∀ err, Running (inst s) = false → is_Some (options (inst s)) →
     is_Some (globalSettings (inst s)) → open_err e = Some err →
     Start e s = Done (Some (ECreateLogFiles (ECreateStdoutLog err))) s ∧
     unwrap (ECreateLogFiles (ECreateStdoutLog err)) = Some (ECreateStdoutLog err) ∧
     unwrap (ECreateStdoutLog err) = Some err).
Proof.
  split; [|split].
  - intros HR. unfold Start. prim. by rewrite HR.
  - intros HR Ho. unfold Start. prim. by rewrite HR, Ho.
  - intros err HR [o Ho] [g Hg] H1. split; [|done].
    unfold Start, createLogFile. prim. rewrite HR, Ho. simpl. by rewrite Hg, H1.
Qed.

(** X4. On an instance that has its configuration, [Start] returns, and
    it returns nil exactly when the instance was not running, has options,
    and opening the log file, making the two pipes and starting the
    process all succeed.  Then the instance runs, the log file
    [<log_dir>/<name>.log] is open with the started marker at its end, and
    the one child started is the command built from the options, under the
    context that [cancel] cancels.  When [Start] returns an error, no
    child was started and [Running] is as before. *)
Theorem Start_succeeds_iff (e : StartEnv) (s : St) (g : InstancesConfig) :
  globalSettings (inst s) = Some g →
  ∃ r s', Start e s = Done r s' ∧
    (r = None ↔
     Running (inst s) = false ∧ is_Some (options (inst s)) ∧
     open_err e = None ∧ stdout_err e = None ∧ stderr_err e = None ∧
     spawn_err e = None) ∧
    (r = None →
     Running (inst s') = true ∧ spawns s' = S (spawns s) ∧
     ∃ o f c, options (inst s) = Some o ∧
       logFile (inst s') = Some f ∧
       file_name f = log_path g (Name (inst s)) ∧ fd f ∈ open_fds s' ∧
       files s' !! file_name f =
         Some (default "" (files s !! file_name f)
               +:+ started_marker (Name (inst s)) (start_now e)) ∧
       cmd (inst s') = Some c ∧ cmd_args c = BuildCommandArgs (embedded o) ∧
       cmd_process c = true ∧ cancel (inst s') = Some (cmd_ctx c) ∧
       last (out s') = Some (Spawn c)) ∧
    (is_Some r →
     Running (inst s') = Running (inst s) ∧ spawns s' = spawns s).
Proof.
  intros Hg. destruct (Start e s) as [r s'|] eqn:HS.
  2: { exfalso. revert HS. unfold Start, createLogFile, closeLogFile, cmd_Start.
       prim. intros HS. cases. }
  exists r, s'. split; [done|].
  assert (r = None ↔
     Running (inst s) = false ∧ is_Some (options (inst s)) ∧
     open_err e = None ∧ stdout_err e = None ∧ stderr_err e = None ∧
     spawn_err e = None) as Hiff.
  { revert HS. unfold Start, createLogFile, closeLogFile, cmd_Start. prim.
    intros HS. cases; (split; [try done|try (intros (?&[? ?]&?&?&?&?); congruence)]).
    all: intros _; repeat split; eauto. }
  split; [done|]. split.
  - intros ->. destruct (proj1 Hiff eq_refl) as (HR & [o Ho] & H1 & H2 & H3 & H4).
    rewrite (Start_ok e s o g) in HS by done. injection HS as <-.
    unfold spawns. simpl. rewrite List.filter_app, length_app, last_snoc. simpl.
    split; [done|]. split; [lia|].
    eexists o, _, _. repeat split; try done.
    + set_solver.
    + by rewrite lookup_insert_eq.
  - intros [x ->]. pose proof (Start_spawns _ _ _ _ HS) as [? ?]. done.
Qed.

(** ** Stop *)

(** X5. After a [Stop] that returned, whatever it returned, another
    [Stop] returns the not-running error and changes nothing at all. *)
Theorem Stop_twice (e e' : StopEnv) (s s1 : St) (r : option error) :
  Stop e s = Done r s1 →
  Stop e' s1 = Done (Some (ENotRunning (Name (inst s)))) s1.
Proof.
  intros HS.
  destruct (Stop_frame _ _ _ _ HS) as (_ & _ & _ & HN & _ & _ & HR & Hrc & _).
  unfold Stop. prim. by rewrite HR, Hrc, HN.
Qed.

(** X6. What [Stop] does to the world on a running instance: it cancels
    the context of the command and the context of the pending restart, if
    there is one, and nothing else; it kills the child exactly when the
    child did not exit within the five seconds and the process exists; it
    closes the descriptor of the log file; the two pipes are closed, by
    [cmd.Wait()], exactly when the child exited within the five seconds
    (after a kill they are still open when [Stop] returns), and no other
    descriptor is closed; the command and the cancel function stay in the
    instance. *)
Theorem Stop_running_effects (e : StopEnv) (s : St) (c : nat) (k : Cmd) :
  Running (inst s) = true → cancel (inst s) = Some c → cmd (inst s) = Some k →
  ∃ s', Stop e s = Done None s' ∧
    cancelled s' = {[c]} ∪ (from_option singleton ∅ (restartCancel (inst s))
                            ∪ cancelled s) ∧
    out s' = (out s ++ if exits_in_time e || negb (cmd_process k)
                       then [] else [Kill k])%list ∧
    open_fds s' =
      from_option (λ f, open_fds s ∖ {[fd f]}) (open_fds s) (logFile (inst s))
      ∖ (if exits_in_time e && cmd_process k
         then from_option singleton ∅ (stdout (inst s))
              ∪ from_option singleton ∅ (stderr (inst s))
         else ∅) ∧
    cancel (inst s') = Some c ∧ cmd (inst s') = Some k ∧
    stdout (inst s') = stdout (inst s) ∧ stderr (inst s') = stderr (inst s) ∧
    next_id s' = next_id s.
Proof.
  intros HR Hc Hk.
  destruct (Stop e s) as [r s'|] eqn:HS; revert HS;
    unfold Stop, cmd_Wait, closeLogFile; prim; rewrite HR, Hc, Hk; simpl; intros HS.
  2: { cases. }
  cases; eexists; (split; [reflexivity|]); simpl; rewrite ?app_nil_r;
    repeat match goal with H : ?x = _ |- context [?x] => rewrite H end; simpl;
    rewrite ?app_nil_r; repeat split; try done; try congruence; set_solver.
Qed.

(** ** Encoding and decoding *)

(** X7. [UnmarshalJSON] sets [Running] from the data without making the
    command or its context, and does not set the configuration.  So an
    instance decoded as running into a value that has no cancel function
    or no command makes [Stop] panic, and an instance decoded as stopped
    into a value without configuration makes [Start] panic as soon as it
    has options. *)
Theorem decoded_instance_panics
    (json_Unmarshal : string → error + Temp) (data : string) (s : St) (temp : Temp) :
  json_Unmarshal data = inr temp →
  ∃ s1, UnmarshalJSON json_Unmarshal data s = Done None s1 ∧
    (temp_Running temp = true →
     cancel (inst s) = None ∨ cmd (inst s) = None →
     ∀ e, Stop e s1 = Panic) ∧
    (temp_Running temp = false → globalSettings (inst s) = None →
     is_Some (temp_Options temp) ∨ is_Some (options (inst s)) →
     ∀ e, Start e s1 = Panic).
Proof.
  intros Hj.
  destruct (UnmarshalJSON json_Unmarshal data s) as [r s1|] eqn:HU; revert HU;
    unfold UnmarshalJSON; prim; rewrite Hj; intros HU.
  2: { cases. }
  assert (r = None ∧ Running (inst s1) = temp_Running temp ∧
          cancel (inst s1) = cancel (inst s) ∧ cmd (inst s1) = cmd (inst s) ∧
          globalSettings (inst s1) = globalSettings (inst s) ∧
          (is_Some (temp_Options temp) ∨ is_Some (options (inst s)) →
           is_Some (options (inst s1)))) as (-> & HR & Hc & Hk & Hg & Ho).
  { cases; repeat split; try done; intros [[? ?]|[? ?]]; simplify_eq/=; by eexists. }
  exists s1. split; [done|]. split.
  - intros Ht Hnone e. unfold Stop, cmd_Wait, closeLogFile. prim.
    rewrite HR, Ht, Hc, Hk. simpl.
    destruct Hnone as [-> | ->]; cases.
  - intros Ht Hgs Hopt e. destruct (Ho Hopt) as [o Hoo].
    unfold Start, createLogFile. prim.
    by rewrite HR, Ht, Hoo, Hg, Hgs.
Qed.

(** What [UnmarshalJSON] changes and what it leaves alone. *)
Lemma UnmarshalJSON_frame
    (json_Unmarshal : string → error + Temp) (data : string) (s : St) :
  match json_Unmarshal data with
  | inl err => UnmarshalJSON json_Unmarshal data s = Done (Some err) s
  | inr temp =>
    ∃ s', UnmarshalJSON json_Unmarshal data s = Done None s' ∧
      Name (inst s') = temp_Name temp ∧ Running (inst s') = temp_Running temp ∧
      match temp_Options temp with
      | None => options (inst s') = options (inst s) ∧ out s' = out s
      | Some o =>
        ∃ o', options (inst s') = Some o' ∧
          AutoRestart o' = AutoRestart o ∧ embedded o' = embedded o ∧
          MaxRestarts o' = Z.max 0 <$> MaxRestarts o ∧
          RestartDelay o' = (λ d, if d <? 0 then 5 else d) <$> RestartDelay o ∧
          (∀ m, MaxRestarts o' = Some m → 0 ≤ m) ∧
          (∀ d, RestartDelay o' = Some d → 0 ≤ d)
      end ∧
      restarts (inst s') = restarts (inst s) ∧ proxy (inst s') = proxy (inst s) ∧
      logFile (inst s') = logFile (inst s) ∧ cmd (inst s') = cmd (inst s) ∧
      cancel (inst s') = cancel (inst s) ∧
      restartCancel (inst s') = restartCancel (inst s) ∧
      globalSettings (inst s') = globalSettings (inst s) ∧
      files s' = files s ∧ open_fds s' = open_fds s ∧
      cancelled s' = cancelled s ∧ parked s' = parked s
  end.
Proof.
  destruct (json_Unmarshal data) as [err|temp] eqn:Hj.
  { unfold UnmarshalJSON. prim. by rewrite Hj. }
  destruct (UnmarshalJSON json_Unmarshal data s) as [r s'|] eqn:HU; revert HU;
    unfold UnmarshalJSON; prim; rewrite Hj; intros HU.
  2: { cases. }
  destruct (temp_Options temp) as [[a m d l]|] eqn:Ho; simpl in HU.
  - destruct m as [m|], d as [d|]; simpl in HU; ltb_cases; simplify_eq/=;
      (eexists; split; [reflexivity|]); simpl;
      (split; [done|]); (split; [done|]);
      (split; [|by repeat split]);
      eexists; (split; [reflexivity|]); simpl;
      repeat split; try done; try (f_equal; lia);
      try (intros ? [= <-]; lia);
      ltb_cases; first [done | f_equal; lia].
  - simplify_eq/=. eexists. split; [reflexivity|]. by repeat split.
Qed.

(** X8. [UnmarshalJSON] returns the error of the decoder and then leaves
    the instance as it was.  Otherwise it returns nil, takes the name and
    the running flag from the data, keeps the options it had when the data
    has none, and else stores options whose [max_restarts] and
    [restart_delay_seconds] are not negative; everything else of the
    instance (the restart counter, the cached proxy, the log file, the
    command, the pending restart) and of the world is as before. *)
Theorem UnmarshalJSON_effect
    (json_Unmarshal : string → error + Temp) (data : string) (s : St) :
  match json_Unmarshal data with
  | inl err => UnmarshalJSON json_Unmarshal data s = Done (Some err) s
  | inr temp =>
    ∃ s', UnmarshalJSON json_Unmarshal data s = Done None s' ∧
      Name (inst s') = temp_Name temp ∧ Running (inst s') = temp_Running temp ∧
      match temp_Options temp with
      | None => options (inst s') = options (inst s) ∧ out s' = out s
      | Some o =>
        ∃ o', options (inst s') = Some o' ∧
          AutoRestart o' = AutoRestart o ∧ embedded o' = embedded o ∧
          MaxRestarts o' = Z.max 0 <$> MaxRestarts o ∧
          RestartDelay o' = (λ d, if d <? 0 then 5 else d) <$> RestartDelay o ∧
          (∀ m, MaxRestarts o' = Some m → 0 ≤ m) ∧
          (∀ d, RestartDelay o' = Some d → 0 ≤ d)
      end ∧
      restarts (inst s') = restarts (inst s) ∧ proxy (inst s') = proxy (inst s) ∧
      logFile (inst s') = logFile (inst s) ∧ cmd (inst s') = cmd (inst s) ∧
      cancel (inst s') = cancel (inst s) ∧
      restartCancel (inst s') = restartCancel (inst s) ∧
      globalSettings (inst s') = globalSettings (inst s) ∧
      files s' = files s ∧ open_fds s' = open_fds s ∧
      cancelled s' = cancelled s ∧ parked s' = parked s
  end.
Proof. apply UnmarshalJSON_frame. Qed.

(** X9. [UnmarshalJSON] replaces the options and keeps the cached proxy
    (where [SetOptions] drops it): the next [GetProxy] still returns the
    proxy made for the options of before, which is not the proxy of the
    new options when these name another target. *)
Theorem UnmarshalJSON_keeps_stale_proxy
    (json_Unmarshal : string → error + Temp) (data : string) (s : St)
    (temp : Temp) (o : CreateInstanceOptions) (p : ReverseProxy) :
  json_Unmarshal data = inr temp → temp_Options temp = Some o →
  proxy (inst s) = Some p →
  ∃ s' o', UnmarshalJSON json_Unmarshal data s = Done None s' ∧
    options (inst s') = Some o' ∧ target_of o' = target_of o ∧
    GetProxy s' = Done (Some p, None) s' ∧
    (url_Parse (target_of o) ≠ Some (target p) → ¬ proxy_matches (inst s')).
Proof.
  intros Hj Ho Hp.
  pose proof (UnmarshalJSON_frame json_Unmarshal data s) as HU.
  rewrite Hj, Ho in HU.
  destruct HU as (s' & HU & _ & _ & (o' & Ho' & _ & He & _) & _ & Hp' & _).
  exists s', o'. split; [done|]. split; [done|].
  assert (target_of o' = target_of o) as Ht by (unfold target_of; by rewrite He).
  split; [done|]. split.
  - unfold GetProxy. prim. by rewrite Hp', Hp.
  - intros Hne Hm. destruct (Hm p) as (o2 & Ho2 & Hu); [congruence|].
    congruence.
Qed.

(** X10. What [MarshalJSON] wrote, [UnmarshalJSON] reads back, for a
    decoder that gives back the struct that was encoded: the name, the
    running flag and, when their restart fields are not negative, the
    options are those of the encoded instance (without options in the
    data, the decoding instance keeps its own).  The restart counter is
    not in the data: the decoding instance keeps its own.  [MarshalJSON]
    leaves the instance as it is. *)
Theorem Marshal_Unmarshal_round_trip
    (json_Marshal : Temp → error + string) (json_Unmarshal : string → error + Temp)
    (s s0 : St) (data : string) :
  json_Marshal (temp_of (inst s)) = inr data →
  json_Unmarshal data = inr (temp_of (inst s)) →
  MarshalJSON json_Marshal s = Done (data, None) s ∧
  ∃ s', UnmarshalJSON json_Unmarshal data s0 = Done None s' ∧
    Name (inst s') = Name (inst s) ∧ Running (inst s') = Running (inst s) ∧
    (options (inst s) = None → options (inst s') = options (inst s0)) ∧
    (∀ o, options (inst s) = Some o →
       (∀ m, MaxRestarts o = Some m → 0 ≤ m) →
       (∀ d, RestartDelay o = Some d → 0 ≤ d) →
       options (inst s') = Some o) ∧
    restarts (inst s') = restarts (inst s0) ∧
    cmd (inst s') = cmd (inst s0) ∧ cancel (inst s') = cancel (inst s0).
Proof.
  intros Hm Hu. split.
  { unfold MarshalJSON. prim. by rewrite Hm. }
  pose proof (UnmarshalJSON_frame json_Unmarshal data s0) as HU.
  rewrite Hu in HU. simpl in HU.
  destruct HU as (s' & HU & HN & HR & Hopt & Hr & _ & _ & Hk & Hc & _).
  exists s'. split; [done|]. split; [done|]. split; [done|].
  split; [|split; [|by repeat split]].
  - intros Ho. rewrite Ho in Hopt. by destruct Hopt.
  - intros o Ho Hmax Hdel. rewrite Ho in Hopt.
    destruct Hopt as (o' & -> & Ha & He & Hm' & Hd' & _).
    f_equal. destruct o as [a m d l], o' as [a' m' d' l']. simpl in *. subst.
    f_equal.
    + destruct m as [m|]; [|done]. simpl. f_equal. specialize (Hmax m eq_refl). lia.
    + destruct d as [d|]; [|done]. simpl. f_equal. specialize (Hdel d eq_refl).
      destruct (Z.ltb_spec d 0); [lia|done].
Qed.

(** ** All the calls together *)

Lemma grows_refl (m : gmap string string) : grows m m.
Proof. intros path content H. exists "". by rewrite append_empty_r. Qed.

Lemma grows_trans (m1 m2 m3 : gmap string string) :
  grows m1 m2 → grows m2 m3 → grows m1 m3.
Proof.
  intros H1 H2 path content H.
  destruct (H1 _ _ H) as [more1 H1']. destruct (H2 _ _ H1') as [more2 H2'].
  exists (more1 +:+ more2). by rewrite <- append_assoc.
Qed.

Lemma grows_append (m : gmap string string) (p text : string) :
  grows m (<[p := default "" (m !! p) +:+ text]> m).
Proof.
  intros path content H. destruct (decide (p = path)) as [->|Hne].
  - rewrite lookup_insert_eq, H. by eexists.
  - rewrite lookup_insert_ne by done. exists "". by rewrite append_empty_r.
Qed.

Lemma grows_touch (m : gmap string string) (p : string) :
  grows m (<[p := default "" (m !! p)]> m).
Proof.
  intros path content H. exists "". rewrite append_empty_r.
  destruct (decide (p = path)) as [->|Hne].
  - by rewrite lookup_insert_eq, H.
  - by rewrite lookup_insert_ne.
Qed.

Ltac grow :=
  repeat first
    [ apply grows_refl
    | eapply grows_trans; [|apply grows_append]
    | eapply grows_trans; [|apply grows_touch] ].

Ltac keep :=
  simpl; repeat split;
  first [ done | congruence | (left; done) | (right; done)
        | intros Hok_ HR_;
          first [congruence | (apply Hok_; done) | (eexists _, _; repeat split; done)] ].

(** What [Start] does besides what [Start_frame] says. *)
Lemma Start_keeps (e : StartEnv) (s s' : St) r :
  Start e s = Done r s' →
  grows (files s) (files s') ∧ (running_ok (inst s) → running_ok (inst s')).
Proof.
  unfold Start, createLogFile, closeLogFile, cmd_Start, running_ok. prim.
  intros H. simplify_eq/=. cases; (split; [grow|]); simpl; try done; intros Hok HR;
    first [congruence | by apply Hok | eexists _, _; by repeat split].
Qed.

(** One step of the transition system: the files, the proxy, the name,
    and the running instance. *)
Lemma exec_keeps (op : Op) (s s' : St) :
  exec op s = Done tt s' →
  grows (files s) (files s') ∧
  Name (inst s') = Name (inst s) ∧
  (proxy (inst s') = proxy (inst s) ∨ proxy (inst s') = None) ∧
  (running_ok (inst s) → running_ok (inst s')).
Proof.
  destruct op as [e|e|err ts|f line|p|c|c|e|]; simpl.
  - unfold bind, ret. destruct (Start e s) as [r s1|] eqn:HS; [|done].
    intros [= <-].
    destruct (Start_frame _ _ _ _ HS) as (_ & _ & _ & _ & ? & ? & _).
    destruct (Start_keeps _ _ _ _ HS) as [? ?]. repeat split; auto.
  - unfold Stop, cmd_Wait, closeLogFile, running_ok. prim.
    destruct (Running (inst s)) eqn:HR; simpl; intros H; simplify_eq/=; cases;
      (split; [grow|]); keep.
  - unfold monitorProcess, handleRestart, validateRestartConditions, closeLogFile,
      running_ok. prim.
    destruct (Running (inst s)) eqn:HR; simpl; intros H; simplify_eq/=; cases;
      (split; [grow|]); keep.
  - unfold readOutput_line. prim. intros H. simplify_eq/=. cases; (split; [grow|]); auto.
  - intros [= <-]. split; [grow|]. auto.
  - unfold select_timer. intros H. simplify_eq/=. cases; (split; [grow|]); auto.
  - unfold select_done. prim. intros H. simplify_eq/=. cases; (split; [grow|]); auto.
  - unfold restart_Start. prim. destruct (starting s) as [|n] eqn:Hn; simpl.
    { intros [= <-]. split; [grow|]. auto. }
    destruct (Start e (with_starting n s)) as [r s1|] eqn:HS; [|done].
    destruct (Start_frame _ _ _ _ HS) as (_ & _ & _ & _ & ? & ? & _).
    destruct (Start_keeps _ _ _ _ HS) as [? ?].
    destruct r; intros [= <-]; simpl in *; repeat split; auto.
  - unfold restart_clear, running_ok. prim. intros H. simplify_eq/=.
    cases; (split; [grow|]); auto.
Qed.

(** One call: it returns on a well-formed instance, which stays so. *)
Lemma call_wf (c : Call) (s : St) :
  wf (inst s) → ∃ s', call c s = Done tt s' ∧ wf (inst s').
Proof.
  intros Hwf. destruct c as [op|[o|]| | |n e]; simpl.
  - by apply exec_wf.
  - rewrite SetOptions_Some. by eexists.
  - by eexists.
  - by eexists.
  - unfold GetProxy. prim. cases; by eexists.
  - unfold GetLogs, os_Open, scan_all. prim. cases; by eexists.
Qed.

Lemma call_keeps (c : Call) (s s' : St) :
  call c s = Done tt s' →
  grows (files s) (files s') ∧
  Name (inst s') = Name (inst s) ∧
  globalSettings (inst s') = globalSettings (inst s) ∧
  (running_ok (inst s) → running_ok (inst s')) ∧
  (proxy_matches (inst s) → proxy_matches (inst s')).
Proof.
  destruct c as [op|[o|]| | |n e]; simpl.
  - intros H. destruct (exec_keeps _ _ _ H) as (? & ? & Hp & ?).
    destruct (exec_step _ _ _ H) as (Ho & ? & _).
    repeat split; auto. intros Hm p Hp'.
    destruct Hp as [Hp|Hp]; [|congruence].
    rewrite Ho. apply Hm. congruence.
  - rewrite SetOptions_Some. intros [= <-]. split; [grow|]. by repeat split.
  - unfold SetOptions. prim. intros [= <-]. split; [grow|]. by repeat split.
  - intros [= <-]. split; [grow|]. by repeat split.
  - unfold GetProxy, proxy_matches. prim. intros H. simplify_eq/=.
    cases; (split; [grow|]); repeat split; auto;
      intros Hm p Hp; simplify_eq/=;
      first [congruence | (apply Hm; congruence) | (eexists; split; [eassumption|done])].
  - unfold GetLogs, os_Open, scan_all. prim. intros H. simplify_eq/=.
    cases; (split; [grow|]); by repeat split.
Qed.

(** X11. Along every sequence of calls ([Start], [Stop], [SetOptions],
    [GetOptions], [GetProxy], [GetLogs] and the steps of the goroutines):
    the calls return, and the cached proxy, whenever there is one, is the
    proxy of the target of the current options. *)
Theorem calls_keep_proxy_of_options (cs : list Call) (s : St) :
  wf (inst s) → proxy_matches (inst s) →
  ∃ s', calls cs s = Done tt s' ∧ wf (inst s') ∧ proxy_matches (inst s').
Proof.
  revert s. induction cs as [|c cs IH]; intros s Hwf Hm; simpl.
  - by exists s.
  - destruct (call_wf c s Hwf) as (s1 & HC & Hwf1).
    destruct (call_keeps _ _ _ HC) as (_ & _ & _ & _ & Hm1).
    destruct (IH s1 Hwf1 (Hm1 Hm)) as (s' & HR & ? & ?).
    exists s'. unfold bind. by rewrite HC.
Qed.

(** X12. Along every sequence of calls, the files are only appended to:
    every file keeps its content as the beginning of what it holds
    afterwards, and no file disappears. *)
Theorem calls_only_append (cs : list Call) (s : St) :
  wf (inst s) →
  ∃ s', calls cs s = Done tt s' ∧ grows (files s) (files s').
Proof.
  revert s. induction cs as [|c cs IH]; intros s Hwf; simpl.
  - exists s. split; [done|apply grows_refl].
  - destruct (call_wf c s Hwf) as (s1 & HC & Hwf1).
    destruct (call_keeps _ _ _ HC) as (Hg & _).
    destruct (IH s1 Hwf1) as (s' & HR & Hg').
    exists s'. unfold bind. rewrite HC. split; [done|by eapply grows_trans].
Qed.

(** X13. On an instance made by [NewInstance], no sequence of calls
    panics; the instance keeps its name and its configuration, and
    whenever it is running it has its log file, the command with its
    process, and the cancel function of the context of that command. *)
Theorem calls_on_new_instance (cs : list Call) (name : string)
    (gs : InstancesConfig) (opts : option CreateInstanceOptions) :
  ∃ s', calls cs (init (NewInstance name gs opts).1) = Done tt s' ∧
    Name (inst s') = name ∧ globalSettings (inst s') = Some gs ∧
    running_ok (inst s').
Proof.
  assert (∀ s, wf (inst s) → running_ok (inst s) →
    ∃ s', calls cs s = Done tt s' ∧ Name (inst s') = Name (inst s) ∧
          globalSettings (inst s') = globalSettings (inst s) ∧
          running_ok (inst s')) as Hgen.
  { induction cs as [|c cs IH]; intros s Hwf Hok; simpl.
    - by exists s.
    - destruct (call_wf c s Hwf) as (s1 & HC & Hwf1).
      destruct (call_keeps _ _ _ HC) as (_ & HN & HG & Hok1 & _).
      destruct (IH s1 Hwf1 (Hok1 Hok)) as (s' & HR & ? & ? & ?).
      exists s'. unfold bind. rewrite HC.
      split; [done|]. split; [congruence|]. split; [congruence|done]. }
  destruct (Hgen (init (NewInstance name gs opts).1)) as (s' & HR & HN & HG & Hok).
  - unfold NewInstance, wf. cases; try (split; [by eexists|done]).
  - unfold NewInstance, running_ok. cases.
  - exists s'. split; [done|]. split; [|split; [|done]].
    + rewrite HN. unfold NewInstance. by cases.
    + rewrite HG. unfold NewInstance. by cases.
Qed.

(** ** The monitor, once more *)

(** The decision of the monitor after an error exit, with everything it
    does to the restart machinery. *)
Lemma monitorProcess_crash (s : St) (err : error) (ts : string) :
  Running (inst s) = true →
  ∃ s', monitorProcess (Some err) ts s = Done tt s' ∧
    cancelled s' = from_option singleton ∅ (restartCancel (inst s)) ∪ cancelled s ∧
    ((∃ o m d, options (inst s) = Some o ∧ AutoRestart o = Some true ∧
        MaxRestarts o = Some m ∧ RestartDelay o = Some d ∧ restarts (inst s) < m ∧
        restarts (inst s') = int_wrap (restarts (inst s) + 1) ∧
        restartCancel (inst s') = Some (next_id s) ∧
        parked s' = <[next_id s := delay_ns d]> (parked s) ∧
        last (out s') =
          Some (Log (LogAutoRestarting (Name (inst s))
                       (int_wrap (restarts (inst s) + 1)) m (delay_ns d)))) ∨
     (¬ restart_wanted (inst s) ∧ restarts (inst s') = restarts (inst s) ∧
      restartCancel (inst s') = None ∧ parked s' = parked s ∧
      attempts s' = attempts s)).
Proof.
  intros HR.
  destruct (monitorProcess_total (Some err) ts s) as [s' HS].
  exists s'. split; [done|]. revert HS.
  unfold monitorProcess, handleRestart, validateRestartConditions, closeLogFile,
    restart_wanted, attempts.
  prim. rewrite HR. simpl. intros HS.
  cases; rewrite ?omap_app, ?last_snoc; simpl; rewrite ?app_nil_r;
    (split; [set_solver|]);
    repeat match goal with
    | H : (_ <=? _) = true |- _ => apply Z.leb_le in H
    | H : (_ <=? _) = false |- _ => apply Z.leb_gt in H
    end;
    first
      [ left; eexists _, _, _; repeat split; eauto; done
      | right; split; [|done];
        intros (o' & m' & d' & Ho & Ha & Hm & Hd & Hlt); simplify_eq; lia ].
Qed.

Lemma int_wrap_is_int (z : Z) : is_int (int_wrap z).
Proof.
  unfold is_int, int_wrap, min_int, max_int.
  pose proof (Z.mod_pos_bound (z - - 2 ^ 63) (2 ^ 64)). lia.
Qed.

(** X14. The timer of an automatic restart.  When the monitor schedules a
    restart after a crash, the goroutine sleeps on a fresh context, which
    [restartCancel] cancels, for [restart_delay_seconds] times one second
    in nanoseconds, computed in Go's [int64]: this is the delay asked for
    exactly when the delay is between -9223372036 and 9223372036 seconds.
    The server log announces the attempt with its number, the maximum and
    that duration.  The restart that was pending before, if any, is
    cancelled. *)
Theorem restart_timer_duration
    (s : St) (err : error) (ts : string) (o : CreateInstanceOptions) (m d : Z) :
  Running (inst s) = true → options (inst s) = Some o →
  AutoRestart o = Some true → MaxRestarts o = Some m → RestartDelay o = Some d →
  restarts (inst s) < m →
  ∃ s', monitorProcess (Some err) ts s = Done tt s' ∧
    restartCancel (inst s') = Some (next_id s) ∧
    parked s' = <[next_id s := delay_ns d]> (parked s) ∧
    (delay_ns d = d * 1000000000 ↔ -9223372036 ≤ d ≤ 9223372036) ∧
    last (out s') =
      Some (Log (LogAutoRestarting (Name (inst s))
                   (int_wrap (restarts (inst s) + 1)) m (delay_ns d))) ∧
    (∀ c, restartCancel (inst s) = Some c → c ∈ cancelled s').
Proof.
  intros HR Ho Ha Hm Hd Hlt.
  destruct (monitorProcess_crash s err ts HR) as (s' & HS & Hc & Hdec).
  exists s'. split; [done|].
  destruct Hdec as [(o' & m' & d' & Ho' & _ & Hm' & Hd' & _ & _ & Hrc & Hp & Hl)
                   |(Hn & _)].
  - simplify_eq. split; [done|]. split; [done|]. split; [|split; [done|]].
    + unfold delay_ns. split.
      * intros Heq. pose proof (int_wrap_is_int (d * 1000000000)) as Hi.
        rewrite Heq in Hi. unfold is_int, min_int, max_int in Hi. lia.
      * intros Hr. apply int_wrap_id. unfold is_int, min_int, max_int. lia.
    + intros c Hcs. rewrite Hc, Hcs. set_solver.
  - exfalso. apply Hn. by exists o, m, d.
Qed.

(** X15. The monitor decides on the options at the time of the exit and
    on the counter, which [SetOptions] does not touch.  So after
    [SetOptions] on a running instance a crash schedules a restart exactly
    when the new options ask for it with the old counter below the new
    maximum: a maximum at or below the counter ends the restarts (and the
    counter may then exceed the maximum), a higher one allows them
    again. *)
Theorem SetOptions_changes_restart_decision
    (s : St) (o : CreateInstanceOptions) (err : error) (ts : string) :
  Running (inst s) = true →
  ∃ s1 s2, SetOptions (Some o) s = Done tt s1 ∧
    restarts (inst s1) = restarts (inst s) ∧ Running (inst s1) = true ∧
    (∀ m, MaxRestarts o = Some m → m < restarts (inst s) → ¬ bounded (inst s1)) ∧
    monitorProcess (Some err) ts s1 = Done tt s2 ∧
    (is_Some (restartCancel (inst s2)) ↔
     AutoRestart o = Some true ∧ is_Some (RestartDelay o) ∧
     ∃ m, MaxRestarts o = Some m ∧ restarts (inst s) < m) ∧
    (is_Some (restartCancel (inst s2)) →
     restarts (inst s2) = int_wrap (restarts (inst s) + 1)) ∧
    (restartCancel (inst s2) = None →
     restarts (inst s2) = restarts (inst s) ∧ parked s2 = parked s).
Proof.
  intros HR. rewrite SetOptions_Some.
  set (s1 := with_inst (with_proxy None (with_options (Some o) (inst s))) s).
  destruct (monitorProcess_crash s1 err ts HR) as (s2 & HS & _ & Hdec).
  exists s1, s2. split; [done|]. split; [done|]. split; [done|]. split.
  { intros m Hm Hlt Hb. specialize (Hb m). unfold restart_bound in Hb.
    simpl in Hb. specialize (Hb Hm). lia. }
  split; [done|].
  destruct Hdec as [(o' & m' & d' & Ho' & Ha & Hm' & Hd' & Hlt & Hr & Hrc & Hp & _)
                   |(Hn & Hr & Hrc & Hp & _)]; simpl in *; simplify_eq.
  - rewrite Hrc. split; [|split; [done|done]].
    split; [|by eexists]. intros _.
    split; [done|]. split; [by eexists|]. by eexists.
  - rewrite Hrc. split; [|split; [by intros [? ?]|done]].
    split; [by intros [? ?]|].
    intros (Ha & [d Hd] & m & Hm & Hlt). exfalso. apply Hn.
    exists o, m, d. by repeat split.
Qed.

(** ** The announcements of the restarts *)

Lemma Start_attempts (e : StartEnv) (s s' : St) r :
  Start e s = Done r s' → attempts s' = attempts s.
Proof.
  unfold Start, createLogFile, closeLogFile, cmd_Start, attempts. prim.
  intros H. simplify_eq/=. cases; rewrite ?omap_app; simpl; by rewrite ?app_nil_r.
Qed.

(** A step either leaves the counter and the announcements alone, or adds
    one to the counter, under the cap, and announces that attempt. *)
Lemma exec_attempts (op : Op) (s s' : St) :
  exec op s = Done tt s' →
  (restarts (inst s') = restarts (inst s) ∧ attempts s' = attempts s) ∨
  (∃ m, restart_bound (inst s) = Some m ∧ restarts (inst s) < m ∧
        restarts (inst s') = int_wrap (restarts (inst s) + 1) ∧
        attempts s' = (attempts s ++ [(int_wrap (restarts (inst s) + 1), m)])%list).
Proof.
  destruct op as [e|e|err ts|f line|p|c|c|e|]; simpl.
  - unfold bind, ret. destruct (Start e s) as [r s1|] eqn:HS; [|done].
    intros [= <-]. left.
    destruct (Start_frame _ _ _ _ HS) as (_ & ? & _).
    split; [done|by eapply Start_attempts].
  - unfold Stop, cmd_Wait, closeLogFile, attempts. prim. intros H. simplify_eq/=.
    cases; left; rewrite ?omap_app; simpl; by rewrite ?app_nil_r.
  - unfold monitorProcess, handleRestart, validateRestartConditions, closeLogFile,
      attempts, restart_bound. prim. intros H. simplify_eq/=.
    cases; rewrite ?omap_app; simpl; rewrite ?app_nil_r;
      first [ by left
            | right; eexists; split; [done|];
              match goal with
              | H : (_ <=? _) = false |- _ => apply Z.leb_gt in H
              end; split; [lia|done] ].
  - unfold readOutput_line. prim. intros H. simplify_eq/=. cases; by left.
  - intros [= <-]. by left.
  - unfold select_timer. intros H. cases; by left.
  - unfold select_done, attempts. prim. intros H. simplify_eq/=.
    cases; left; rewrite ?omap_app; simpl; by rewrite ?app_nil_r.
  - unfold restart_Start. prim. destruct (starting s) as [|n] eqn:Hn; simpl.
    { intros [= <-]. by left. }
    destruct (Start e (with_starting n s)) as [r s1|] eqn:HS; [|done].
    destruct (Start_frame _ _ _ _ HS) as (_ & Hr & _).
    pose proof (Start_attempts _ _ _ _ HS) as Ha.
    unfold attempts in *. simpl in *.
    destruct r; intros [= <-]; simpl; left;
      rewrite ?omap_app; simpl; rewrite ?app_nil_r; by split.
  - unfold restart_clear. prim. intros H. simplify_eq/=. cases; by left.
Qed.

(** X16. The server log announces every automatic restart, once, with
    the number the counter takes: along every sequence of steps, the
    announcements added are those of the attempts [restarts + 1], ..., up
    to the final value of the counter, in that order, each with
    [max_restarts] as its maximum; so no announcement states an attempt
    above the maximum. *)
Theorem restarts_are_announced_in_order (ops : list Op) (s : St) :
  wf (inst s) → ints_ok (inst s) → bounded (inst s) →
  ∃ s', run ops s = Done tt s' ∧
    attempts s' =
      (attempts s ++
       ((λ a, (a, default 0 (restart_bound (inst s)))) <$>
         seqZ (restarts (inst s) + 1) (restarts (inst s') - restarts (inst s))))%list ∧
    Z.of_nat (length (attempts s')) =
      Z.of_nat (length (attempts s)) + (restarts (inst s') - restarts (inst s)) ∧
    ∀ a m, (a, m) ∈ drop (length (attempts s)) (attempts s') →
           restarts (inst s) < a ≤ m.
Proof.
  intros Hwf Hi Hb.
  assert (∃ s', run ops s = Done tt s' ∧
    restarts (inst s) ≤ restarts (inst s') ∧ bounded (inst s') ∧
    restart_bound (inst s') = restart_bound (inst s) ∧
    (restart_bound (inst s) = None → restarts (inst s') = restarts (inst s)) ∧
    attempts s' =
      (attempts s ++
       ((λ a, (a, default 0 (restart_bound (inst s)))) <$>
         seqZ (restarts (inst s) + 1) (restarts (inst s') - restarts (inst s))))%list)
    as (s' & HR & Hle & Hb' & Hrb & Hnone & Ha).
  { revert s Hwf Hi Hb. induction ops as [|op ops IH]; intros s Hwf Hi Hb.
    - exists s. simpl. split; [done|]. split; [lia|]. split; [done|]. split; [done|].
      split; [done|]. rewrite Z.sub_diag. simpl. by rewrite app_nil_r.
    - destruct (exec_wf op s Hwf) as (s1 & HS & Hwf1).
      destruct (exec_bounded _ _ _ HS Hi Hb) as (Hrb1 & Hi1 & Hb1 & Hle1).
      destruct (IH s1 Hwf1 Hi1 Hb1) as (s' & HR & Hle & Hb' & Hrb & Hnone & Ha).
      exists s'. simpl. unfold bind. rewrite HS.
      split; [done|]. split; [lia|]. split; [done|]. split; [congruence|].
      rewrite Ha, Hrb1.
      destruct (exec_attempts _ _ _ HS) as [[Hr1 Ha1]|(m & Hm & Hlt & Hr1 & Ha1)].
      + split; [|by rewrite Hr1, Ha1].
        intros Hn. rewrite <- Hr1. apply Hnone. congruence.
      + split; [congruence|].
        destruct Hi as [Hir Him]. specialize (Him m Hm).
        rewrite int_wrap_id in Hr1, Ha1 by (unfold is_int, min_int, max_int in *; lia).
        rewrite Ha1, Hr1, Hm. simpl. rewrite <- app_assoc. f_equal.
        rewrite (seqZ_cons (restarts (inst s) + 1)) by lia. simpl.
        do 3 f_equal; lia. }
  exists s'. split; [done|]. split; [done|]. split.
  - rewrite Ha, length_app, length_fmap, length_seqZ. lia.
  - intros a m. rewrite Ha, drop_app_length.
    intros (a' & [= -> ->] & Hin)%list_elem_of_fmap.
    apply elem_of_seqZ in Hin.
    destruct (restart_bound (inst s)) as [m|] eqn:Hm; simpl.
    + specialize (Hb' m). rewrite Hrb in Hb'. specialize (Hb' eq_refl). lia.
    + specialize (Hnone eq_refl). lia.
Qed.

(** ** A session: start, output, stop *)

Lemma run_app (l1 l2 : list Op) (s : St) :
  run (l1 ++ l2) s =
  match run l1 s with Done _ s1 => run l2 s1 | Panic => Panic end.
Proof.
  revert s. induction l1 as [|op l1 IH]; intros s; simpl; [done|].
  unfold bind. destruct (exec op s) as [[] s1|]; [apply IH|done].
Qed.

Lemma run_cons (op : Op) (ops : list Op) (s : St) :
  run (op :: ops) s =
  match exec op s with Done _ s1 => run ops s1 | Panic => Panic end.
Proof. done. Qed.

Lemma exec_OpStart (e : StartEnv) (s : St) :
  exec (OpStart e) s =
  match Start e s with Done _ s1 => Done tt s1 | Panic => Panic end.
Proof. done. Qed.

Lemma exec_OpStop (e : StopEnv) (s : St) :
  exec (OpStop e) s =
  match Stop e s with Done _ s1 => Done tt s1 | Panic => Panic end.
Proof. done. Qed.

Lemma written_cons (line : string) (lines : list string) :
  written (line :: lines) = (line +:+ nl) +:+ written lines.
Proof.
  unfold written. destruct lines as [|l lines]; simpl.
  - by rewrite append_empty_r.
  - done.
Qed.

Lemma with_files_id (s : St) : with_files (files s) s = s.
Proof. by destruct s. Qed.

(** The lines that [readOutput] gets while the log file is open go to its
    end, each with its newline. *)
Lemma run_output_open (f : File) (lines : list string) (s : St) (content : string) :
  fd f ∈ open_fds s → files s !! file_name f = Some content →
  run (OpOutput (Some f) <$> lines) s =
  Done tt (with_files (<[file_name f := content +:+ written lines]> (files s)) s).
Proof.
  revert s content. induction lines as [|line lines IH]; intros s content Hfd Hfile.
  - simpl. unfold ret. f_equal. unfold written. simpl.
    rewrite append_empty_r, insert_id by done. by rewrite with_files_id.
  - rewrite fmap_cons. simpl. unfold bind, readOutput_line, Fprintf.
    rewrite decide_True by done. rewrite Hfile. simpl.
    erewrite IH; [|done|apply lookup_insert_eq].
    unfold with_files. simpl. do 2 f_equal.
    rewrite insert_insert_eq. f_equal.
    by rewrite written_cons, append_assoc.
Qed.

(** Those that it gets once the log file is closed are lost. *)
Lemma run_output_closed (f : File) (lines : list string) (s : St) :
  fd f ∉ open_fds s → run (OpOutput (Some f) <$> lines) s = Done tt s.
Proof.
  intros Hfd. induction lines as [|line lines IH]; [done|].
  rewrite fmap_cons. simpl. unfold bind, readOutput_line, Fprintf.
  by rewrite decide_False.
Qed.

(** [Stop] on a running instance whose log file is open. *)
Lemma Stop_running_state (e : StopEnv) (s : St) (f : File) :
  Running (inst s) = true → is_Some (cancel (inst s)) → is_Some (cmd (inst s)) →
  logFile (inst s) = Some f → fd f ∈ open_fds s →
  ∃ s', Stop e s = Done None s' ∧
    files s' = <[file_name f := default "" (files s !! file_name f)
                 +:+ stopped_marker (Name (inst s)) (stop_now e)]> (files s) ∧
    ((fd f ∉ open_fds s') ∧
     ∀ n, n ∈ open_fds s → n ≠ fd f →
          stdout (inst s) ≠ Some n → stderr (inst s) ≠ Some n → n ∈ open_fds s') ∧
    Running (inst s') = false ∧ logFile (inst s') = None ∧
    Name (inst s') = Name (inst s) ∧ spawns s' = spawns s.
Proof.
  intros HR [c Hc] [k Hk] Hf Hfd.
  destruct (Stop e s) as [r s'|] eqn:HS; revert HS;
    unfold Stop, cmd_Wait, closeLogFile, spawns; prim; rewrite HR, Hc, Hk; simpl; intros HS.
  - cases; eexists; (split; [reflexivity|]); simpl;
      rewrite ?List.filter_app, ?length_app; simpl; repeat split; try done;
      try lia; try set_solver;
      intros n Hin Hne Hs1 Hs2;
      repeat match goal with
      | H : stdout (inst s) = Some ?p |- _ => assert (p ≠ n) by congruence; clear H
      | H : stderr (inst s) = Some ?p |- _ => assert (p ≠ n) by congruence; clear H
      end; set_solver.
  - cases.
Qed.

(** X17. One session.  The operator starts the instance, the child
    prints [lines], the operator stops the instance, and the readers
    still deliver [late] lines afterwards.  Then the log file holds what
    it held before, the started marker, the lines in order, each with its
    newline, and the stopped marker; the late lines are not in it; the
    file is closed, and one child was started. *)
Theorem session_log
    (e : StartEnv) (es : StopEnv) (s : St) (o : CreateInstanceOptions)
    (g : InstancesConfig) (lines late : list string) :
  Running (inst s) = false → options (inst s) = Some o →
  globalSettings (inst s) = Some g →
  open_err e = None → stdout_err e = None → stderr_err e = None → spawn_err e = None →
  let path := log_path g (Name (inst s)) in
  let f := {| fd := next_id s; file_name := path |} in
  ∃ s', run (OpStart e :: ((OpOutput (Some f) <$> lines) ++
             (OpStop es :: (OpOutput (Some f) <$> late)))) s = Done tt s' ∧
    files s' !! path =
      Some (default "" (files s !! path)
            +:+ started_marker (Name (inst s)) (start_now e)
            +:+ written lines
            +:+ stopped_marker (Name (inst s)) (stop_now es)) ∧
    Running (inst s') = false ∧ logFile (inst s') = None ∧
    (next_id s ∉ open_fds s') ∧ spawns s' = S (spawns s).
Proof.
  intros HR Ho Hg H1 H2 H3 H4 path f.
  rewrite run_cons, exec_OpStart, (Start_ok e s o g) by done.
  fold path. fold f.
  set (content := default "" (files s !! path)
                  +:+ started_marker (Name (inst s)) (start_now e)).
  match goal with |- context [run _ ?s1] => set (st1 := s1) end.
  rewrite run_app.
  rewrite (run_output_open f lines st1 content);
    [|subst st1; simpl; set_solver|subst st1; simpl; apply lookup_insert_eq].
  rewrite run_cons, exec_OpStop.
  match goal with |- context [Stop es ?s2] => set (st2 := s2) end.
  destruct (Stop_running_state es st2 f) as (s3 & HS & Hfiles & Hfds & HR3 & Hl3 & HN3 & Hsp3);
    try (subst st2 st1; simpl; first [done | by eexists | set_solver]).
  rewrite HS.
  assert (fd f ∉ open_fds s3) as Hclosed by apply Hfds.
  rewrite (run_output_closed f late s3 Hclosed).
  exists s3. split; [done|]. split; [|split; [done|split; [done|split; [done|]]]].
  - rewrite Hfiles. subst st2 st1. simpl. rewrite !lookup_insert_eq. simpl.
    subst content. by rewrite !append_assoc.
  - rewrite Hsp3. subst st2 st1. unfold spawns. simpl.
    rewrite List.filter_app, length_app. simpl. lia.
Qed.

(** ** Reading the log of an instance *)

(** X18. [GetLogs] needs the open log file of the instance: once [Stop]
    has stopped a running instance, or the monitor has seen its child
    exit, the log is still in its file, with the stopped marker at its
    end, and [GetLogs] fails with the error of a log file that was not
    created, whatever the number of lines asked for. *)
Theorem GetLogs_fails_once_stopped (s : St) (f : File) :
  Running (inst s) = true → is_Some (cancel (inst s)) → is_Some (cmd (inst s)) →
  logFile (inst s) = Some f → fd f ∈ open_fds s →
  (∀ e, ∃ s', Stop e s = Done None s' ∧
     files s' !! file_name f =
       Some (default "" (files s !! file_name f)
             +:+ stopped_marker (Name (inst s)) (stop_now e)) ∧
     ∀ n er, GetLogs n er s' = Done ("", Some (ELogNotCreated (Name (inst s)))) s') ∧
  (∀ err ts, ∃ s', monitorProcess err ts s = Done tt s' ∧
     files s' !! file_name f =
       Some (default "" (files s !! file_name f)
             +:+ stopped_marker (Name (inst s)) ts) ∧
     ∀ n er, GetLogs n er s' = Done ("", Some (ELogNotCreated (Name (inst s)))) s').
Proof.
  intros HR Hc Hk Hf Hfd. split.
  - intros e.
    destruct (Stop_running_state e s f HR Hc Hk Hf Hfd)
      as (s' & HS & Hfiles & _ & _ & Hl & HN & _).
    exists s'. split; [done|]. split; [by rewrite Hfiles, lookup_insert_eq|].
    intros n er. unfold GetLogs. prim. by rewrite Hl, HN.
  - intros err ts.
    destruct (monitorProcess_total err ts s) as [s' HS].
    exists s'. split; [done|].
    assert (files s' !! file_name f =
              Some (default "" (files s !! file_name f)
                    +:+ stopped_marker (Name (inst s)) ts) ∧
            logFile (inst s') = None ∧ Name (inst s') = Name (inst s))
      as (Hfiles & Hl & HN).
    { revert HS.
      unfold monitorProcess, handleRestart, validateRestartConditions, closeLogFile.
      prim. rewrite HR. simpl. intros HS.
      cases; by rewrite lookup_insert_eq. }
    split; [done|]. intros n er. unfold GetLogs. prim. by rewrite Hl, HN.
Qed.

(** The pieces around a newline. *)
Lemma segments_app_nl (a b : string) :
  segments (a +:+ nl +:+ b) = (segments a ++ segments b)%list.
Proof.
  pose proof (segments_length b) as Hb.
  induction a as [|c a IH].
  - change (segments (String "010" b) = ("" :: segments b)).
    simpl. destruct (segments b); [simpl in Hb; lia|done].
  - change (segments (String c (a +:+ nl +:+ b)) =
            (segments (String c a) ++ segments b)%list).
    simpl. rewrite IH. pose proof (segments_length a) as Ha.
    destruct (segments a) as [|seg rest]; [simpl in Ha; lia|]. simpl.
    by destruct (Ascii.eqb c "010").
Qed.

(** The pieces of what [readOutput] wrote are the lines and the empty
    piece after the last newline. *)
Lemma segments_written (lines : list string) :
  Forall (λ line, segments line = [line]) lines →
  segments (written lines) = (lines ++ [""])%list.
Proof.
  induction 1 as [|line lines Hline _ IH]; [done|].
  rewrite written_cons, append_assoc, segments_app_nl, Hline, IH. done.
Qed.

Lemma started_marker_ends (name ts : string) :
  started_marker name ts =
  (nl +:+ "=== Instance " +:+ name +:+ " started at " +:+ ts +:+ " ===") +:+ nl.
Proof. unfold started_marker. by rewrite !append_assoc. Qed.

Lemma log_path_not_empty (g : InstancesConfig) (name : string) :
  String.eqb (log_path g name) "" = false.
Proof. unfold log_path. by destruct (LogDirectory g). Qed.

(** X19. What the child prints, [GetLogs] reads back.  After [Start] the
    child prints [lines] (each one line, without carriage return at its
    end, as the scanner of [readOutput] hands them on); then [GetLogs n],
    for [n] from 1 to the number of lines, returns the last [n] of these
    lines joined by newlines, whatever the log file held before, as long
    as no line of the file exceeds the buffer of the scanner. *)
Theorem GetLogs_reads_back_output
    (e : StartEnv) (er : ReadEnv) (s : St) (o : CreateInstanceOptions)
    (g : InstancesConfig) (lines : list string) (n : Z) :
  Running (inst s) = false → options (inst s) = Some o →
  globalSettings (inst s) = Some g →
  open_err e = None → stdout_err e = None → stderr_err e = None → spawn_err e = None →
  os_Open_err er = None → read_err er = None →
  Forall (λ line, segments line = [line] ∧ dropCR line = line) lines →
  1 ≤ n ≤ Z.of_nat (length lines) →
  let path := log_path g (Name (inst s)) in
  let f := {| fd := next_id s; file_name := path |} in
  let content := default "" (files s !! path)
                 +:+ started_marker (Name (inst s)) (start_now e)
                 +:+ written lines in
  token_too_long content = false →
  is_int (Z.of_nat (String.length content)) →
  ∃ s', run (OpStart e :: (OpOutput (Some f) <$> lines)) s = Done tt s' ∧
    files s' !! path = Some content ∧
    GetLogs n er s' = Done (String.concat nl (last_n n lines), None) s'.
Proof.
  intros HR Ho Hg H1 H2 H3 H4 H5 H6 Hlines Hn path f content Hlong Hint.
  rewrite run_cons, exec_OpStart, (Start_ok e s o g) by done.
  fold path. fold f.
  match goal with |- context [run _ ?s1] => set (st1 := s1) end.
  rewrite (run_output_open f lines st1
             (default "" (files s !! path)
              +:+ started_marker (Name (inst s)) (start_now e)));
    [|subst st1; simpl; set_solver|subst st1; simpl; apply lookup_insert_eq].
  rewrite append_assoc. fold content.
  eexists. split; [reflexivity|]. simpl. rewrite lookup_insert_eq.
  split; [done|].
  unfold GetLogs, os_Open, scan_all. prim. simpl.
  fold path.
  assert (String.eqb path "" = false) as Hpath by apply log_path_not_empty.
  rewrite Hpath, H5. simpl. rewrite lookup_insert_eq, H6. fold content. rewrite Hlong.
  destruct (Z.leb_spec n 0) as [?|_]; [lia|].
  do 3 f_equal.
  (* the lines of the file are those of before, the marker, and [lines] *)
  assert (∃ before, scan_lines content = (before ++ lines)%list) as [before Hsc].
  { unfold scan_lines. subst content.
    rewrite started_marker_ends, <- !append_assoc, (append_assoc _ nl).
    rewrite segments_app_nl, segments_written
      by (eapply Forall_impl; [exact Hlines|by intros ? [? _]]).
    rewrite app_assoc, last_last. simpl. rewrite removelast_last, map_app.
    eexists. f_equal. apply map_dropCR_id.
    eapply Forall_impl; [exact Hlines|by intros ? [_ ?]]. }
  pose proof (scan_lines_length content) as Hl.
  rewrite Hsc in *. rewrite length_app in *.
  rewrite int_wrap_id by (unfold is_int, min_int, max_int in *; lia).
  unfold last_n.
  replace (Z.to_nat (Z.max (Z.of_nat (length before + length lines) - n) 0))
    with (length before + (length lines - Z.to_nat n))%nat by lia.
  by rewrite drop_app_add'.
Qed.

(** ** New options, and two races of the restart *)

(** X20. [SetOptions] neither stops nor starts anything: the running
    child stays, with the command line it was started with, and a [Start]
    on the running instance is still refused.  The new options take
    effect at the next start: on a stopped instance, the [Start] that
    follows starts the command built from the new options. *)
Theorem SetOptions_takes_effect_at_next_Start
    (s : St) (o : CreateInstanceOptions) (e : StartEnv) (g : InstancesConfig) :
  globalSettings (inst s) = Some g →
  open_err e = None → stdout_err e = None → stderr_err e = None → spawn_err e = None →
  ∃ s1, SetOptions (Some o) s = Done tt s1 ∧
    out s1 = out s ∧ Running (inst s1) = Running (inst s) ∧
    cmd (inst s1) = cmd (inst s) ∧ cancelled s1 = cancelled s ∧
    (Running (inst s) = true →
     Start e s1 = Done (Some (EAlreadyRunning (Name (inst s)))) s1) ∧
    (Running (inst s) = false →
     ∃ s2 c, Start e s1 = Done None s2 ∧
       out s2 = (out s ++ [Spawn c])%list ∧ cmd (inst s2) = Some c ∧
       cmd_args c = BuildCommandArgs (embedded o) ∧ Running (inst s2) = true).
Proof.
  intros Hg H1 H2 H3 H4. rewrite SetOptions_Some.
  eexists. split; [reflexivity|]. simpl. do 4 (split; [done|]). split.
  - intros HR. unfold Start. prim. simpl. by rewrite HR.
  - intros HR. eexists _, _. split; [by apply (Start_ok e _ o g)|]. by simpl.
Qed.

(** X21. The last critical section of [handleRestart] sets
    [restartCancel] to nil whatever it holds.  When the restarted child
    has crashed in between, it holds the cancel function of the next
    restart, which sleeps: that one is then out of reach.  The [Stop] that
    follows finds nothing to cancel and returns the not-running error, the
    timer wakes the goroutine, and it starts the instance again. *)
Theorem restart_clear_forgets_pending_restart
    (s : St) (c : nat) (d : Z) (n : nat) (e : StopEnv) :
  clearing s = S n → Running (inst s) = false →
  restartCancel (inst s) = Some c → parked s !! c = Some d → c ∉ cancelled s →
  ∃ s1 s2, restart_clear s = Done tt s1 ∧ restartCancel (inst s1) = None ∧
    Stop e s1 = Done (Some (ENotRunning (Name (inst s)))) s1 ∧
    (c ∉ cancelled s1) ∧
    select_timer c s1 = Done tt s2 ∧ starting s2 = S (starting s) ∧
    ∀ es o g, options (inst s) = Some o → globalSettings (inst s) = Some g →
      open_err es = None → stdout_err es = None → stderr_err es = None →
      spawn_err es = None →
      ∃ s3, restart_Start es s2 = Done tt s3 ∧ Running (inst s3) = true ∧
            spawns s3 = S (spawns s).
Proof.
  intros Hcl HR Hrc Hp Hc.
  unfold restart_clear. prim. rewrite Hcl.
  eexists _, _. split; [reflexivity|]. split; [done|]. split.
  { unfold Stop. prim. simpl. by rewrite HR. }
  split; [done|]. split.
  { unfold select_timer. simpl. rewrite Hp. by rewrite decide_False. }
  split; [done|].
  intros es o g Ho Hg H1 H2 H3 H4.
  unfold restart_Start. prim. simpl.
  erewrite (Start_ok es _ o g) by done.
  eexists. split; [reflexivity|]. split; [done|].
  unfold spawns. simpl. rewrite !List.filter_app, !length_app. simpl. lia.
Qed.

(** X22. After a [Start] that failed because the process could not be
    started, the operator tries again and succeeds.  The log file is then
    opened a second time: it shows two started markers in a row, the
    instance holds the second descriptor, and the first one stays open,
    also after the [Stop] that follows, which closes the second. *)
Theorem retry_after_failed_spawn
    (e1 e2 : StartEnv) (es : StopEnv) (s : St) (o : CreateInstanceOptions)
    (g : InstancesConfig) (err : error) :
  Running (inst s) = false → options (inst s) = Some o →
  globalSettings (inst s) = Some g →
  open_err e1 = None → stdout_err e1 = None → stderr_err e1 = None →
  spawn_err e1 = Some err →
  open_err e2 = None → stdout_err e2 = None → stderr_err e2 = None →
  spawn_err e2 = None →
  let path := log_path g (Name (inst s)) in
  ∃ s1 s2 s3 f2,
    Start e1 s = Done (Some (EStartInstance (Name (inst s)) err)) s1 ∧
    Start e2 s1 = Done None s2 ∧
    logFile (inst s2) = Some f2 ∧ fd f2 ≠ next_id s ∧ file_name f2 = path ∧
    next_id s ∈ open_fds s2 ∧ fd f2 ∈ open_fds s2 ∧
    files s2 !! path =
      Some (default "" (files s !! path)
            +:+ started_marker (Name (inst s)) (start_now e1)
            +:+ started_marker (Name (inst s)) (start_now e2)) ∧
    Stop es s2 = Done None s3 ∧ logFile (inst s3) = None ∧
    next_id s ∈ open_fds s3 ∧ (fd f2 ∉ open_fds s3).
Proof.
  intros HR Ho Hg H1 H2 H3 H4 G1 G2 G3 G4 path.
  assert (∃ s1, Start e1 s = Done (Some (EStartInstance (Name (inst s)) err)) s1 ∧
    Running (inst s1) = false ∧ options (inst s1) = Some o ∧
    globalSettings (inst s1) = Some g ∧ Name (inst s1) = Name (inst s) ∧
    next_id s1 = S (S (S (S (next_id s)))) ∧ next_id s ∈ open_fds s1 ∧
    files s1 !! path =
      Some (default "" (files s !! path)
            +:+ started_marker (Name (inst s)) (start_now e1)))
    as (s1 & HS1 & HR1 & Ho1 & Hg1 & HN1 & Hn1 & Hfd1 & Hf1).
  { unfold Start, createLogFile, cmd_Start. prim.
    rewrite HR, Ho. simpl. rewrite Hg, H1. simpl.
    rewrite decide_True by set_solver. simpl.
    rewrite H2. simpl. rewrite H3. simpl. rewrite H4. simpl.
    eexists. split; [reflexivity|]. simpl.
    repeat split; try done.
    - set_solver by lia.
    - subst path. unfold log_path. by rewrite !lookup_insert_eq. }
  pose proof (Start_ok e2 s1 o g HR1 Ho1 Hg1 G1 G2 G3 G4) as HS2.
  simpl in HS2. rewrite HN1 in HS2. fold path in HS2.
  match type of HS2 with _ = Done None ?st => set (s2 := st) in * end.
  destruct (Stop_running_state es s2 {| fd := next_id s1; file_name := path |})
    as (s3 & HS3 & _ & Hfds3 & _ & Hl3 & _);
    try (subst s2; simpl; first [done | by eexists | set_solver]).
  exists s1, s2, s3, {| fd := next_id s1; file_name := path |}.
  split; [done|]. split; [done|]. split; [done|]. simpl.
  split; [lia|]. split; [done|].
  split; [subst s2; simpl; set_solver|]. split; [subst s2; simpl; set_solver|].
  split.
  { subst s2. simpl. rewrite lookup_insert_eq, Hf1. simpl. by rewrite append_assoc. }
  split; [done|]. split; [done|]. split; [|exact (proj1 Hfds3)].
  apply (proj2 Hfds3); subst s2; simpl; rewrite ?Hn1;
    first [set_solver | lia | (intros [=]; lia)].
Qed.

(** X23. [GetLogs] never changes anything and returns an empty text with
    every error.  It succeeds exactly when the instance holds its log
    file, the file can be opened and read, and, when a number of lines is
    asked for, no line of the file reaches the 64 KiB of the buffer of the
    scanner; so a file with such a line can be read whole, with [n ≤ 0],
    and not by lines. *)
Theorem GetLogs_succeeds_iff (n : Z) (er : ReadEnv) (s : St) :
  ∃ text r, GetLogs n er s = Done (text, r) s ∧
    (is_Some r → text = "") ∧
    (r = None ↔
     ∃ f content, logFile (inst s) = Some f ∧ file_name f ≠ "" ∧
       os_Open_err er = None ∧ files s !! file_name f = Some content ∧
       read_err er = None ∧ (0 < n → token_too_long content = false)) ∧
    (∀ f content, logFile (inst s) = Some f → file_name f ≠ "" →
       os_Open_err er = None → files s !! file_name f = Some content →
       read_err er = None → token_too_long content = true →
       if n <=? 0 then text = content ∧ r = None
       else r = Some (EReadingFile ErrTooLong)).
Proof.
  destruct (GetLogs n er s) as [[text r] s'|] eqn:HG; revert HG;
    unfold GetLogs, os_Open, scan_all; prim; intros HG.
  2: { cases. }
  assert (s' = s) as -> by cases.
  exists text, r. split; [done|].
  cases;
    repeat match goal with
    | H : (_ <=? _) = true |- _ => apply Z.leb_le in H
    | H : (_ <=? _) = false |- _ => apply Z.leb_gt in H
    | H : String.eqb _ _ = true |- _ => apply String.eqb_eq in H
    | H : String.eqb _ _ = false |- _ => apply String.eqb_neq in H
    end;
    (split; [by intros [? ?]|]);
    (split; [split; [try done; intros _; eexists _, _; repeat split; eauto; intros; lia
                    |try done; intros (f' & content' & ? & ? & ? & ? & ? & Hl);
                     simplify_eq; first [done | congruence | (specialize (Hl ltac:(lia)); congruence)]]|]);
    intros f' content' ? ? ? ? ? ?; simplify_eq;
    first [done | congruence | (destruct (Z.leb_spec n 0); first [lia | done | congruence])].
Qed.

(** ** Reading the log, in full *)

Lemma no_newline_tail (c : ascii) (line : string) :
  no_newline (String c line) → no_newline line.
Proof. intros H a b ->. by apply (H (String c a) b). Qed.

Lemma no_newline_segments (line : string) :
  no_newline line → segments line = [line].
Proof.
  induction line as [|c line IH]; [done|]. intros H. simpl.
  rewrite IH by by eapply no_newline_tail.
  destruct (Ascii.eqb_spec c "010"%char) as [->|_]; [|done].
  by destruct (H "" line).
Qed.

Lemma segments_no_newline (content : string) :
  Forall no_newline (segments content).
Proof.
  induction content as [|c content IH]; simpl.
  - constructor; [|done]. by intros [|? ?] ?.
  - destruct (segments content) as [|seg rest]; [done|].
    apply Forall_cons in IH as [Hseg Hrest].
    destruct (Ascii.eqb_spec c "010"%char) as [->|Hc].
    + constructor; [by intros [|? ?] ?|by constructor].
    + constructor; [|done]. intros [|x a] b.
      * intros [= -> _]. done.
      * intros [= _ ->]. by apply (Hseg a b).
Qed.

Lemma no_final_cr_dropCR (line : string) :
  no_final_cr line → dropCR line = line.
Proof.
  induction line as [|c line IH]; [done|]. intros H.
  destruct line as [|c' line].
  - simpl. destruct (Ascii.eqb_spec c cr) as [->|_]; [|done].
    by destruct (H "").
  - change (String c (dropCR (String c' line)) = String c (String c' line)).
    rewrite IH; [done|]. intros a Ha. apply (H (String c a)).
    by rewrite Ha.
Qed.

(** [GetLogs] on a log file that can be opened and read. *)
Lemma GetLogs_readable
    (s : St) (f : File) (content : string) (n : Z) (e : ReadEnv) :
  logFile (inst s) = Some f → file_name f ≠ "" →
  files s !! file_name f = Some content →
  os_Open_err e = None → read_err e = None →
  is_int n → is_int (Z.of_nat (String.length content)) →
  GetLogs n e s =
    Done (if n <=? 0 then (content, None)
          else if token_too_long content
               then ("", Some (EReadingFile ErrTooLong))
               else (String.concat nl (last_n n (scan_lines content)), None)) s.
Proof.
  intros Hf Hname Hfile Hopen Hread Hn Hlen.
  unfold GetLogs, os_Open, scan_all. prim. rewrite Hf.
  destruct (String.eqb_spec (file_name f) "") as [?|_]; [done|].
  rewrite Hopen, Hfile, Hread.
  destruct (Z.leb_spec n 0) as [?|Hpos]; [done|].
  destruct (token_too_long content); [done|].
  do 3 f_equal. unfold last_n. f_equal.
  pose proof (scan_lines_length content) as Hl.
  rewrite int_wrap_id by (unfold is_int, min_int, max_int in *; lia). lia.
Qed.

Lemma length_append (a b : string) :
  String.length (a +:+ b) = (String.length a + String.length b)%nat.
Proof.
  induction a as [|c a IH]; [done|].
  change (S (String.length (a +:+ b)) = S (String.length a + String.length b)).
  by rewrite IH.
Qed.

(** The file that holds one line of [k] bytes and its newline. *)
Lemma line_of_length (k : nat) : String.length (line_of k) = k.
Proof. induction k as [|k IH]; simpl; congruence. Qed.

Lemma line_of_segments (k : nat) : segments (line_of k) = [line_of k].
Proof. induction k as [|k IH]; [done|]. simpl. by rewrite IH. Qed.

Lemma line_of_dropCR (k : nat) : dropCR (line_of k) = line_of k.
Proof.
  induction k as [|k IH]; [done|]. destruct k as [|k]; [done|].
  change (String "x" (dropCR (line_of (S k))) = String "x" (line_of (S k))).
  by rewrite IH.
Qed.

Lemma line_of_file_segments (k : nat) :
  segments (line_of k +:+ nl) = [line_of k; ""].
Proof.
  change (line_of k +:+ nl) with (line_of k +:+ nl +:+ "").
  by rewrite segments_app_nl, line_of_segments.
Qed.

Lemma line_of_too_long (k : nat) :
  token_too_long (line_of k +:+ nl) = (65536 <=? Z.of_nat k).
Proof.
  unfold token_too_long. rewrite line_of_file_segments.
  cbn [existsb]. rewrite line_of_length. unfold MaxScanTokenSize.
  change (String.length "") with 0%nat.
  destruct (Z.leb_spec (64 * 1024) (Z.of_nat k)), (Z.leb_spec 65536 (Z.of_nat k));
    try lia; done.
Qed.

Lemma line_of_scan_lines (k : nat) : scan_lines (line_of k +:+ nl) = [line_of k].
Proof.
  unfold scan_lines. rewrite line_of_file_segments.
  cbn [List.last removelast map]. change (String.eqb "" "") with true.
  cbn [removelast map]. by rewrite line_of_dropCR.
Qed.

(** C9, as the code has it.  For an instance whose log file is known and
    can be opened and read: [GetLogs n] returns the whole content of the
    file when [n ≤ 0]; for [n > 0] it fails with the error of the scanner,
    and returns no text, when a line of the file has 65536 bytes or more,
    and else returns the last [n] lines of the file joined by newlines,
    which are all its lines when it has at most [n]; the instance is left
    as it was.  The lines are the pieces of the content between its
    newlines (a carriage return at the end of a piece is dropped, and so
    is the empty piece after the last newline): a file in which each of
    [lines] is followed by a newline has the lines [lines]. *)
Theorem GetLogs_returns_last_lines
    (s : St) (f : File) (content : string) (n : Z) (e : ReadEnv) :
  logFile (inst s) = Some f → file_name f ≠ "" →
  files s !! file_name f = Some content →
  os_Open_err e = None → read_err e = None →
  is_int n → is_int (Z.of_nat (String.length content)) →
  GetLogs n e s =
    Done (if n <=? 0 then (content, None)
          else if token_too_long content
               then ("", Some (EReadingFile ErrTooLong))
               else (String.concat nl (last_n n (scan_lines content)), None)) s ∧
  (String.concat nl (segments content) = content ∧
   Forall no_newline (segments content) ∧
   (token_too_long content = true ↔
    ∃ seg, seg ∈ segments content ∧ 65536 ≤ Z.of_nat (String.length seg))) ∧
  last_n n (scan_lines content) `suffix_of` scan_lines content ∧
  length (last_n n (scan_lines content)) =
    Nat.min (Z.to_nat n) (length (scan_lines content)) ∧
  (Z.of_nat (length (scan_lines content)) ≤ n →
   last_n n (scan_lines content) = scan_lines content ∧
   (Forall (λ seg, dropCR seg = seg) (segments content) →
    content = String.concat nl (last_n n (scan_lines content)) ∨
    content = String.concat nl (last_n n (scan_lines content)) +:+ nl)) ∧
  (∀ lines, Forall (λ line, no_newline line ∧ no_final_cr line) lines →
     content = written lines → scan_lines content = lines).
Proof.
  intros Hf Hname Hfile Hopen Hread Hn Hlen.
  split; [|split; [|split; [apply last_n_suffix|split; [apply last_n_length|split]]]].
  - by apply (GetLogs_readable s f content n e).
  - split; [apply concat_segments|]. split; [apply segments_no_newline|].
    unfold token_too_long, MaxScanTokenSize. rewrite existsb_exists.
    split.
    + intros (seg & Hin & Hle). exists seg. split; [by apply list_elem_of_In|].
      apply Z.leb_le in Hle. lia.
    + intros (seg & Hin & Hle). exists seg. split; [by apply list_elem_of_In|].
      apply Z.leb_le. lia.
  - intros Hall. rewrite last_n_all by done. split; [done|].
    apply scan_lines_join.
  - intros lines Hlines ->. unfold scan_lines.
    rewrite segments_written
      by (eapply Forall_impl; [exact Hlines|];
          intros ? [? _]; by apply no_newline_segments).
    rewrite last_last. simpl. rewrite removelast_last.
    apply map_dropCR_id.
    eapply Forall_impl; [exact Hlines|]. intros ? [_ ?]. by apply no_final_cr_dropCR.
Qed.

(** ** Stop, Start, and the monitor of the stopped child *)

(** The contexts that [Stop] cancels. *)
Lemma Stop_cancelled (e : StopEnv) (s s' : St) r :
  Stop e s = Done r s' →
  next_id s' = next_id s ∧
  ∀ c, c ∈ cancelled s' →
       c ∈ cancelled s ∨ cancel (inst s) = Some c ∨ restartCancel (inst s) = Some c.
Proof.
  unfold Stop, cmd_Wait, closeLogFile. prim.
  destruct (Running (inst s)) eqn:HR; simpl; intros H; cases;
    (split; [done|]); intros ctx0 Hctx0; set_unfold; naive_solver.
Qed.

(** The monitor that finds the instance running closes the log file that
    the instance holds. *)
Lemma monitorProcess_closes_log (err : option error) (ts : string) (s s' : St) :
  Running (inst s) = true → monitorProcess err ts s = Done tt s' →
  logFile (inst s') = None ∧
  ∀ f, logFile (inst s) = Some f → fd f ∉ open_fds s'.
Proof.
  intros HR.
  unfold monitorProcess, handleRestart, validateRestartConditions, closeLogFile.
  prim. rewrite HR. simpl. intros H.
  cases; (split; [done|]); intros f' ?; simplify_eq; set_solver.
Qed.

(** C7, on the code.  The monitor of a child tells an exit that [Stop]
    caused from a crash by [Running] alone.  When the operator starts the
    instance again after a [Stop] that returned nil, before the monitor of
    the stopped child has taken the lock, that monitor finds [Running]
    true: it takes the exit of the stopped child for a crash of the
    running instance, sets [Running] to false, closes the log file of the
    new child, counts one restart and schedules it; nothing cancels that
    restart, its timer fires and [Start] starts one more child.  So the
    exit that [Stop] caused is restarted automatically, and the instance
    has started two children since the [Stop], one of them by the
    restart. *)
Theorem Stop_then_Start_restarts_for_old_exit
    (s : St) (es : StopEnv) (e1 e2 : StartEnv) (err : error) (ts : string)
    (o : CreateInstanceOptions) (g : InstancesConfig) (m d : Z) :
  Running (inst s) = true → is_Some (cancel (inst s)) → is_Some (cmd (inst s)) →
  options (inst s) = Some o → globalSettings (inst s) = Some g →
  AutoRestart o = Some true → MaxRestarts o = Some m → RestartDelay o = Some d →
  restarts (inst s) < m → contexts_made s →
  open_err e1 = None → stdout_err e1 = None → stderr_err e1 = None →
  spawn_err e1 = None →
  open_err e2 = None → stdout_err e2 = None → stderr_err e2 = None →
  spawn_err e2 = None →
  ∃ s1 s2 s3 s4 s5 c,
    Stop es s = Done None s1 ∧
    Start e1 s1 = Done None s2 ∧
    monitorProcess (Some err) ts s2 = Done tt s3 ∧
    Running (inst s2) = true ∧ spawns s2 = S (spawns s) ∧
    Running (inst s3) = false ∧ logFile (inst s3) = None ∧
    restarts (inst s3) = int_wrap (restarts (inst s) + 1) ∧
    restartCancel (inst s3) = Some c ∧ (c ∉ cancelled s3) ∧
    is_Some (parked s3 !! c) ∧
    select_timer c s3 = Done tt s4 ∧ starting s4 = S (starting s) ∧
    restart_Start e2 s4 = Done tt s5 ∧
    Running (inst s5) = true ∧ spawns s5 = S (S (spawns s)) ∧
    run [OpStop es; OpStart e1; OpChildExit (Some err) ts; OpTimer c; OpRestart e2] s
      = Done tt s5.
Proof.
  intros HR Hcan Hcmd Ho Hg Ha Hm Hd Hlt (Hk1 & Hk2 & Hk3) E1 E2 E3 E4 F1 F2 F3 F4.
  (* Stop *)
  destruct (Stop_wf es s) as (r & s1 & HS1 & _).
  { split; [by eexists|done]. }
  destruct (Stop_frame _ _ _ _ HS1)
    as (Ho1 & Hr1 & Hg1 & _ & _ & _ & HR1 & Hrc1 & Hp1 & Hst1 & _ & Hsp1 & _ & _ & Hiff).
  assert (r = None) as -> by by apply Hiff.
  destruct (Stop_cancelled _ _ _ _ HS1) as [Hn1 Hc1].
  (* the operator's Start *)
  pose proof (Start_ok e1 s1 o g HR1 ltac:(congruence) ltac:(congruence) E1 E2 E3 E4) as HS2.
  simpl in HS2.
  match type of HS2 with _ = Done None ?st => set (s2 := st) in * end.
  assert (Running (inst s2) = true) as HR2 by done.
  (* the monitor of the stopped child *)
  destruct (monitorProcess_crash s2 err ts HR2) as (s3 & HS3 & Hc3 & Hdec).
  destruct (monitorProcess_frame _ _ _ _ HS3)
    as (Ho3 & Hg3 & _ & _ & _ & HR3 & Hst3 & _ & Hsp3 & _).
  destruct (monitorProcess_closes_log _ _ _ _ HR2 HS3) as [Hl3 _].
  destruct Hdec as [(o' & m' & d' & Ho' & _ & Hm' & Hd' & _ & Hr3 & Hrc3 & Hp3 & _)
                   |(Hn & _)].
  2: { exfalso. apply Hn. exists o, m, d. subst s2. simpl.
       repeat split; try done; congruence. }
  assert (next_id s2 ∉ cancelled s3) as Hfresh.
  { rewrite Hc3. subst s2. simpl. rewrite Hrc1. simpl.
    intros Hin. apply elem_of_union in Hin as [Hin|Hin]; [set_solver|].
    rewrite Hn1 in Hin. destruct (Hc1 _ Hin) as [Hin'|[Hin'|Hin']].
    - apply Hk1 in Hin'. lia.
    - apply Hk2 in Hin'. lia.
    - apply Hk3 in Hin'. lia. }
  assert (select_timer (next_id s2) s3
          = Done tt (with_starting (S (starting s3))
                       (with_parked (delete (next_id s2) (parked s3)) s3))) as HS4.
  { unfold select_timer. rewrite Hp3, lookup_insert_eq. by rewrite decide_False. }
  set (s4 := with_starting (S (starting s3))
               (with_parked (delete (next_id s2) (parked s3)) s3)) in *.
  (* the restart *)
  pose proof (Start_ok e2 (with_starting (starting s3) s4) o g) as HS5.
  simpl in HS5. specialize (HS5 HR3).
  rewrite Ho3 in HS5. rewrite Hg3 in HS5.
  specialize (HS5 ltac:(subst s2; simpl; congruence)
                  ltac:(subst s2; simpl; congruence) F1 F2 F3 F4).
  assert (∃ s5, restart_Start e2 s4 = Done tt s5 ∧ Running (inst s5) = true ∧
                spawns s5 = S (spawns s3)) as (s5 & HS5' & HR5 & Hsp5).
  { unfold restart_Start. prim. simpl. rewrite HS5.
    eexists. split; [reflexivity|]. split; [done|].
    unfold spawns. simpl. rewrite !List.filter_app, !length_app. simpl. lia. }
  assert (spawns s2 = S (spawns s)) as Hsp2.
  { rewrite <- Hsp1. subst s2. unfold spawns. simpl.
    rewrite List.filter_app, length_app. simpl. lia. }
  exists s1, s2, s3, s4, s5, (next_id s2).
  split; [done|]. split; [done|]. split; [done|]. split; [done|].
  split; [done|]. split; [done|]. split; [done|].
  split; [rewrite Hr3; subst s2; simpl; by rewrite Hr1|].
  split; [done|]. split; [done|].
  split; [rewrite Hp3, lookup_insert_eq; by eexists|].
  split; [done|].
  split; [subst s4; simpl; rewrite Hst3; subst s2; simpl; by rewrite Hst1|].
  split; [done|]. split; [done|]. split; [lia|].
  rewrite run_cons, exec_OpStop, HS1, run_cons, exec_OpStart, HS2, run_cons.
  change (exec (OpChildExit (Some err) ts) s2)
    with (monitorProcess (Some err) ts s2).
  rewrite HS3, run_cons.
  change (exec (OpTimer (next_id s2)) s3) with (select_timer (next_id s2) s3).
  rewrite HS4, run_cons.
  change (exec (OpRestart e2) s4) with (restart_Start e2 s4).
  by rewrite HS5'.
Qed.

End MoreProofs.

(** ** The further statements at the demo instance *)

Lemma demo_running_wf : wf (inst demo_running).
Proof. split; vm_compute; [by eexists|]. intros _. split; by eexists. Defined.

Lemma NewInstance_complete_idempotent_witness :
  NewInstance "copy" demo_config (options demo_instance)
  = (with_Name "copy" demo_instance, []).
Proof.
  destruct (NewInstance_complete_idempotent "small" "copy" demo_config
              (Some demo_options)) as (_ & _ & _ & _ & _ & _ & _ & _ & H).
  apply H; left; by eexists.
Defined.

Lemma NewInstance_warns_iff_changed_witness :
  (NewInstance "small" demo_config (Some demo_options)).2 = [] ∧
  (NewInstance "wild" demo_config (Some wild_options)).2 ≠ [].
Proof.
  split.
  - apply (proj1 (NewInstance_warns_iff_changed "small" demo_config demo_options)).
    split; intros x [= <-]; lia.
  - intros H.
    apply (proj1 (NewInstance_warns_iff_changed "wild" demo_config wild_options)) in H.
    destruct H as [Hm _]. specialize (Hm 500 eq_refl). lia.
Defined.

Lemma Start_refusals_change_nothing_witness :
  Start env_ok demo_running
  = Done (Some (EAlreadyRunning (Name (inst demo_running)))) demo_running.
Proof.
  exact (proj1 (Start_refusals_change_nothing env_ok demo_running)
           ltac:(vm_compute; reflexivity)).
Defined.

Lemma Start_succeeds_iff_witness :
  ∃ s', Start env_ok demo_init = Done None s' ∧
        Running (inst s') = true ∧ spawns s' = S (spawns demo_init).
Proof.
  destruct (Start_succeeds_iff env_ok demo_init demo_config eq_refl)
    as (r & s' & HS & Hiff & Hok & _).
  assert (r = None) as -> by (apply Hiff; repeat split; by eexists).
  destruct (Hok eq_refl) as (HR & Hsp & _).
  exists s'. split; [exact HS|]. split; [exact HR|exact Hsp].
Defined.

Lemma Stop_twice_witness :
  Stop env_stop demo_stopped
  = Done (Some (ENotRunning (Name (inst demo_running)))) demo_stopped.
Proof.
  exact (Stop_twice env_stop env_stop demo_running demo_stopped None
           ltac:(vm_compute; reflexivity)).
Defined.

Lemma Stop_running_effects_witness :
  (∃ s' k, Stop env_kill demo_running = Done None s' ∧
           cmd (inst demo_running) = Some k ∧
           out s' = (out demo_running ++ [Kill k])%list ∧
           (0%nat ∉ open_fds s') ∧ 2%nat ∈ open_fds s' ∧ 3%nat ∈ open_fds s') ∧
  (∃ s', Stop env_stop demo_running = Done None s' ∧
         out s' = (out demo_running ++ [])%list ∧
         (0%nat ∉ open_fds s') ∧ (2%nat ∉ open_fds s') ∧ (3%nat ∉ open_fds s')).
Proof.
  split.
  - destruct (Stop_running_effects env_kill demo_running _ _
                ltac:(vm_compute; reflexivity) ltac:(vm_compute; reflexivity)
                ltac:(vm_compute; reflexivity))
      as (s' & HS & _ & Hout & Hfds & _).
    eexists s', _. split; [exact HS|]. split; [vm_compute; reflexivity|].
    split; [exact Hout|]. rewrite Hfds. by vm_compute.
  - destruct (Stop_running_effects env_stop demo_running _ _
                ltac:(vm_compute; reflexivity) ltac:(vm_compute; reflexivity)
                ltac:(vm_compute; reflexivity))
      as (s' & HS & _ & Hout & Hfds & _).
    exists s'. split; [exact HS|]. split; [exact Hout|].
    rewrite Hfds. by vm_compute.
Defined.

Lemma decoded_instance_panics_witness :
  (∃ s1, UnmarshalJSON decode_running "{}" demo_init = Done None s1 ∧
         Stop env_stop s1 = Panic) ∧
  (∃ s1, UnmarshalJSON decode_wild "{}" (init blank_instance) = Done None s1 ∧
         Start env_ok s1 = Panic).
Proof.
  split.
  - destruct (decoded_instance_panics decode_running "{}" demo_init _ eq_refl)
      as (s1 & HU & Hstop & _).
    exists s1. split; [exact HU|]. apply Hstop; [reflexivity|by left].
  - destruct (decoded_instance_panics decode_wild "{}" (init blank_instance) _ eq_refl)
      as (s1 & HU & _ & Hstart).
    exists s1. split; [exact HU|]. apply Hstart; [reflexivity|reflexivity|].
    left. by eexists.
Defined.

Lemma UnmarshalJSON_keeps_stale_proxy_witness :
  ∃ s' o', UnmarshalJSON decode_moved "{}" demo_proxied = Done None s' ∧
    options (inst s') = Some o' ∧ target_of o' = target_of moved_options ∧
    GetProxy s' =
      Done (Some {| target := ("http://127.0.0.1:18001" : @URL demo) |}, None) s' ∧
    ¬ proxy_matches (inst s').
Proof.
  destruct (UnmarshalJSON_keeps_stale_proxy decode_moved "{}" demo_proxied _
              moved_options {| target := ("http://127.0.0.1:18001" : @URL demo) |}
              eq_refl eq_refl ltac:(vm_compute; reflexivity))
    as (s' & o' & HU & Ho & Ht & HG & Hn).
  exists s', o'. split; [exact HU|]. split; [exact Ho|]. split; [exact Ht|].
  split; [exact HG|]. apply Hn. vm_compute. discriminate.
Defined.

Lemma Marshal_Unmarshal_round_trip_witness :
  MarshalJSON encode_demo demo_running = Done ("{}", None) demo_running ∧
  ∃ s', UnmarshalJSON decode_demo "{}" (init blank_instance) = Done None s' ∧
    Name (inst s') = Name (inst demo_running) ∧
    Running (inst s') = Running (inst demo_running) ∧
    options (inst s') = options (inst demo_running) ∧
    cmd (inst s') = None.
Proof.
  destruct (Marshal_Unmarshal_round_trip encode_demo decode_demo demo_running
              (init blank_instance) "{}" eq_refl eq_refl)
    as (HM & s' & HU & HN & HR & _ & Ho & _ & Hk & _).
  split; [exact HM|]. exists s'. split; [exact HU|]. split; [exact HN|].
  split; [exact HR|]. split; [|exact Hk].
  assert (options (inst demo_running) = Some demo_options) as ->
    by (vm_compute; reflexivity).
  apply Ho; [vm_compute; reflexivity| |]; intros x [= <-]; lia.
Defined.

Lemma calls_keep_proxy_of_options_witness :
  ∃ s', calls [CallGetProxy; CallSetOptions (Some moved_options); CallGetProxy;
               CallStep (OpStop env_stop); CallGetProxy] demo_running = Done tt s' ∧
        proxy_matches (inst s').
Proof.
  destruct (calls_keep_proxy_of_options
              [CallGetProxy; CallSetOptions (Some moved_options); CallGetProxy;
               CallStep (OpStop env_stop); CallGetProxy] demo_running demo_running_wf)
    as (s' & HC & _ & Hm).
  - intros p Hp. vm_compute in Hp. discriminate Hp.
  - by exists s'.
Defined.

Lemma calls_only_append_witness :
  ∃ s', calls [CallStep (OpOutput (Some demo_file) "listening");
               CallGetLogs 1 env_read; CallStep (OpStop env_stop)] demo_running
          = Done tt s' ∧
        grows (files demo_running) (files s').
Proof.
  exact (calls_only_append
           [CallStep (OpOutput (Some demo_file) "listening");
            CallGetLogs 1 env_read; CallStep (OpStop env_stop)]
           demo_running demo_running_wf).
Defined.

Lemma restart_timer_duration_witness :
  ∃ s', monitorProcess (Some (ExtErr "exit status 1")) "2025-01-01 10:01:00"
          demo_running = Done tt s' ∧
    restartCancel (inst s') = Some (next_id demo_running) ∧
    parked s' = <[next_id demo_running := delay_ns 1]> (parked demo_running) ∧
    delay_ns 1 = 1 * 1000000000.
Proof.
  destruct (restart_timer_duration demo_running (ExtErr "exit status 1")
              "2025-01-01 10:01:00" demo_options 2 1
              ltac:(vm_compute; reflexivity) ltac:(vm_compute; reflexivity)
              eq_refl eq_refl eq_refl ltac:(by vm_compute))
    as (s' & HS & Hrc & Hp & Hd & _).
  exists s'. split; [exact HS|]. split; [exact Hrc|]. split; [exact Hp|].
  apply Hd. lia.
Defined.

Lemma SetOptions_changes_restart_decision_witness :
  ∃ s1 s2, SetOptions (Some no_delay_options) demo_running = Done tt s1 ∧
    monitorProcess (Some (ExtErr "exit status 1")) "2025-01-01 10:01:00" s1
      = Done tt s2 ∧
    restartCancel (inst s2) = None ∧
    restarts (inst s2) = restarts (inst demo_running).
Proof.
  destruct (SetOptions_changes_restart_decision demo_running no_delay_options
              (ExtErr "exit status 1") "2025-01-01 10:01:00"
              ltac:(vm_compute; reflexivity))
    as (s1 & s2 & HS & _ & _ & _ & HM & Hiff & _ & Hnone).
  assert (restartCancel (inst s2) = None) as Hrc.
  { destruct (restartCancel (inst s2)) as [c|] eqn:E; [|reflexivity].
    destruct (proj1 Hiff (ex_intro _ c eq_refl)) as (_ & [d Hd] & _).
    discriminate Hd. }
  exists s1, s2. split; [exact HS|]. split; [exact HM|]. split; [exact Hrc|].
  exact (proj1 (Hnone Hrc)).
Defined.

Lemma restarts_are_announced_in_order_witness :
  ∃ s', run crash_three_times demo_init = Done tt s' ∧
    Z.of_nat (length (attempts s')) =
      Z.of_nat (length (attempts demo_init))
      + (restarts (inst s') - restarts (inst demo_init)).
Proof.
  destruct (restarts_are_announced_in_order crash_three_times demo_init
              demo_init_wf demo_init_ints_ok demo_init_bounded)
    as (s' & HR & _ & Hlen & _).
  exists s'. split; [exact HR|exact Hlen].
Defined.

Lemma session_log_witness :
  ∃ s', run (OpStart env_ok :: ((OpOutput (Some demo_file) <$> demo_lines) ++
             (OpStop env_stop :: (OpOutput (Some demo_file) <$> ["bye"])))) demo_init
          = Done tt s' ∧
    files s' !! "/var/log/llamactl/small.log" =
      Some (started_marker "small" "2025-01-01 10:00:00"
            +:+ written demo_lines
            +:+ stopped_marker "small" "2025-01-01 10:05:00") ∧
    logFile (inst s') = None.
Proof.
  destruct (session_log env_ok env_stop demo_init demo_options demo_config
              demo_lines ["bye"] eq_refl eq_refl eq_refl eq_refl eq_refl eq_refl eq_refl)
    as (s' & HR & Hf & _ & Hl & _).
  exists s'. split; [exact HR|]. split; [exact Hf|exact Hl].
Defined.

Lemma GetLogs_fails_once_stopped_witness :
  ∃ s', Stop env_stop demo_running = Done None s' ∧
    is_Some (files s' !! file_name demo_file) ∧
    GetLogs 10 env_read s'
    = Done ("", Some (ELogNotCreated (Name (inst demo_running)))) s'.
Proof.
  destruct (proj1 (GetLogs_fails_once_stopped demo_running demo_file
              ltac:(vm_compute; reflexivity)
              ltac:(vm_compute; by eexists) ltac:(vm_compute; by eexists)
              ltac:(vm_compute; reflexivity) ltac:(by vm_compute)) env_stop)
    as (s' & HS & Hf & HG).
  exists s'. split; [exact HS|]. split; [by eexists|apply HG].
Defined.

Lemma GetLogs_reads_back_output_witness :
  ∃ s', run (OpStart env_ok :: (OpOutput (Some demo_file) <$> demo_lines)) demo_init
          = Done tt s' ∧
    GetLogs 1 env_read s' = Done ("listening", None) s'.
Proof.
  destruct (GetLogs_reads_back_output env_ok env_read demo_init demo_options
              demo_config demo_lines 1
              eq_refl eq_refl eq_refl eq_refl eq_refl eq_refl eq_refl eq_refl eq_refl
              ltac:(repeat constructor) ltac:(simpl; lia)
              ltac:(vm_compute; reflexivity) ltac:(by vm_compute))
    as (s' & HR & _ & HG).
  exists s'. split; [exact HR|exact HG].
Defined.

Lemma SetOptions_takes_effect_at_next_Start_witness :
  ∃ s1 s2 c, SetOptions (Some moved_options) demo_init = Done tt s1 ∧
    Start env_ok s1 = Done None s2 ∧ cmd (inst s2) = Some c ∧
    cmd_args c = ["--host"; "127.0.0.1"; "--port"; "18002"].
Proof.
  destruct (SetOptions_takes_effect_at_next_Start demo_init moved_options env_ok
              demo_config eq_refl eq_refl eq_refl eq_refl eq_refl)
    as (s1 & HS & _ & _ & _ & _ & _ & Hstart).
  destruct (Hstart eq_refl) as (s2 & c & HS2 & _ & Hc & Ha & _).
  exists s1, s2, c. split; [exact HS|]. split; [exact HS2|].
  split; [exact Hc|exact Ha].
Defined.

Lemma restart_clear_forgets_pending_restart_witness :
  ∃ s1 s2 s3, restart_clear demo_racing = Done tt s1 ∧
    Stop env_stop s1 = Done (Some (ENotRunning (Name (inst demo_racing)))) s1 ∧
    select_timer 9 s1 = Done tt s2 ∧
    restart_Start env_ok s2 = Done tt s3 ∧ Running (inst s3) = true.
Proof.
  destruct (restart_clear_forgets_pending_restart demo_racing 9 1000000000 0 env_stop
              ltac:(vm_compute; reflexivity) ltac:(vm_compute; reflexivity)
              ltac:(vm_compute; reflexivity) ltac:(vm_compute; reflexivity)
              ltac:(by vm_compute))
    as (s1 & s2 & HC & _ & HS & _ & HT & _ & Hgo).
  destruct (Hgo env_ok demo_options demo_config
              ltac:(vm_compute; reflexivity) ltac:(vm_compute; reflexivity)
              eq_refl eq_refl eq_refl eq_refl) as (s3 & HR & Hrun & _).
  exists s1, s2, s3. split; [exact HC|]. split; [exact HS|].
  split; [exact HT|]. split; [exact HR|exact Hrun].
Defined.

Lemma retry_after_failed_spawn_witness :
  ∃ s1 s2 s3, Start env_no_binary demo_init =
      Done (Some (EStartInstance "small"
        (ExtErr "exec: llama-server: executable file not found in $PATH"))) s1 ∧
    Start env_ok s1 = Done None s2 ∧ Stop env_stop s2 = Done None s3 ∧
    logFile (inst s3) = None ∧ next_id demo_init ∈ open_fds s3.
Proof.
  destruct (retry_after_failed_spawn env_no_binary env_ok env_stop demo_init
              demo_options demo_config
              (ExtErr "exec: llama-server: executable file not found in $PATH")
              eq_refl eq_refl eq_refl eq_refl eq_refl eq_refl eq_refl
              eq_refl eq_refl eq_refl eq_refl)
    as (s1 & s2 & s3 & f2 & H1 & H2 & _ & _ & _ & _ & _ & _ & H3 & Hl & Hfd & _).
  exists s1, s2, s3. split; [exact H1|]. split; [exact H2|]. split; [exact H3|].
  split; [exact Hl|exact Hfd].
Defined.

Lemma GetLogs_succeeds_iff_witness :
  ∃ text, GetLogs 0 env_read demo_running = Done (text, None) demo_running.
Proof.
  destruct (GetLogs_succeeds_iff 0 env_read demo_running)
    as (text & r & HG & _ & Hiff & _).
  assert (r = None) as ->.
  { apply Hiff. exists demo_file, demo_log.
    split; [vm_compute; reflexivity|]. split; [discriminate|].
    split; [reflexivity|]. split; [vm_compute; reflexivity|].
    split; [reflexivity|]. intros H. lia. }
  by exists text.
Defined.

Lemma demo_long_readable (k : nat) (n : Z) :
  Z.of_nat k ≤ 65536 → 0 ≤ n ≤ 1 →
  let s := with_files (<[file_name demo_file := line_of k +:+ nl]> (files demo_running))
             demo_running in
  GetLogs n env_read s =
    Done (if n <=? 0 then (line_of k +:+ nl, None)
          else if 65536 <=? Z.of_nat k
               then ("", Some (EReadingFile ErrTooLong))
               else (line_of k, None)) s.
Proof.
  intros Hk Hn s.
  rewrite (GetLogs_readable s demo_file (line_of k +:+ nl) n env_read);
    [|reflexivity|discriminate|apply lookup_insert_eq|reflexivity|reflexivity
     |unfold is_int, min_int, max_int; lia
     |rewrite length_append, line_of_length; simpl;
      unfold is_int, min_int, max_int; lia].
  rewrite line_of_too_long, line_of_scan_lines.
  destruct (Z.leb_spec n 0); [done|].
  destruct (Z.leb_spec 65536 (Z.of_nat k)); [done|].
  by replace n with 1 by lia.
Qed.

(** C9 fails as stated: the log file of the running demo instance holds
    one line, of 65536 bytes, and its newline; [GetLogs 1] returns the
    error of the scanner and an empty text, not that line, while
    [GetLogs 0] returns the file. *)
Lemma GetLogs_fails_on_long_line :
  logFile (inst demo_long) = Some demo_file ∧
  files demo_long !! file_name demo_file = Some (long_line +:+ nl) ∧
  Z.of_nat (String.length long_line) = 65536 ∧
  scan_lines (long_line +:+ nl) = [long_line] ∧
  GetLogs 1 env_read demo_long
    = Done ("", Some (EReadingFile ErrTooLong)) demo_long ∧
  GetLogs 1 env_read demo_long ≠ Done (long_line, None) demo_long ∧
  GetLogs 0 env_read demo_long = Done (long_line +:+ nl, None) demo_long.
Proof.
  assert (GetLogs 1 env_read demo_long
          = Done ("", Some (EReadingFile ErrTooLong)) demo_long) as H.
  { unfold demo_long, long_line.
    rewrite (demo_long_readable (Z.to_nat 65536) 1) by lia.
    by replace (Z.of_nat (Z.to_nat 65536)) with 65536 by lia. }
  split; [reflexivity|]. split; [apply lookup_insert_eq|].
  split; [unfold long_line; rewrite line_of_length; lia|].
  split; [apply line_of_scan_lines|]. split; [exact H|].
  split; [rewrite H; congruence|].
  unfold demo_long, long_line.
  by rewrite (demo_long_readable (Z.to_nat 65536) 0) by lia.
Qed.

(** A line of 65535 bytes is read. *)
Example GetLogs_reads_line_below_limit :
  Z.of_nat (String.length short_line) = 65535 ∧
  GetLogs 1 env_read demo_short = Done (short_line, None) demo_short.
Proof.
  split; [unfold short_line; rewrite line_of_length; lia|].
  unfold demo_short, short_line.
  rewrite (demo_long_readable (Z.to_nat 65535) 1) by lia.
  by replace (Z.of_nat (Z.to_nat 65535)) with 65535 by lia.
Qed.

Lemma GetLogs_returns_last_lines_witness :
  GetLogs 1 env_read demo_running =
    Done ("=== Instance small started at 2025-01-01 10:00:00 ===", None) demo_running ∧
  GetLogs 0 env_read demo_running = Done (demo_log, None) demo_running ∧
  GetLogs 1 env_read demo_long =
    Done ("", Some (EReadingFile ErrTooLong)) demo_long.
Proof.
  split; [|split].
  - exact (proj1 (GetLogs_returns_last_lines demo_running
        {| fd := 0; file_name := "/var/log/llamactl/small.log" |} demo_log 1 env_read
        eq_refl ltac:(discriminate) eq_refl eq_refl eq_refl
        ltac:(by vm_compute) ltac:(by vm_compute))).
  - exact (proj1 (GetLogs_returns_last_lines demo_running
        {| fd := 0; file_name := "/var/log/llamactl/small.log" |} demo_log 0 env_read
        eq_refl ltac:(discriminate) eq_refl eq_refl eq_refl
        ltac:(by vm_compute) ltac:(by vm_compute))).
  - destruct (GetLogs_returns_last_lines demo_long demo_file (long_line +:+ nl) 1
        env_read eq_refl ltac:(discriminate)
        ltac:(apply lookup_insert_eq) eq_refl eq_refl
        ltac:(by vm_compute)
        ltac:(unfold long_line; rewrite length_append, line_of_length;
              change (String.length nl) with 1%nat;
              unfold is_int, min_int, max_int; lia)) as [HG _].
    unfold long_line in HG at 2. rewrite line_of_too_long in HG.
    replace (Z.of_nat (Z.to_nat 65536)) with 65536 in HG by lia.
    exact HG.
Defined.

Lemma demo_running_contexts : contexts_made demo_running.
Proof.
  assert (next_id demo_running = 4%nat) as Hn by (vm_compute; reflexivity).
  split; [|split].
  - intros c Hc. vm_compute in Hc. discriminate Hc.
  - intros c Hc. vm_compute in Hc. injection Hc as <-. rewrite Hn. lia.
  - intros c Hc. vm_compute in Hc. discriminate Hc.
Defined.

(** The operator stops the running demo instance, starts it again, and
    then the monitor of the stopped child runs: a restart is scheduled on
    context 8, and its [Start] starts a third child. *)
Lemma Stop_then_Start_restarts_for_old_exit_witness :
  ∃ s1 s2 s5,
    Stop env_stop demo_running = Done None s1 ∧
    Start env_ok s1 = Done None s2 ∧
    run [OpStop env_stop; OpStart env_ok;
         OpChildExit (Some (ExtErr "signal: killed")) "2025-01-01 10:05:01";
         OpTimer 8; OpRestart env_ok] demo_running = Done tt s5 ∧
    Running (inst s5) = true ∧ spawns s5 = S (S (spawns demo_running)).
Proof.
  destruct (Stop_then_Start_restarts_for_old_exit demo_running env_stop env_ok env_ok
              (ExtErr "signal: killed") "2025-01-01 10:05:01"
              demo_options demo_config 2 1
              ltac:(vm_compute; reflexivity)
              ltac:(vm_compute; by eexists) ltac:(vm_compute; by eexists)
              ltac:(vm_compute; reflexivity) ltac:(vm_compute; reflexivity)
              eq_refl eq_refl eq_refl ltac:(by vm_compute) demo_running_contexts
              eq_refl eq_refl eq_refl eq_refl eq_refl eq_refl eq_refl eq_refl)
    as (s1 & s2 & s3 & s4 & s5 & c & H1 & H2 & H3 & _ & _ & _ & _ & _ & Hrc & _ & _
        & _ & _ & _ & HR5 & Hsp5 & Hrun).
  assert (c = 8%nat) as ->.
  { assert (∃ s3', monitorProcess (Some (ExtErr "signal: killed"))
                     "2025-01-01 10:05:01" s2 = Done tt s3' ∧
                   restartCancel (inst s3') = Some 8%nat) as (s3' & H3' & Hrc').
    { assert (s2 = state_of demo_running
                (Start env_ok (state_of demo_running (Stop env_stop demo_running))))
        as -> by (rewrite H1; simpl; by rewrite H2).
      eexists. split; [vm_compute; reflexivity|reflexivity]. }
    rewrite H3 in H3'. injection H3' as <-. congruence. }
  exists s1, s2, s5. split; [exact H1|]. split; [exact H2|].
  split; [exact Hrun|]. split; [exact HR5|exact Hsp5].
Defined.
